(** * rCryptoBot: the cached price resolver and the alert engine

    A shallow embedding of [src/utils/helpers.js], of
    [src/services/priceFeeds.js] ([getCryptoData], the pollers,
    [getCachedCryptoData]), of [src/services/alerts.js]
    ([checkAutoVolatilityAlerts], [checkAlerts], the timer of
    [startAlertMonitoring]) and of the alert commands of [registerCommands].

    Conventions of the embedding.
    - Times are milliseconds since the epoch, in [Z] ([Date.now()]).
    - A price, a volume or a market cap that the program holds is a finite
      Number, written as the rational [Q] it is equal to, and two of them
      are compared as such.  Where the program computes with Numbers (the
      percent change of the volatility alerts, [toFixed(2)]), the computation
      is the one of IEEE 754 binary64, rounding to nearest with ties to even
      ([Float64]): the operands enter through [Float64.of_Q], which leaves a
      Number as it is and reads a decimal numeral as [JSON.parse] and
      [parseFloat] do.  [NaN] as a price and an upstream entry without a
      numeric [usd] (on which [price.toFixed] would throw) are not
      represented, nor is a 24h change of magnitude 10^21 or more, which
      [toFixed] prints with an exponent.
    - A JavaScript string is the list of its UTF-16 code units.
    - A [Map] that is iterated, and an object that is walked with
      [for...in], is the list of its entries in iteration order; a [Map] or
      an object that is only read and written by key is a [gmap].
    - [console.log] and the rendering of message texts are left out; a
      message is the record of the values its text shows.
    - What lies outside the two services (the clock, the timers, Telegram,
      the HTTP calls) is a state [W] that every effect threads; a call that
      can fail returns how it completed.
    - A run of [checkAlerts] is given twice.  [Alerts.checkAlerts] is the run
      from its first statement to its last with nothing in between, and
      [Alerts.run_cycles] is a sequence of runs each of which has ended when
      the timer fires again.  [Timer] is the run as the event loop executes
      it, suspended at every [await], so that the runs the timer of
      [startAlertMonitoring] starts can overlap; [Timer.in_turn] is the run
      that nothing interrupts. *)

From Stdlib Require Import ZArith QArith Qabs Lqa List Bool Lia String Ascii.
From Stdlib Require Import DecimalString.
From Stdlib Require Floats.SpecFloat.
From stdpp Require Import base option list gmap.
Import ListNotations.

Open Scope Z_scope.

(** ** JavaScript strings *)

Module JsString.

(** A string is the list of its code units. *)
Definition t : Type := list N.

(** Reads a literal of 7-bit characters as a JavaScript string. *)
Definition js (s : string) : t := map N_of_ascii (list_ascii_of_string s).

Definition in_range (lo hi c : N) : bool := ((lo <=? c) && (c <=? hi))%N.

(** [String.prototype.toUpperCase] on one code unit.  The table is the
    Unicode one (UnicodeData and SpecialCasing) for the code units below
    U+0100; code units from U+0100 on are kept as they are. *)
Definition upper_unit (c : N) : list N :=
  if in_range 97 122 c then [c - 32]%N            (* a-z *)
  else if (c =? 181)%N then [924]%N               (* micro sign, to capital mu *)
  else if (c =? 223)%N then [83; 83]%N            (* sharp s, to SS *)
  else if in_range 224 246 c then [c - 32]%N      (* a-grave to o-diaeresis *)
  else if in_range 248 254 c then [c - 32]%N      (* o-slash to thorn *)
  else if (c =? 255)%N then [376]%N               (* y-diaeresis *)
  else [c].

(** [String.prototype.toLowerCase] on one code unit, same range. *)
Definition lower_unit (c : N) : list N :=
  if in_range 65 90 c then [c + 32]%N             (* A-Z *)
  else if in_range 192 214 c then [c + 32]%N      (* A-grave to O-diaeresis *)
  else if in_range 216 222 c then [c + 32]%N      (* O-slash to Thorn *)
  else [c].

Definition toUpperCase (s : t) : t := flat_map upper_unit s.
Definition toLowerCase (s : t) : t := flat_map lower_unit s.

(** Basic Latin: every code unit is below U+0080. *)
Definition is_ascii (s : t) : Prop := Forall (fun c => (c < 128)%N) s.

(** The empty string is the only falsy string. *)
Definition truthy (s : t) : bool := match s with [] => false | _ => true end.

End JsString.

Abbreviation jsstring := JsString.t.
Abbreviation js := JsString.js.
Abbreviation toUpperCase := JsString.toUpperCase.
Abbreviation toLowerCase := JsString.toLowerCase.

(** ** Rational comparisons as booleans *)

Definition Qleb (x y : Q) : bool := Qle_bool x y.
Definition Qltb (x y : Q) : bool := negb (Qle_bool y x).

(** ** JavaScript Numbers

    A Number is an IEEE 754 binary64 value.  The operations are those of
    [SpecFloat] at precision 53: each rounds its exact result to nearest,
    ties to even. *)

Module Float64.

Definition prec : Z := 53.
Definition emax : Z := 1024.

Definition number : Type := SpecFloat.spec_float.

Definition NaN : number := SpecFloat.S754_nan.
Definition zero : number := SpecFloat.S754_zero false.

(** The Number nearest to the rational [q], ties to even: the quotient of
    numerator and denominator, rounded once.  It is the value of the decimal
    numeral of [q], and [q] itself when [q] is a Number. *)
Definition of_Q (q : Q) : number :=
  match Qnum q with
  | Z0 => zero
  | Zpos n =>
      SpecFloat.SFdiv prec emax (SpecFloat.S754_finite false n 0)
        (SpecFloat.S754_finite false (Qden q) 0)
  | Zneg n =>
      SpecFloat.SFdiv prec emax (SpecFloat.S754_finite true n 0)
        (SpecFloat.S754_finite false (Qden q) 0)
  end.

(** The rational a finite Number is equal to. *)
Definition to_Q (x : number) : Q :=
  match x with
  | SpecFloat.S754_finite s m e =>
      let n := if s then Zneg m else Zpos m in
      match e with
      | Z0 => n # 1
      | Zpos _ => (n * 2 ^ e) # 1
      | Zneg k => n # (2 ^ k)%positive
      end
  | _ => 0
  end.

Definition sub : number -> number -> number := SpecFloat.SFsub prec emax.
Definition div : number -> number -> number := SpecFloat.SFdiv prec emax.
Definition mul : number -> number -> number := SpecFloat.SFmul prec emax.

(** [Math.abs(x)] *)
Definition abs : number -> number := SpecFloat.SFabs.

(** [x >= y] and [x > y]; both are false when an operand is [NaN]. *)
Definition geb (x y : number) : bool := SpecFloat.SFleb y x.
Definition gtb (x y : number) : bool := SpecFloat.SFltb y x.

(** The decimal numeral of a natural number. *)
Definition digits (n : Z) : jsstring := js (NilZero.string_of_int (Z.to_int n)).

(** [x.toFixed(2)]: the sign, then the integer [n] for which [n / 100] is
    nearest to the magnitude of [x] (the larger one of two), with a point
    before its last two digits. *)
Definition toFixed2 (x : number) : jsstring :=
  match x with
  | SpecFloat.S754_nan => js "NaN"
  | SpecFloat.S754_infinity false => js "Infinity"
  | SpecFloat.S754_infinity true => js "-Infinity"
  | SpecFloat.S754_zero _ => js "0.00"
  | SpecFloat.S754_finite s _ _ =>
      let magnitude := Qabs (to_Q x) in
      let n := (200 * Qnum magnitude + Zpos (Qden magnitude))
               / (2 * Zpos (Qden magnitude)) in
      let cents := n mod 100 in
      (if s then js "-" else [])
        ++ digits (n / 100) ++ js "."
        ++ (if cents <? 10 then js "0" else []) ++ digits cents
  end.

End Float64.

(** ** JavaScript [Map]: entries in insertion order, keys unique *)

Module JsMap.
Section WithValue.
Context {V : Type}.

Definition t : Type := list (jsstring * V).

(** [m.get(k)]; [None] is [m.has(k) === false]. *)
Fixpoint get (k : jsstring) (m : t) : option V :=
  match m with
  | [] => None
  | (k', v) :: rest => if decide (k' = k) then Some v else get k rest
  end.

Definition keys (m : t) : list jsstring := map fst m.
End WithValue.
Arguments t : clear implicits.
End JsMap.

(** ** Completions: a call returns or throws *)

Inductive JsError : Type :=
| AxiosError (status : option Z)   (* [error.response.status]; [None]: no response came *)
| TypeError.

Inductive Completion (A : Type) : Type :=
| Return (a : A)
| Throw (e : JsError).
Arguments Return {A} a.
Arguments Throw {A} e.

Definition bind {A B} (c : Completion A) (k : A -> Completion B) : Completion B :=
  match c with
  | Return a => k a
  | Throw e => Throw e
  end.

(** [try { body } catch (error) { handler }] *)
Definition try_catch {A} (body : Completion A) (handler : JsError -> Completion A)
  : Completion A :=
  match body with
  | Return a => Return a
  | Throw e => handler e
  end.

Notation "x <- c ;; k" := (bind c (fun x => k))
  (at level 100, c at next level, right associativity).

(** ** Configuration ([src/config/config.example.js]) *)

Record Config : Type := {
  CACHE_DURATION : Z;
  RATE_LIMIT_BACKOFF : Z;
  PRICE_FRESHNESS_WINDOW : Z;
  AUTO_ALERT_THRESHOLD : Q;
  AUTO_ALERT_COOLDOWN : Z;
  SYMBOL_MAP : gmap jsstring jsstring
}.

Definition config_example : Config := {|
  CACHE_DURATION := 120000;
  RATE_LIMIT_BACKOFF := 120000;
  PRICE_FRESHNESS_WINDOW := 15000;
  AUTO_ALERT_THRESHOLD := 3;
  AUTO_ALERT_COOLDOWN := 3600000;
  SYMBOL_MAP := list_to_map
    [ (js "BTC", js "bitcoin"); (js "ETH", js "ethereum"); (js "SOL", js "solana");
      (js "XRP", js "ripple"); (js "HYPE", js "hyperliquid"); (js "ASTER", js "astar");
      (js "WLFI", js "world-liberty-financial"); (js "SUI", js "sui");
      (js "ADA", js "cardano"); (js "JUP", js "jupiter-exchange-solana");
      (js "XCN", js "chain-2"); (js "LINK", js "chainlink"); (js "AAVE", js "aave");
      (js "DOT", js "polkadot"); (js "UNI", js "uniswap"); (js "MATIC", js "matic-network");
      (js "AVAX", js "avalanche-2"); (js "ATOM", js "cosmos"); (js "BNB", js "binancecoin");
      (js "DOGE", js "dogecoin"); (js "LTC", js "litecoin"); (js "BCH", js "bitcoin-cash");
      (js "XLM", js "stellar"); (js "VET", js "vechain"); (js "FIL", js "filecoin");
      (js "TRX", js "tron") ]
|}.

(** ** [src/utils/helpers.js] *)

(** [symbolMap[symbol.toUpperCase()] || symbol.toLowerCase()].  The key is
    in upper case, so it is none of the properties an object inherits, and
    the lookup in a [gmap] is the lookup in the object. *)
Definition getCoinGeckoId (symbol : jsstring) (symbolMap : gmap jsstring jsstring)
  : jsstring :=
  match symbolMap !! toUpperCase symbol with
  | Some id => if JsString.truthy id then id else toLowerCase symbol
  | None => toLowerCase symbol
  end.

(** ** [src/services/priceFeeds.js] *)

Module PriceFeeds.

(** One coin of the body of [GET /simple/price]. *)
Record CoinEntry : Type := {
  usd : Q;
  usd_24h_change : option Q;
  usd_market_cap : option Q;
  usd_24h_vol : option Q
}.

(** What [axios.get] settles to. *)
Inductive AxiosResult : Type :=
| Resolved (data : option (gmap jsstring CoinEntry))
    (* [response.data]; [None] when the body is [undefined] or [null] *)
| Rejected (status : option Z).
    (* status outside 2xx, or no response at all *)

(** The upstream as seen by one call: the answer to each [ids] parameter. *)
Definition Upstream : Type := jsstring -> AxiosResult.

(** The object [getCryptoData] returns, and the like of it the pollers
    store.  [change24h] is a string, the text [toFixed(2)] gives or ['N/A'];
    for [marketCap] and [volume24h], ['N/A'] is [None]. *)
Record CryptoData : Type := {
  price : Q;
  change24h : jsstring;
  marketCap : option Q;
  volume24h : option Q
}.

Inductive Source : Type :=
| cryptocompare | coincap | coingecko_fallback | coingecko.

(** An entry of [realtimePrices] or of [priceCache]. *)
Record PriceRecord : Type := {
  data : CryptoData;
  timestamp : Z;
  source : Source
}.

(** What the resolver hands back: a table entry, or the bare
    [freshData] of a cold fetch. *)
Inductive Answer : Type :=
| Stamped (r : PriceRecord)
| Bare (d : CryptoData).

Definition answer_price (a : Answer) : Q :=
  match a with
  | Stamped r => price (data r)
  | Bare d => price d
  end.

(** [parseFloat(x).toFixed(2)], and [x.toFixed(2)] for a number [x] of the
    body. *)
Definition toFixed2 (x : Q) : jsstring := Float64.toFixed2 (Float64.of_Q x).

(** [x?.toFixed(2) || 'N/A']: what [toFixed] gives is never the empty
    string. *)
Definition fixed_or_NA (x : option Q) : jsstring :=
  match x with
  | Some q => toFixed2 q
  | None => js "N/A"
  end.

(** [x || 'N/A'] on a number: zero and [undefined] are falsy. *)
Definition or_NA (x : option Q) : option Q :=
  match x with
  | Some q => if Qeq_bool q 0 then None else Some q
  | None => None
  end.

(** The [try] block of [getCryptoData]. *)
Definition getCryptoData_try (cfg : Config) (net : Upstream) (symbol : jsstring)
  : Completion (option CryptoData) :=
  response <- match net (getCoinGeckoId symbol (SYMBOL_MAP cfg)) with
              | Resolved body => Return body
              | Rejected status => Throw (AxiosError status)
              end ;;
  let coinId := getCoinGeckoId symbol (SYMBOL_MAP cfg) in
  entry <- match response with
           | Some body => Return (body !! coinId)
           | None => Throw TypeError
           end ;;
  match entry with
  | None => Return None
  | Some d =>
      Return (Some {| price := usd d;
                      change24h := fixed_or_NA (usd_24h_change d);
                      marketCap := or_NA (usd_market_cap d);
                      volume24h := or_NA (usd_24h_vol d) |})
  end.

(** [getCryptoData]: every error of the [try] block is caught and becomes
    [null]. *)
Definition getCryptoData (cfg : Config) (net : Upstream) (symbol : jsstring)
  : Completion (option CryptoData) :=
  try_catch (getCryptoData_try cfg net symbol) (fun _error => Return None).

(** Module state: [realtimePrices], [priceCache], [lastRateLimitTime]. *)
Record Store : Type := {
  realtimePrices : JsMap.t PriceRecord;
  priceCache : gmap jsstring PriceRecord;
  lastRateLimitTime : Z
}.

(** One call of the resolver: how it completes, the state it leaves, and
    the [ids] of the requests it sent upstream. *)
Record Outcome : Type := {
  completion : Completion (option Answer);
  store : Store;
  requests : list jsstring
}.

Definition is_429 (error : JsError) : bool :=
  match error with
  | AxiosError (Some status) => status =? 429
  | _ => false
  end.

(** The [catch] block of [getCachedCryptoData]. *)
Definition on_fetch_error (now : Z) (st : Store) (cacheKey symbolUpper : jsstring)
    (error : JsError) : Completion (option Answer) * Store :=
  if is_429 error then
    let st' := {| realtimePrices := realtimePrices st;
                  priceCache := priceCache st;
                  lastRateLimitTime := now |} in
    match priceCache st !! cacheKey with
    | Some cached => (Return (Some (Stamped cached)), st')
    | None =>
        match JsMap.get symbolUpper (realtimePrices st) with
        | Some realtimeData => (Return (Some (Stamped realtimeData)), st')
        | None => (Throw error, st')
        end
    end
  else (Throw error, st).

(** The cold fetch: the [try]/[catch] at the end of [getCachedCryptoData]. *)
Definition cold_fetch (cfg : Config) (net : Upstream) (now : Z) (st : Store)
    (symbol cacheKey symbolUpper : jsstring) : Outcome :=
  let sent := [getCoinGeckoId symbol (SYMBOL_MAP cfg)] in
  match getCryptoData cfg net symbol with
  | Return (Some freshData) =>
      {| completion := Return (Some (Bare freshData));
         store := {| realtimePrices := realtimePrices st;
                     priceCache := <[cacheKey := {| data := freshData;
                                                    timestamp := now;
                                                    source := coingecko |}]>
                                     (priceCache st);
                     lastRateLimitTime := lastRateLimitTime st |};
         requests := sent |}
  | Return None =>
      {| completion := Return None; store := st; requests := sent |}
  | Throw error =>
      let '(c, st') := on_fetch_error now st cacheKey symbolUpper error in
      {| completion := c; store := st'; requests := sent |}
  end.

(** [getCachedCryptoData(symbol, forceRefresh)], called at time [now]. *)
Definition getCachedCryptoData (cfg : Config) (net : Upstream) (now : Z) (st : Store)
    (symbol : jsstring) (forceRefresh : bool) : Outcome :=
  let cacheKey := toLowerCase symbol in
  let symbolUpper := toUpperCase symbol in
  let answer a := {| completion := Return a; store := st; requests := [] |} in
  let fresh :=
    match JsMap.get symbolUpper (realtimePrices st) with
    | Some realtimeData =>
        if now - timestamp realtimeData <? PRICE_FRESHNESS_WINDOW cfg
        then Some realtimeData else None
    | None => None
    end in
  match fresh with
  | Some realtimeData => answer (Some (Stamped realtimeData))
  | None =>
      if now - lastRateLimitTime st <? RATE_LIMIT_BACKOFF cfg then
        match priceCache st !! cacheKey with
        | Some cached => answer (Some (Stamped cached))
        | None =>
            match JsMap.get symbolUpper (realtimePrices st) with
            | Some realtimeData => answer (Some (Stamped realtimeData))
            | None => answer None
            end
        end
      else
        let warm :=
          if forceRefresh then None
          else match priceCache st !! cacheKey with
               | Some cachedData =>
                   if now - timestamp cachedData <? CACHE_DURATION cfg
                   then Some cachedData else None
               | None => None
               end in
        match warm with
        | Some cachedData => answer (Some (Stamped cachedData))
        | None => cold_fetch cfg net now st symbol cacheKey symbolUpper
        end
  end.

End PriceFeeds.

(** ** [src/services/alerts.js] *)

Module Alerts.

Inductive Status : Type := active | triggered.

(** An element of [priceAlerts[chatId]], as the [/alert] handler pushes it;
    [currentPrice] is the price when the alert was set. *)
Module Alert.
Record t : Type := {
  symbol : jsstring;
  targetPrice : Q;
  currentPrice : Q;
  timestamp : Z;
  alertId : jsstring;
  status : Status;
  triggerTime : option Z;
  triggerPrice : option Q
}.
End Alert.

(** A value of [autoAlerts.baselines]. *)
Module Baseline.
Record t : Type := {
  price : Q;
  timestamp : Z;
  lastAlertPrice : Q;
  lastAlertTime : Z
}.
End Baseline.

(** [autoAlerts]; [enabled] lists the properties in [for...in] order.
    [baselines] is read and written under the keys of the realtime table,
    the tickers the pollers store; none is a property an object inherits. *)
Record AutoAlerts : Type := {
  enabled : list (Z * bool);
  baselines : gmap jsstring Baseline.t;
  cooldown : Z;
  threshold : Q
}.

(** The value of [(currentPrice - lastAlertPrice) / lastAlertPrice * 100],
    a Number: a division by zero gives an infinity or [NaN]. *)
Definition Percent : Type := Float64.number.

Inductive Direction : Type := UP | DOWN.
Inductive Trend : Type := upward | downward.

(** What is sent: the values the two message texts are rendered from. *)
Inductive Message : Type :=
| VolatilityAlert (symbol : jsstring) (direction : Direction) (change : Percent)
    (currentPrice was : Q)
| TargetHit (alert : Alert.t) (trend : Trend).

(** One call of [bot.sendMessage]; [delivered] is [false] when it rejected. *)
Record Sent : Type := {
  to : Z;
  notice : Message;
  delivered : bool
}.

(** One run of the body of the inner loop of [checkAlerts]: the alert
    object evaluated, by its position in [priceAlerts[chat]], and the
    messages the body sent. *)
Record Visit : Type := {
  chat : Z;
  slot : nat;
  sends : list Sent
}.

Definition visits_of (chatId : Z) (ref : nat) (log : list Visit) : list Visit :=
  filter (fun v => chat v = chatId /\ slot v = ref) log.

(** How many messages the visits of one alert object sent. *)
Definition notifications (chatId : Z) (ref : nat) (log : list Visit) : nat :=
  length (concat (map sends (visits_of chatId ref log))).

(** [priceAlerts[chatId]]; the keys of an object are unique, the first
    entry under a key is the property. *)
Fixpoint alerts_of (chatId : Z) (priceAlerts : list (Z * list Alert.t))
  : option (list Alert.t) :=
  match priceAlerts with
  | [] => None
  | (chatId', alerts) :: rest =>
      if decide (chatId' = chatId) then Some alerts else alerts_of chatId rest
  end.

(** [priceAlerts[chatId][ref]] *)
Definition alert_at (chatId : Z) (ref : nat) (priceAlerts : list (Z * list Alert.t))
  : option Alert.t :=
  match alerts_of chatId priceAlerts with
  | Some alerts => alerts !! ref
  | None => None
  end.

(** The clock and the timers of the host, over a state [W] of the world
    outside the two modules. *)
Class Host (W : Type) : Type := {
  Date_now : W -> Z;
  setTimeout : Z -> W -> W;
    (* [await new Promise(resolve => setTimeout(resolve, ms))] *)
  marketContext : jsstring -> W -> W
    (* the [axios.get] of [generateAlertAnalysis]; it only decorates the text *)
}.

(** The [bot] argument: [sendMessage] resolves ([true]) or rejects. *)
Record Bot (W : Type) : Type := {
  sendMessage : Z -> Message -> W -> bool * W
}.
Arguments sendMessage {W} _ _ _ _.

(** The [getCachedCryptoData] argument of [checkAlerts]. *)
Definition Resolver (W : Type) : Type :=
  jsstring -> bool -> W -> Completion (option PriceFeeds.Answer) * W.

(** [((currentPrice - baseline.lastAlertPrice) / baseline.lastAlertPrice)
    * 100], each operation rounded. *)
Definition percent_change (currentPrice lastAlertPrice : Q) : Percent :=
  Float64.mul
    (Float64.div
       (Float64.sub (Float64.of_Q currentPrice) (Float64.of_Q lastAlertPrice))
       (Float64.of_Q lastAlertPrice))
    (Float64.of_Q 100).

(** [Math.abs(p) >= threshold] *)
Definition abs_at_least (p : Percent) (threshold : Q) : bool :=
  Float64.geb (Float64.abs p) (Float64.of_Q threshold).

(** [p > 0] *)
Definition positive (p : Percent) : bool := Float64.gtb p Float64.zero.

Definition set_baseline (aa : AutoAlerts) (symbol : jsstring) (b : Baseline.t)
  : AutoAlerts :=
  {| enabled := enabled aa;
     baselines := <[symbol := b]> (baselines aa);
     cooldown := cooldown aa;
     threshold := threshold aa |}.

(** [baseline.lastAlertPrice = currentPrice; baseline.lastAlertTime = now] *)
Definition rebase (baseline : Baseline.t) (currentPrice : Q) (now : Z) : Baseline.t :=
  {| Baseline.price := Baseline.price baseline;
     Baseline.timestamp := Baseline.timestamp baseline;
     Baseline.lastAlertPrice := currentPrice;
     Baseline.lastAlertTime := now |}.

(** The values the volatility message shows. *)
Definition volatility_message (symbol : jsstring) (currentPrice : Q)
    (baseline : Baseline.t) : Message :=
  let priceChangePercent :=
    percent_change currentPrice (Baseline.lastAlertPrice baseline) in
  let direction := if positive priceChangePercent then UP else DOWN in
  VolatilityAlert symbol direction priceChangePercent currentPrice
    (Baseline.lastAlertPrice baseline).

(** The crossing rule of [checkAlerts]. *)
Definition shouldTrigger (alert : Alert.t) (currentPrice : Q) : bool :=
  let originalPrice := Alert.currentPrice alert in
  (Qltb originalPrice (Alert.targetPrice alert)
     && Qleb (Alert.targetPrice alert) currentPrice)
  || (Qltb (Alert.targetPrice alert) originalPrice
     && Qleb currentPrice (Alert.targetPrice alert)).

Definition trigger (alert : Alert.t) (now : Z) (currentPrice : Q) : Alert.t :=
  {| Alert.symbol := Alert.symbol alert;
     Alert.targetPrice := Alert.targetPrice alert;
     Alert.currentPrice := Alert.currentPrice alert;
     Alert.timestamp := Alert.timestamp alert;
     Alert.alertId := Alert.alertId alert;
     Alert.status := triggered;
     Alert.triggerTime := Some now;
     Alert.triggerPrice := Some currentPrice |}.

Definition is_active (alert : Alert.t) : bool :=
  match Alert.status alert with active => true | triggered => false end.

(** The positions of the elements [filter] keeps: the array it returns
    holds the same objects as [priceAlerts[chatId]]. *)
Fixpoint active_slots (from : nat) (alerts : list Alert.t) : list nat :=
  match alerts with
  | [] => []
  | alert :: rest =>
      if is_active alert then from :: active_slots (S from) rest
      else active_slots (S from) rest
  end.

Section Engine.
Context {W : Type} {host : Host W}.
Variable bot : Bot W.

(** The [for (const chatId in autoAlerts.enabled)] loop. *)
Fixpoint broadcast (chats : list (Z * bool)) (message : Message) (w : W)
  : W * list Sent :=
  match chats with
  | [] => (w, [])
  | (chatId, flag) :: rest =>
      if flag then
        let '(ok, w1) := sendMessage bot chatId message w in
        let '(w2, log) := broadcast rest message w1 in
        (w2, {| to := chatId; notice := message; delivered := ok |} :: log)
      else broadcast rest message w
  end.

(** The body of the loop of [checkAutoVolatilityAlerts] for one symbol
    whose entry [currentData] is in the table. *)
Definition checkSymbol (aa : AutoAlerts) (symbol : jsstring)
    (currentData : PriceFeeds.PriceRecord) (w : W) : AutoAlerts * W * list Sent :=
  let currentPrice := PriceFeeds.price (PriceFeeds.data currentData) in
  let now := Date_now w in
  match baselines aa !! symbol with
  | None =>
      (set_baseline aa symbol
         {| Baseline.price := currentPrice;
            Baseline.timestamp := now;
            Baseline.lastAlertPrice := currentPrice;
            Baseline.lastAlertTime := 0 |},
       w, [])
  | Some baseline =>
      let priceChangePercent :=
        percent_change currentPrice (Baseline.lastAlertPrice baseline) in
      if abs_at_least priceChangePercent (threshold aa)
         && (cooldown aa <? now - Baseline.lastAlertTime baseline)
      then
        let message := volatility_message symbol currentPrice baseline in
        let '(w1, log) := broadcast (enabled aa) message w in
        (set_baseline aa symbol (rebase baseline currentPrice now),
         setTimeout 200 w1, log)
      else (aa, setTimeout 200 w, [])
  end.

Fixpoint volatility_loop (trackedSymbols : list jsstring)
    (realtimePrices : JsMap.t PriceFeeds.PriceRecord) (aa : AutoAlerts) (w : W)
  : AutoAlerts * W * list Sent :=
  match trackedSymbols with
  | [] => (aa, w, [])
  | symbol :: rest =>
      let '(aa1, w1, log1) :=
        match JsMap.get symbol realtimePrices with
        | Some currentData => checkSymbol aa symbol currentData w
        | None => (aa, w, [])
        end in
      let '(aa2, w2, log2) := volatility_loop rest realtimePrices aa1 w1 in
      (aa2, w2, log1 ++ log2)
  end.

Definition checkAutoVolatilityAlerts
    (realtimePrices : JsMap.t PriceFeeds.PriceRecord) (aa : AutoAlerts) (w : W)
  : AutoAlerts * W * list Sent :=
  volatility_loop (JsMap.keys realtimePrices) realtimePrices aa w.

Variable getCachedCryptoData : Resolver W.

(** [await new Promise(resolve => setTimeout(resolve, 1000))] unless the
    alert is the last of [userAlerts]. *)
Definition pace (last : bool) (w : W) : W :=
  if last then w else setTimeout 1000 w.

(** The body of the inner loop of [checkAlerts] for the alert object
    [alert]; it returns the object as the body leaves it. *)
Definition checkAlert (chatId : Z) (last : bool) (alert : Alert.t) (w : W)
  : Alert.t * W * list Sent :=
  match getCachedCryptoData (Alert.symbol alert) true w with
  | (Throw _, w1) => (alert, w1, [])
  | (Return None, w1) => (alert, w1, [])
  | (Return (Some currentData), w1) =>
      let currentPrice := PriceFeeds.answer_price currentData in
      let originalPrice := Alert.currentPrice alert in
      if shouldTrigger alert currentPrice then
        let alert' := trigger alert (Date_now w1) currentPrice in
        let trend :=
          if Qltb originalPrice (Alert.targetPrice alert') then upward else downward in
        let w2 := marketContext (Alert.symbol alert') w1 in
        let alertMessage := TargetHit alert' trend in
        let '(ok, w3) := sendMessage bot chatId alertMessage w2 in
        (alert',
         if ok then pace last w3 else w3,
         [{| to := chatId; notice := alertMessage; delivered := ok |}])
      else (alert, pace last w1, [])
  end.

(** The [for (const alert of userAlerts)] loop.  [userAlerts] holds
    references into [alerts], the array [priceAlerts[chatId]]: the body reads
    the object at the position and its writes land there. *)
Fixpoint alerts_loop (chatId : Z) (userAlerts : list nat) (alerts : list Alert.t)
    (w : W) : list Alert.t * W * list Visit :=
  match userAlerts with
  | [] => (alerts, w, [])
  | ref :: rest =>
      match alerts !! ref with
      | None => alerts_loop chatId rest alerts w
      | Some alert =>
          let last := match rest with [] => true | _ => false end in
          let '(alert', w1, log1) := checkAlert chatId last alert w in
          let '(alerts2, w2, log2) :=
            alerts_loop chatId rest (<[ref := alert']> alerts) w1 in
          (alerts2, w2, {| chat := chatId; slot := ref; sends := log1 |} :: log2)
      end
  end.

(** The [for (const chatId in priceAlerts)] loop. *)
Fixpoint chats_loop (priceAlerts : list (Z * list Alert.t)) (w : W)
  : list (Z * list Alert.t) * W * list Visit :=
  match priceAlerts with
  | [] => ([], w, [])
  | (chatId, alerts) :: rest =>
      let userAlerts := active_slots 0 alerts in
      let '(alerts', w1, log1) := alerts_loop chatId userAlerts alerts w in
      let '(rest', w2, log2) := chats_loop rest w1 in
      ((chatId, alerts') :: rest', w2, log1 ++ log2)
  end.

(** Module state of [alerts.js]; [priceAlerts] lists the properties in
    [for...in] order. *)
Record State : Type := {
  priceAlerts : list (Z * list Alert.t);
  autoAlerts : AutoAlerts
}.

(** What one run of [checkAlerts] leaves and sends. *)
Record Cycle : Type := {
  state : State;
  world : W;
  broadcasts : list Sent;
  visits : list Visit
}.

Definition checkAlerts (realtimePrices : JsMap.t PriceFeeds.PriceRecord)
    (st : State) (w : W) : Cycle :=
  let '(aa, w1, log1) := checkAutoVolatilityAlerts realtimePrices (autoAlerts st) w in
  let '(pa, w2, log2) := chats_loop (priceAlerts st) w1 in
  {| state := {| priceAlerts := pa; autoAlerts := aa |};
     world := w2;
     broadcasts := log1;
     visits := log2 |}.

(** Runs of [checkAlerts] in turn: each has ended when the timer fires
    again ([Timer] has the runs that overlap).  Before each run the world
    moves on as the schedule says (time passes, the poller works), and the
    run is given the realtime table of that moment. *)
Fixpoint run_cycles
    (schedule : list ((W -> W) * JsMap.t PriceFeeds.PriceRecord))
    (st : State) (w : W) : State * W * list Sent * list Visit :=
  match schedule with
  | [] => (st, w, [], [])
  | (elapse, realtimePrices) :: rest =>
      let c := checkAlerts realtimePrices st (elapse w) in
      let '(st', w', sent, seen) := run_cycles rest (state c) (world c) in
      (st', w', broadcasts c ++ sent, visits c ++ seen)
  end.

End Engine.

End Alerts.

(** ** The wiring of the entry point *)

Module Wiring.

(** The world of the running bot, as far as the two services see it: the
    clock, the state of [priceFeeds.js], and how CoinGecko answers. *)
Record World : Type := {
  clock : Z;
  feeds : PriceFeeds.Store;
  upstream : PriceFeeds.Upstream
}.

#[export] Instance host : Alerts.Host World :=
  {| Alerts.Date_now := clock;
     Alerts.setTimeout := fun ms w =>
       {| clock := clock w + ms; feeds := feeds w; upstream := upstream w |};
     Alerts.marketContext := fun _ w => w |}.

(** [priceFeeds.getCachedCryptoData], as [startAlertMonitoring] receives it. *)
Definition getCachedCryptoData (cfg : Config) : Alerts.Resolver World :=
  fun symbol forceRefresh w =>
    let out :=
      PriceFeeds.getCachedCryptoData cfg (upstream w) (clock w) (feeds w)
        symbol forceRefresh in
    (PriceFeeds.completion out,
     {| clock := clock w; feeds := PriceFeeds.store out; upstream := upstream w |}).

(** The callback of the timer of [startAlertMonitoring]:
    [checkAlerts(bot, getCachedCryptoData, getRealtimePrices())]. *)
Definition alert_tick (cfg : Config) (bot : Alerts.Bot World) (st : Alerts.State)
    (w : World) : Alerts.Cycle :=
  Alerts.checkAlerts bot (getCachedCryptoData cfg)
    (PriceFeeds.realtimePrices (feeds w)) st w.

End Wiring.

(** ** Sample states *)

Module Samples.
Import PriceFeeds.

Definition quote (p : Q) : CryptoData :=
  {| price := p; change24h := js "N/A"; marketCap := None; volume24h := None |}.

(** A clock reading, in epoch milliseconds. *)
Definition t0 : Z := 1700000000000.

(** An upstream that answers every request with status 429. *)
Definition rate_limiting : Upstream := fun _ => Rejected (Some 429).

(** An upstream whose requests time out: no response at all. *)
Definition timing_out : Upstream := fun _ => Rejected None.

(** An upstream that answers with status 500. *)
Definition failing_500 : Upstream := fun _ => Rejected (Some 500).

(** An upstream whose body is not an object. *)
Definition malformed : Upstream := fun _ => Resolved None.

(** An upstream that knows no coin. *)
Definition knows_nothing : Upstream := fun _ => Resolved (Some ∅).

(** BTC was cached ten minutes before [t0]; nothing else is known. *)
Definition stale_btc : PriceRecord :=
  {| data := quote 50000; timestamp := t0 - 600000; source := coingecko |}.

Definition only_stale_cache : Store :=
  {| realtimePrices := [];
     priceCache := {[ js "btc" := stale_btc ]};
     lastRateLimitTime := 0 |}.

(** BTC was polled five seconds before [t0]. *)
Definition polled_btc : PriceRecord :=
  {| data := quote 50123; timestamp := t0 - 5000; source := cryptocompare |}.

Definition fresh_poll : Store :=
  {| realtimePrices := [(js "BTC", polled_btc)];
     priceCache := {[ js "btc" := stale_btc ]};
     lastRateLimitTime := 0 |}.

(** A rate limit was recorded one minute before [t0]; the poll of BTC is
    one minute old. *)
Definition old_poll : PriceRecord :=
  {| data := quote 50123; timestamp := t0 - 60000; source := coincap |}.

Definition backing_off : Store :=
  {| realtimePrices := [(js "BTC", old_poll)];
     priceCache := {[ js "btc" := stale_btc ]};
     lastRateLimitTime := t0 - 60000 |}.

(** The one-letter symbol U+00DF (sharp s) and a cache that holds [ss],
    written one second before [t0]. *)
Definition sharp_s : jsstring := [223%N].

Definition cached_ss : PriceRecord :=
  {| data := quote 7; timestamp := t0 - 1000; source := coingecko |}.

Definition holds_ss : Store :=
  {| realtimePrices := [];
     priceCache := {[ js "ss" := cached_ss ]};
     lastRateLimitTime := 0 |}.

(** A world that is only a clock: a timer advances it, nothing else takes
    time. *)
#[export] Instance clock_host : Alerts.Host Z :=
  {| Alerts.Date_now := fun w => w;
     Alerts.setTimeout := fun ms w => w + ms;
     Alerts.marketContext := fun _ w => w |}.

(** A bot whose every [sendMessage] resolves. *)
Definition delivering {W : Type} : Alerts.Bot W :=
  {| Alerts.sendMessage := fun _ _ w => (true, w) |}.

(** A bot whose every [sendMessage] rejects. *)
Definition unreachable {W : Type} : Alerts.Bot W :=
  {| Alerts.sendMessage := fun _ _ w => (false, w) |}.

(** A resolver that answers every symbol with the price [p]. *)
Definition quoting (p : Q) : Alerts.Resolver Z :=
  fun _ _ w => (Return (Some (Bare (quote p))), w).

Definition btc_record (p : Q) (at_ : Z) : PriceRecord :=
  {| data := quote p; timestamp := at_; source := cryptocompare |}.

(** The realtime table with BTC alone, polled at [at_] for the price [p]. *)
Definition btc_at (p : Q) (at_ : Z) : JsMap.t PriceRecord :=
  [(js "BTC", btc_record p at_)].

(** Chat 42 has the volatility alerts on, chat 7 has turned them off;
    threshold 3 percent, cooldown one hour, no baseline yet. *)
Definition subscribed : Alerts.AutoAlerts :=
  {| Alerts.enabled := [(7, false); (42, true)];
     Alerts.baselines := ∅;
     Alerts.cooldown := AUTO_ALERT_COOLDOWN config_example;
     Alerts.threshold := AUTO_ALERT_THRESHOLD config_example |}.

(** The same with nobody subscribed. *)
Definition nobody : Alerts.AutoAlerts :=
  {| Alerts.enabled := [(7, false)];
     Alerts.baselines := ∅;
     Alerts.cooldown := AUTO_ALERT_COOLDOWN config_example;
     Alerts.threshold := AUTO_ALERT_THRESHOLD config_example |}.

(** No manual alert, chat 42 subscribed. *)
Definition watching : Alerts.State :=
  {| Alerts.priceAlerts := []; Alerts.autoAlerts := subscribed |}.

(** The baseline of a first sight of BTC at [t0] for the price 100, and
    [nobody] with that baseline. *)
Definition seeded_btc : Alerts.Baseline.t :=
  {| Alerts.Baseline.price := 100;
     Alerts.Baseline.timestamp := t0;
     Alerts.Baseline.lastAlertPrice := 100;
     Alerts.Baseline.lastAlertTime := 0 |}.

Definition nobody_seeded : Alerts.AutoAlerts :=
  Alerts.set_baseline nobody (js "BTC") seeded_btc.

Definition to_the_clock (t : Z) : Z -> Z := fun _ => t.

(** BTC is first seen at 100, is at 103.5 thirty seconds later, and at
    107.1225 (another 3.5 percent up) [gap] milliseconds after that. *)
Definition two_moves (gap : Z) : list ((Z -> Z) * JsMap.t PriceRecord) :=
  [ (to_the_clock t0, btc_at 100 t0);
    (to_the_clock (t0 + 30000), btc_at 103.5 (t0 + 30000));
    (to_the_clock (t0 + 30000 + gap), btc_at 107.1225 (t0 + 30000 + gap)) ].

(** An alert as [/alert] pushes it. *)
Definition new_alert (symbol alertId : jsstring) (target original : Q) (at_ : Z)
  : Alerts.Alert.t :=
  {| Alerts.Alert.symbol := symbol;
     Alerts.Alert.targetPrice := target;
     Alerts.Alert.currentPrice := original;
     Alerts.Alert.timestamp := at_;
     Alerts.Alert.alertId := alertId;
     Alerts.Alert.status := Alerts.active;
     Alerts.Alert.triggerTime := None;
     Alerts.Alert.triggerPrice := None |}.

Definition holding (alerts : list Alerts.Alert.t) : Alerts.State :=
  {| Alerts.priceAlerts := [(42, alerts)]; Alerts.autoAlerts := nobody |}.

(** BTC was at 50000 when the alerts were set: one for 60000, one for
    50000 itself. *)
Definition btc_to_60000 : Alerts.Alert.t :=
  new_alert (js "BTC") (js "BTC_60000_1700000000000") 60000 50000 t0.

Definition btc_to_50000 : Alerts.Alert.t :=
  new_alert (js "BTC") (js "BTC_50000_1700000000000") 50000 50000 t0.

(** An alert for 50100 set when BTC was at 50000. *)
Definition btc_to_50100 : Alerts.Alert.t :=
  new_alert (js "BTC") (js "BTC_50100_1700000000000") 50100 50000 t0.

(** The running bot at [t0], with the state [feeds] of the price feeds and
    the upstream [net]. *)
Definition live (feeds : Store) (net : Upstream) : Wiring.World :=
  {| Wiring.clock := t0; Wiring.feeds := feeds; Wiring.upstream := net |}.

(** Three runs, thirty seconds apart, with an empty realtime table. *)
Definition three_runs : list ((Z -> Z) * JsMap.t PriceRecord) :=
  [ (to_the_clock (t0 + 30000), []);
    (to_the_clock (t0 + 60000), []);
    (to_the_clock (t0 + 90000), []) ].

End Samples.

(** ** The rest of [src/utils/helpers.js] *)

Module Helpers.

(** [String(n)] for an integer. *)
Definition Number_toString (n : Z) : jsstring :=
  js (NilZero.string_of_int (Z.to_int n)).

(** [getTimeAgo(date)] when [new Date()] reads [now]; [date] is [None]
    when the argument is falsy, else its time in milliseconds. *)
Definition getTimeAgo (now : Z) (date : option Z) : jsstring :=
  match date with
  | None => js "unknown"
  | Some date =>
      let diffInMs := now - date in
      let diffInMinutes := diffInMs / (1000 * 60) in
      let diffInHours := diffInMinutes / 60 in
      let diffInDays := diffInHours / 24 in
      if 0 <? diffInDays then Number_toString diffInDays ++ js "d ago"
      else if 0 <? diffInHours then Number_toString diffInHours ++ js "h ago"
      else if 0 <? diffInMinutes then Number_toString diffInMinutes ++ js "m ago"
      else js "just now"
  end.

(** [getTimeAgoShort(date)] *)
Definition getTimeAgoShort (now : Z) (date : option Z) : jsstring :=
  match date with
  | None => js "unknown"
  | Some date =>
      let diffInMs := now - date in
      let diffInMinutes := diffInMs / (1000 * 60) in
      let diffInHours := diffInMinutes / 60 in
      if 0 <? diffInHours then Number_toString diffInHours ++ js "h ago"
      else if 0 <? diffInMinutes then Number_toString diffInMinutes ++ js "m ago"
      else js "just now"
  end.

End Helpers.

(** ** The pollers of [src/services/priceFeeds.js] *)

Module Poller.
Import PriceFeeds.

(** [m.set(k, v)]: an existing key keeps its place, a new one goes last. *)
Fixpoint Map_set {V : Type} (k : jsstring) (v : V) (m : JsMap.t V) : JsMap.t V :=
  match m with
  | [] => [(k, v)]
  | (k', v') :: rest =>
      if decide (k' = k) then (k', v) :: rest else (k', v') :: Map_set k v rest
  end.

(** [data[symbol].USD] in the body of CryptoCompare. *)
Record RawQuote : Type := {
  PRICE : Q;
  CHANGEPCT24HOUR : Q;
  TOTALVOLUME24HTO : Q;
  MKTCAP : Q
}.

(** What the request to CryptoCompare settles to. *)
Inductive CompareResult : Type :=
| CompareResolved (raw : option (list (jsstring * option RawQuote)))
    (* [response.data.RAW] as the list of its properties in [Object.keys]
       order, each with its [USD] if it has one; [None] when
       [response.data] or [RAW] is falsy *)
| CompareRejected.

(** An element of [response.data.data] in the body of CoinCap. *)
Record Asset : Type := {
  id : jsstring;
  symbol : option jsstring;
  priceUsd : Q;
  changePercent24Hr : Q;
  volumeUsd24Hr : Q;
  marketCapUsd : Q
}.

Inductive CapResult : Type :=
| CapResolved (assets : option (list Asset))
    (* [None] when [response.data] or [response.data.data] is falsy *)
| CapRejected.

(** The requests a poll sends, in order. *)
Inductive Call : Type :=
| ToCryptoCompare
| ToCoinCap
| ToCoinGecko (ids : jsstring).

(** The clock, the timers and the three upstreams, over a state [W] of the
    world outside. *)
Class Sources (W : Type) : Type := {
  clock : W -> Z;
  sleep : Z -> W -> W;
  get_cryptocompare : W -> CompareResult * W;
  get_coincap : W -> CapResult * W;
  get_coingecko : jsstring -> W -> AxiosResult * W
}.

(** The entry [fetchCryptoComparePrices] stores for a symbol: [parseFloat]
    of each field of its [USD], and for [change24h] the text [toFixed(2)]
    gives of it. *)
Definition compare_record (now : Z) (coinData : RawQuote) : PriceRecord :=
  {| data := {| price := PRICE coinData;
                change24h := toFixed2 (CHANGEPCT24HOUR coinData);
                marketCap := Some (MKTCAP coinData);
                volume24h := Some (TOTALVOLUME24HTO coinData) |};
     timestamp := now;
     source := cryptocompare |}.

(** The [forEach] over [Object.keys(data)]: a property without [USD] makes
    the callback throw, which ends the loop with what is written so far. *)
Fixpoint write_raw (now : Z) (raw : list (jsstring * option RawQuote))
    (realtimePrices : JsMap.t PriceRecord) : Completion unit * JsMap.t PriceRecord :=
  match raw with
  | [] => (Return tt, realtimePrices)
  | (symbol, None) :: _ => (Throw TypeError, realtimePrices)
  | (symbol, Some coinData) :: rest =>
      write_raw now rest (Map_set symbol (compare_record now coinData) realtimePrices)
  end.

(** A [RAW] in which every property has its [USD]. *)
Definition all_quoted (quotes : list (jsstring * RawQuote))
  : list (jsstring * option RawQuote) :=
  map (fun e => (fst e, Some (snd e))) quotes.

Definition coincap_symbols : list jsstring :=
  [ js "bitcoin"; js "ethereum"; js "solana"; js "ripple"; js "hyperliquid";
    js "astar"; js "world-liberty-financial" ].

Definition coincap_symbolMap : gmap jsstring jsstring :=
  list_to_map
    [ (js "bitcoin", js "BTC"); (js "ethereum", js "ETH"); (js "solana", js "SOL");
      (js "ripple", js "XRP"); (js "hyperliquid", js "HYPE"); (js "astar", js "ASTER");
      (js "world-liberty-financial", js "WLFI") ].

(** The values of [symbolMap]. *)
Definition coincap_tickers : list jsstring :=
  [ js "BTC"; js "ETH"; js "SOL"; js "XRP"; js "HYPE"; js "ASTER"; js "WLFI" ].

(** [symbolMap[assetId] || asset.symbol?.toUpperCase()].  For an [assetId]
    that names a property objects inherit, the left operand is that
    property and not a string; such an [assetId] is not in [symbols], and
    the value is then not used. *)
Definition asset_symbol (asset : Asset) : option jsstring :=
  match coincap_symbolMap !! id asset with
  | Some ticker => Some ticker
  | None => toUpperCase <$> symbol asset
  end.

(** The entry [fetchCoinCapPrices] stores for an asset. *)
Definition cap_record (now : Z) (asset : Asset) : PriceRecord :=
  {| data := {| price := priceUsd asset;
                change24h := toFixed2 (changePercent24Hr asset);
                marketCap := Some (marketCapUsd asset);
                volume24h := Some (volumeUsd24Hr asset) |};
     timestamp := now;
     source := coincap |}.

(** The [assets.forEach] of [fetchCoinCapPrices]. *)
Fixpoint write_assets (now : Z) (assets : list Asset)
    (realtimePrices : JsMap.t PriceRecord) : JsMap.t PriceRecord :=
  match assets with
  | [] => realtimePrices
  | asset :: rest =>
      let assetId := id asset in
      match asset_symbol asset with
      | Some symbol =>
          if JsString.truthy symbol && bool_decide (assetId ∈ coincap_symbols)
          then write_assets now rest (Map_set symbol (cap_record now asset) realtimePrices)
          else write_assets now rest realtimePrices
      | None => write_assets now rest realtimePrices
      end
  end.

Definition fallback_symbols : list jsstring :=
  [ js "BTC"; js "ETH"; js "SOL"; js "XRP"; js "ADA"; js "DOT"; js "UNI";
    js "LINK"; js "AAVE" ].

Section WithSources.
Context {W : Type} {sources : Sources W}.
Variable cfg : Config.

(** [await getCryptoData(symbol)] against the world: one request, and what
    [getCryptoData] makes of its answer. *)
Definition awaitCryptoData (symbol : jsstring) (w : W)
  : Completion (option CryptoData) * W * list Call :=
  let ids := getCoinGeckoId symbol (SYMBOL_MAP cfg) in
  let '(answer, w1) := get_coingecko ids w in
  (getCryptoData cfg (fun _ => answer) symbol, w1, [ToCoinGecko ids]).

(** [fetchCryptoComparePrices]: whether it reports success, and the table
    it leaves. *)
Definition fetchCryptoComparePrices (realtimePrices : JsMap.t PriceRecord) (w : W)
  : bool * JsMap.t PriceRecord * W :=
  match get_cryptocompare w with
  | (CompareRejected, w1) => (false, realtimePrices, w1)
  | (CompareResolved None, w1) => (false, realtimePrices, w1)
  | (CompareResolved (Some raw), w1) =>
      match write_raw (clock w1) raw realtimePrices with
      | (Return _, written) => (true, written, w1)
      | (Throw _, written) => (false, written, w1)
      end
  end.

(** [fetchCoinCapPrices] *)
Definition fetchCoinCapPrices (realtimePrices : JsMap.t PriceRecord) (w : W)
  : bool * JsMap.t PriceRecord * W :=
  match get_coincap w with
  | (CapRejected, w1) => (false, realtimePrices, w1)
  | (CapResolved None, w1) => (false, realtimePrices, w1)
  | (CapResolved (Some assets), w1) =>
      (true, write_assets (clock w1) assets realtimePrices, w1)
  end.

(** The [for (const symbol of symbols)] loop of
    [fetchFromCoinGeckoFallback]. *)
Fixpoint fallback_loop (symbols : list jsstring)
    (realtimePrices : JsMap.t PriceRecord) (w : W)
  : JsMap.t PriceRecord * W * list Call :=
  match symbols with
  | [] => (realtimePrices, w, [])
  | symbol :: rest =>
      let '(fetched, w1, calls1) := awaitCryptoData symbol w in
      let '(written, w2) :=
        match fetched with
        | Return (Some data) =>
            (Map_set symbol
               {| PriceFeeds.data := data;
                  timestamp := clock w1;
                  source := coingecko_fallback |} realtimePrices,
             sleep 500 w1)
        | Return None => (realtimePrices, sleep 500 w1)
        | Throw _ => (realtimePrices, w1)
        end in
      let '(final, w3, calls2) := fallback_loop rest written w2 in
      (final, w3, calls1 ++ calls2)
  end.

Definition fetchFromCoinGeckoFallback (realtimePrices : JsMap.t PriceRecord) (w : W)
  : JsMap.t PriceRecord * W * list Call :=
  fallback_loop fallback_symbols realtimePrices w.

(** [fetchRealtimePrices]: the table it leaves and the requests it sent. *)
Definition fetchRealtimePrices (realtimePrices : JsMap.t PriceRecord) (w : W)
  : JsMap.t PriceRecord * W * list Call :=
  let '(success1, table1, w1) := fetchCryptoComparePrices realtimePrices w in
  if success1 then (table1, w1, [ToCryptoCompare])
  else
    let '(success2, table2, w2) := fetchCoinCapPrices table1 w1 in
    if success2 then (table2, w2, [ToCryptoCompare; ToCoinCap])
    else
      let '(table3, w3, calls) := fetchFromCoinGeckoFallback table2 w2 in
      (table3, w3, ToCryptoCompare :: ToCoinCap :: calls).

End WithSources.

End Poller.

(** ** The alert commands of [registerCommands] *)

Module Commands.
Import Alerts.

(** A JavaScript object keyed by chat ids, as the list of its properties in
    [for...in] order: the array indices (the integers from 0 to 2^32 - 2) in
    ascending order, then the other keys in the order of their creation. *)
Definition is_index (k : Z) : bool := (0 <=? k) && (k <? 4294967295).

(** [k] is enumerated before [k'] when [k] is created. *)
Definition goes_before (k k' : Z) : bool :=
  is_index k && (negb (is_index k') || (k <? k')).

Fixpoint lookup_prop {V : Type} (k : Z) (o : list (Z * V)) : option V :=
  match o with
  | [] => None
  | (k', v) :: rest => if decide (k' = k) then Some v else lookup_prop k rest
  end.

(** [o[k] = v] *)
Fixpoint set_prop {V : Type} (k : Z) (v : V) (o : list (Z * V)) : list (Z * V) :=
  match o with
  | [] => [(k, v)]
  | (k', v') :: rest =>
      if decide (k' = k) then (k', v) :: rest
      else if goes_before k k' then (k, v) :: (k', v') :: rest
      else (k', v') :: set_prop k v rest
  end.

(** [delete o[k]] *)
Fixpoint delete_prop {V : Type} (k : Z) (o : list (Z * V)) : list (Z * V) :=
  match o with
  | [] => []
  | (k', v') :: rest =>
      if decide (k' = k) then delete_prop k rest else (k', v') :: delete_prop k rest
  end.

(** The order [for...in] follows. *)
Fixpoint enumerable (keys : list Z) : Prop :=
  match keys with
  | [] => True
  | k :: rest =>
      Forall (fun k' => k <> k' /\ (is_index k' = true -> goes_before k k' = true)) rest
      /\ enumerable rest
  end.

(** What the handlers say; the texts are left out. *)
Inductive Reply : Type :=
| InvalidPrice
| Verifying
| UnknownSymbol (symbol : jsstring)
| AlertSet (symbol : jsstring) (currentPrice targetPrice : Q) (above : bool)
| SetupError
| Cleared (alertCount : nat)
| NothingToClear
| AutoDisabled
| AutoEnabled (tracked : nat).

(** [bot.sendMessage] and [bot.editMessageText] of the handlers: [true] when
    the promise resolves. *)
Record Ui (W : Type) : Type := {
  say : Z -> Reply -> W -> bool * W
}.
Arguments say {W} _ _ _ _.

Section Handlers.
Context {W : Type} {sources : Poller.Sources W}.
Variable cfg : Config.
Variable ui : Ui W.

(** The [/alert] handler.  [match1] is [match[1]], [targetPrice] is
    [parseFloat(match[2])] with [None] for [NaN], and [alertId] is the
    rendered template of the identifier.  It returns the alerts it leaves,
    the requests it sent and what it said. *)
Definition alertCommand (chatId : Z) (match1 : jsstring) (targetPrice : option Q)
    (alertId : jsstring) (priceAlerts : list (Z * list Alert.t)) (w : W)
  : list (Z * list Alert.t) * W * list Poller.Call * list Reply :=
  let symbol := toUpperCase match1 in
  match targetPrice with
  | None => (priceAlerts, snd (say ui chatId InvalidPrice w), [], [InvalidPrice])
  | Some targetPrice =>
      match say ui chatId Verifying w with
      | (false, w1) => (priceAlerts, w1, [], [Verifying])
      | (true, w1) =>
          match Poller.awaitCryptoData cfg symbol w1 with
          | (Return (Some cryptoData), w2, calls) =>
              let alerts :=
                match lookup_prop chatId priceAlerts with
                | Some alerts => alerts
                | None => []
                end in
              let pushed :=
                alerts ++ [ {| Alert.symbol := symbol;
                               Alert.targetPrice := targetPrice;
                               Alert.currentPrice := PriceFeeds.price cryptoData;
                               Alert.timestamp := Poller.clock w2;
                               Alert.alertId := alertId;
                               Alert.status := active;
                               Alert.triggerTime := None;
                               Alert.triggerPrice := None |} ] in
              let set :=
                AlertSet symbol (PriceFeeds.price cryptoData) targetPrice
                  (Qltb (PriceFeeds.price cryptoData) targetPrice) in
              (set_prop chatId pushed priceAlerts, snd (say ui chatId set w2),
               calls, [Verifying; set])
          | (Return None, w2, calls) =>
              (priceAlerts, snd (say ui chatId (UnknownSymbol symbol) w2), calls,
               [Verifying; UnknownSymbol symbol])
          | (Throw _, w2, calls) =>
              (priceAlerts, snd (say ui chatId SetupError w2), calls,
               [Verifying; SetupError])
          end
      end
  end.

(** The [/clearalerts] handler. *)
Definition clearAlertsCommand (chatId : Z) (priceAlerts : list (Z * list Alert.t))
    (w : W) : list (Z * list Alert.t) * W * list Reply :=
  match lookup_prop chatId priceAlerts with
  | Some alerts =>
      (delete_prop chatId priceAlerts,
       snd (say ui chatId (Cleared (length alerts)) w),
       [Cleared (length alerts)])
  | None =>
      (priceAlerts, snd (say ui chatId NothingToClear w), [NothingToClear])
  end.

(** The [/autoalerts] handler. *)
Definition autoAlertsCommand (chatId : Z)
    (realtimePrices : JsMap.t PriceFeeds.PriceRecord) (aa : AutoAlerts) (w : W)
  : AutoAlerts * W * list Reply :=
  let turn flag :=
    {| enabled := set_prop chatId flag (enabled aa);
       baselines := baselines aa;
       cooldown := cooldown aa;
       threshold := threshold aa |} in
  match lookup_prop chatId (enabled aa) with
  | Some true => (turn false, snd (say ui chatId AutoDisabled w), [AutoDisabled])
  | _ =>
      let tracked := length (JsMap.keys realtimePrices) in
      (turn true, snd (say ui chatId (AutoEnabled tracked) w), [AutoEnabled tracked])
  end.

End Handlers.

(** The chats a broadcast goes to. *)
Definition recipients (enabled : list (Z * bool)) : list Z :=
  map fst (filter (fun e => snd e = true) enabled).

End Commands.

(** ** The timer of [startAlertMonitoring]

    [setInterval] starts a run of [checkAlerts] at every interval, whether or
    not the one before has ended.  A run is suspended at each of its
    [await]s and goes on when what it awaits has settled; between two
    [await]s it runs with nothing in between.  A call that is awaited acts
    on the world when it settles.  Here the runs are the only code that
    touches the state of [alerts.js]; each is given the realtime table at
    its start. *)

Module Timer.
Import Alerts.

(** What a run awaits, with the type of what it gets back. *)
Inductive Op : Type -> Type :=
| SendMessage (chatId : Z) (message : Message) : Op bool
    (* [bot.sendMessage]; [false] when it rejects *)
| Sleep (ms : Z) : Op unit
    (* [new Promise(resolve => setTimeout(resolve, ms))] *)
| GetCachedCryptoData (symbol : jsstring) (forceRefresh : bool)
    : Op (Completion (option PriceFeeds.Answer))
| MarketContext (symbol : jsstring) : Op unit.
    (* the [axios.get] of [generateAlertAnalysis], whose failure is caught *)

(** What is left of a run: reads and writes of the module state, readings
    of the clock, and [await]s. *)
Inductive Prog : Type :=
| Done
| Get (k : State -> Prog)
| Put (st : State) (k : Prog)
| Now (k : Z -> Prog)
| Await {A : Type} (op : Op A) (k : A -> Prog).

Definition with_autoAlerts (st : State) (aa : AutoAlerts) : State :=
  {| priceAlerts := priceAlerts st; autoAlerts := aa |}.

(** [priceAlerts[chatId] = alerts], for a chat that has alerts. *)
Fixpoint set_alerts (chatId : Z) (alerts : list Alert.t)
    (priceAlerts : list (Z * list Alert.t)) : list (Z * list Alert.t) :=
  match priceAlerts with
  | [] => []
  | (chatId', alerts') :: rest =>
      if decide (chatId' = chatId) then (chatId', alerts) :: rest
      else (chatId', alerts') :: set_alerts chatId alerts rest
  end.

(** A write to the alert object [priceAlerts[chatId][ref]]. *)
Definition write_alert (chatId : Z) (ref : nat) (alert : Alert.t) (st : State)
  : State :=
  match alerts_of chatId (priceAlerts st) with
  | Some alerts =>
      {| priceAlerts := set_alerts chatId (<[ref := alert]> alerts) (priceAlerts st);
         autoAlerts := autoAlerts st |}
  | None => st
  end.

Definition pause (ms : Z) (next : Prog) : Prog := Await (Sleep ms) (fun _ => next).

(** The [for (const chatId in autoAlerts.enabled)] loop over the keys the
    object has when the loop starts; the flag and [baseline.lastAlertPrice]
    are read when the chat is reached. *)
Fixpoint broadcast (chatIds : list Z) (symbol : jsstring) (direction : Direction)
    (priceChangePercent : Percent) (currentPrice : Q) (next : Prog) : Prog :=
  match chatIds with
  | [] => next
  | chatId :: rest =>
      Get (fun st =>
        let onward :=
          broadcast rest symbol direction priceChangePercent currentPrice next in
        match Commands.lookup_prop chatId (enabled (autoAlerts st)),
              baselines (autoAlerts st) !! symbol with
        | Some true, Some baseline =>
            let message :=
              VolatilityAlert symbol direction priceChangePercent currentPrice
                (Baseline.lastAlertPrice baseline) in
            Await (SendMessage chatId message) (fun _ => onward)
        | _, _ => onward
        end)
  end.

(** The body of the loop of [checkAutoVolatilityAlerts]; [baseline] is the
    object under [autoAlerts.baselines[symbol]], which is written when the
    broadcast is over. *)
Definition checkSymbol (realtimePrices : JsMap.t PriceFeeds.PriceRecord)
    (symbol : jsstring) (next : Prog) : Prog :=
  match JsMap.get symbol realtimePrices with
  | None => next
  | Some currentData =>
      let currentPrice := PriceFeeds.price (PriceFeeds.data currentData) in
      Now (fun now =>
      Get (fun st =>
        let aa := autoAlerts st in
        match baselines aa !! symbol with
        | None =>
            Put (with_autoAlerts st
                   (set_baseline aa symbol
                      {| Baseline.price := currentPrice;
                         Baseline.timestamp := now;
                         Baseline.lastAlertPrice := currentPrice;
                         Baseline.lastAlertTime := 0 |}))
              next
        | Some baseline =>
            let priceChangePercent :=
              percent_change currentPrice (Baseline.lastAlertPrice baseline) in
            if abs_at_least priceChangePercent (threshold aa)
               && (cooldown aa <? now - Baseline.lastAlertTime baseline)
            then
              let direction := if positive priceChangePercent then UP else DOWN in
              broadcast (map fst (enabled aa)) symbol direction priceChangePercent
                currentPrice
                (Get (fun st' =>
                   let aa' := autoAlerts st' in
                   match baselines aa' !! symbol with
                   | Some baseline' =>
                       Put (with_autoAlerts st'
                              (set_baseline aa' symbol
                                 (rebase baseline' currentPrice now)))
                         (pause 200 next)
                   | None => pause 200 next
                   end))
            else pause 200 next
        end))
  end.

Fixpoint volatility_loop (trackedSymbols : list jsstring)
    (realtimePrices : JsMap.t PriceFeeds.PriceRecord) (next : Prog) : Prog :=
  match trackedSymbols with
  | [] => next
  | symbol :: rest =>
      checkSymbol realtimePrices symbol (volatility_loop rest realtimePrices next)
  end.

(** The body of the inner loop of [checkAlerts] for the alert object at
    [priceAlerts[chatId][ref]].  The object is read again after each
    [await]; its [status] is not. *)
Definition checkAlert (chatId : Z) (ref : nat) (last : bool) (next : Prog) : Prog :=
  Get (fun st =>
    match alert_at chatId ref (priceAlerts st) with
    | None => next
    | Some alert =>
        Await (GetCachedCryptoData (Alert.symbol alert) true) (fun answer =>
          match answer with
          | Return (Some currentData) =>
              Get (fun st1 =>
                match alert_at chatId ref (priceAlerts st1) with
                | None => next
                | Some alert1 =>
                    let currentPrice := PriceFeeds.answer_price currentData in
                    let originalPrice := Alert.currentPrice alert1 in
                    if shouldTrigger alert1 currentPrice then
                      Now (fun now =>
                      Put (write_alert chatId ref (trigger alert1 now currentPrice) st1)
                        (let trend :=
                           if Qltb originalPrice (Alert.targetPrice alert1)
                           then upward else downward in
                         Await (MarketContext (Alert.symbol alert1)) (fun _ =>
                         Get (fun st2 =>
                           match alert_at chatId ref (priceAlerts st2) with
                           | None => next
                           | Some alert2 =>
                               Await (SendMessage chatId (TargetHit alert2 trend))
                                 (fun ok =>
                                    if ok then
                                      if last then next else pause 1000 next
                                    else next)
                           end))))
                    else if last then next else pause 1000 next
                end)
          | Return None => next
          | Throw _ => next
          end)
    end).

(** The [for (const alert of userAlerts)] loop. *)
Fixpoint alerts_loop (chatId : Z) (userAlerts : list nat) (next : Prog) : Prog :=
  match userAlerts with
  | [] => next
  | ref :: rest =>
      checkAlert chatId ref (match rest with [] => true | _ => false end)
        (alerts_loop chatId rest next)
  end.

(** The [for (const chatId in priceAlerts)] loop over the keys the object
    has when the loop starts; [userAlerts] is filtered when the chat is
    reached. *)
Fixpoint chats_loop (chatIds : list Z) (next : Prog) : Prog :=
  match chatIds with
  | [] => next
  | chatId :: rest =>
      Get (fun st =>
        match alerts_of chatId (priceAlerts st) with
        | Some alerts =>
            alerts_loop chatId (active_slots 0 alerts) (chats_loop rest next)
        | None => chats_loop rest next
        end)
  end.

(** [checkAlerts(bot, getCachedCryptoData, realtimePrices)] *)
Definition checkAlerts (realtimePrices : JsMap.t PriceFeeds.PriceRecord) : Prog :=
  volatility_loop (JsMap.keys realtimePrices) realtimePrices
    (Get (fun st => chats_loop (map fst (priceAlerts st)) Done)).

Section Loop.
Context {W : Type} {host : Host W}.
Variable bot : Bot W.
Variable getCachedCryptoData : Resolver W.

(** What is awaited settles against the world. *)
Definition perform {A : Type} (op : Op A) (w : W) : A * W :=
  match op in Op T return T * W with
  | SendMessage chatId message => sendMessage bot chatId message w
  | Sleep ms => (tt, setTimeout ms w)
  | GetCachedCryptoData symbol forceRefresh =>
      getCachedCryptoData symbol forceRefresh w
  | MarketContext symbol => (tt, marketContext symbol w)
  end.

(** The call of [bot.sendMessage] that has settled, if it was one. *)
Definition report {A : Type} (op : Op A) : A -> list Sent :=
  match op in Op T return T -> list Sent with
  | SendMessage chatId message =>
      fun ok => [{| to := chatId; notice := message; delivered := ok |}]
  | _ => fun _ => []
  end.

(** A run goes on until its next [await]. *)
Fixpoint advance (p : Prog) (st : State) (w : W) : State * Prog :=
  match p with
  | Done => (st, Done)
  | Get k => advance (k st) st w
  | Put st' k => advance k st' w
  | Now k => advance (k (Date_now w)) st w
  | Await op k => (st, Await op k)
  end.

(** The state of [alerts.js], the world, the runs started so far and the
    calls of [bot.sendMessage] that have settled. *)
Record Machine : Type := {
  shared : State;
  outside : W;
  runs : list Prog;
  sent : list Sent
}.

Inductive Event : Type :=
| Fires (realtimePrices : JsMap.t PriceFeeds.PriceRecord)
    (* the interval has elapsed: the callback starts a run *)
| Settles (run : nat)
    (* what the run of that number awaits has settled *)
| Passes (elapse : W -> W).
    (* the world moves on *)

Definition step (m : Machine) (e : Event) : Machine :=
  match e with
  | Fires realtimePrices =>
      let '(st, p) := advance (checkAlerts realtimePrices) (shared m) (outside m) in
      {| shared := st; outside := outside m; runs := runs m ++ [p]; sent := sent m |}
  | Settles run =>
      match runs m !! run with
      | Some (Await op k) =>
          let '(a, w) := perform op (outside m) in
          let '(st, p) := advance (k a) (shared m) w in
          {| shared := st; outside := w; runs := <[run := p]> (runs m);
             sent := sent m ++ report op a |}
      | _ => m
      end
  | Passes elapse =>
      {| shared := shared m; outside := elapse (outside m); runs := runs m;
         sent := sent m |}
  end.

Definition exec (events : list Event) (m : Machine) : Machine :=
  fold_left step events m.

(** A run that nothing interrupts: each thing it awaits settles before
    anything else happens. *)
Fixpoint in_turn (p : Prog) (st : State) (w : W) : State * W * list Sent :=
  match p with
  | Done => (st, w, [])
  | Get k => in_turn (k st) st w
  | Put st' k => in_turn k st' w
  | Now k => in_turn (k (Date_now w)) st w
  | Await op k =>
      let '(a, w1) := perform op w in
      let '(st', w2, log) := in_turn (k a) st w1 in
      (st', w2, report op a ++ log)
  end.

End Loop.

End Timer.

(** ** More sample states *)

Module MoreSamples.
Import PriceFeeds Samples.

(** CoinGecko knows bitcoin at 51000, up 1.005 percent, and nothing else. *)
Definition bitcoin_entry : CoinEntry :=
  {| usd := 51000; usd_24h_change := Some 1.005%Q;
     usd_market_cap := Some 1000000%Q; usd_24h_vol := None |}.

Definition knows_bitcoin : Upstream :=
  fun _ => Resolved (Some {[ js "bitcoin" := bitcoin_entry ]}).

(** BTC was cached one minute before [t0]. *)
Definition warm_btc : PriceRecord :=
  {| data := quote 50500; timestamp := t0 - 60000; source := coingecko |}.

Definition warm_cache : Store :=
  {| realtimePrices := [];
     priceCache := {[ js "btc" := warm_btc ]};
     lastRateLimitTime := 0 |}.

(** A world for the pollers and the commands: a clock and what each
    upstream answers. *)
Record Net : Type := {
  at_ : Z;
  compare_answer : Poller.CompareResult;
  cap_answer : Poller.CapResult;
  gecko_answer : Upstream
}.

#[export] Instance net_sources : Poller.Sources Net :=
  {| Poller.clock := at_;
     Poller.sleep := fun ms w =>
       {| at_ := at_ w + ms; compare_answer := compare_answer w;
          cap_answer := cap_answer w; gecko_answer := gecko_answer w |};
     Poller.get_cryptocompare := fun w => (compare_answer w, w);
     Poller.get_coincap := fun w => (cap_answer w, w);
     Poller.get_coingecko := fun ids w => (gecko_answer w ids, w) |}.

Definition raw_quote (p : Q) : Poller.RawQuote :=
  {| Poller.PRICE := p; Poller.CHANGEPCT24HOUR := -0.125;
     Poller.TOTALVOLUME24HTO := 1000; Poller.MKTCAP := 100000 |}.

(** CryptoCompare quotes BTC and ETH. *)
Definition two_quotes : list (jsstring * Poller.RawQuote) :=
  [ (js "BTC", raw_quote 50200); (js "ETH", raw_quote 3000) ].

(** CryptoCompare answers with the two quotes at [t0]; the other upstreams
    are down. *)
Definition compare_up : Net :=
  {| at_ := t0;
     compare_answer :=
       Poller.CompareResolved (Some (Poller.all_quoted two_quotes));
     cap_answer := Poller.CapRejected;
     gecko_answer := rate_limiting |}.

(** The body of CryptoCompare has BTC, then SOL without [USD], then ETH. *)
Definition compare_broken : Net :=
  {| at_ := t0;
     compare_answer :=
       Poller.CompareResolved
         (Some [ (js "BTC", Some (raw_quote 50200)); (js "SOL", None);
                 (js "ETH", Some (raw_quote 3000)) ]);
     cap_answer := Poller.CapRejected;
     gecko_answer := rate_limiting |}.

(** Both batch upstreams are down; CoinGecko knows bitcoin. *)
Definition batches_down : Net :=
  {| at_ := t0;
     compare_answer := Poller.CompareRejected;
     cap_answer := Poller.CapResolved None;
     gecko_answer := knows_bitcoin |}.

(** A chat window in which every message gets through. *)
Definition talking {W : Type} : Commands.Ui W :=
  {| Commands.say := fun _ _ w => (true, w) |}.

(** CoinGecko knows bitcoin; the batch upstreams do not matter. *)
Definition gecko_up : Net :=
  {| at_ := t0; compare_answer := Poller.CompareRejected;
     cap_answer := Poller.CapRejected; gecko_answer := knows_bitcoin |}.

(** Chats 7 and 42 and the group -100 hold alerts. *)
Definition three_chats : list (Z * list Alerts.Alert.t) :=
  [ (7, [btc_to_50100]); (42, [btc_to_60000]); (-100, [btc_to_50000]) ].

(** A resolver that has no data for any symbol. *)
Definition silent : Alerts.Resolver Z := fun _ _ w => (Return None, w).

(** The machine of the timer before the first run, at [t0]. *)
Definition at_rest (st : Alerts.State) : @Timer.Machine Z :=
  {| Timer.shared := st; Timer.outside := t0; Timer.runs := []; Timer.sent := [] |}.

(** The timer fires 30 and 60 seconds after [t0].  The price the first run
    has asked for comes after 61 seconds, when the second run has started
    and waits for its own; the first run then goes to its end, and one
    second later so does the second. *)
Definition slow_lookup : list (@Timer.Event Z) :=
  [ Timer.Passes (to_the_clock (t0 + 30000)); Timer.Fires [];
    Timer.Passes (to_the_clock (t0 + 60000)); Timer.Fires [];
    Timer.Passes (to_the_clock (t0 + 61000));
    Timer.Settles 0; Timer.Settles 0; Timer.Settles 0;
    Timer.Passes (to_the_clock (t0 + 62000));
    Timer.Settles 1; Timer.Settles 1; Timer.Settles 1 ].

(** The same two runs when the first has ended, after one second, before
    the timer fires again. *)
Definition prompt_lookup : list (@Timer.Event Z) :=
  [ Timer.Passes (to_the_clock (t0 + 30000)); Timer.Fires [];
    Timer.Passes (to_the_clock (t0 + 31000));
    Timer.Settles 0; Timer.Settles 0; Timer.Settles 0;
    Timer.Passes (to_the_clock (t0 + 60000)); Timer.Fires [];
    Timer.Passes (to_the_clock (t0 + 61000));
    Timer.Settles 1; Timer.Settles 1; Timer.Settles 1 ].

(** CoinCap lists hyperliquid, under a symbol of its own, and a coin that
    is not one of the seven. *)
Definition hyperliquid : Poller.Asset :=
  {| Poller.id := js "hyperliquid"; Poller.symbol := Some (js "hl");
     Poller.priceUsd := 40.5; Poller.changePercent24Hr := 2.345;
     Poller.volumeUsd24Hr := 5000; Poller.marketCapUsd := 900000 |}.

Definition dogecoin : Poller.Asset :=
  {| Poller.id := js "dogecoin"; Poller.symbol := Some (js "DOGE");
     Poller.priceUsd := 0.1; Poller.changePercent24Hr := 1;
     Poller.volumeUsd24Hr := 7000; Poller.marketCapUsd := 800000 |}.

Definition cap_up : Net :=
  {| at_ := t0; compare_answer := Poller.CompareRejected;
     cap_answer := Poller.CapResolved (Some [dogecoin; hyperliquid]);
     gecko_answer := rate_limiting |}.

End MoreSamples.

(** * Theorems *)

(** ** Rational comparisons *)

Lemma Qleb_le x y : Qleb x y = true <-> (x <= y)%Q.
Proof. apply Qle_bool_iff. Qed.

Lemma Qltb_lt x y : Qltb x y = true <-> (x < y)%Q.
Proof.
  unfold Qltb. rewrite negb_true_iff. split.
  - intros H. apply Qnot_le_lt. intros Hle. apply Qle_bool_iff in Hle. congruence.
  - intros H. destruct (Qle_bool y x) eqn:E; [|reflexivity].
    apply Qle_bool_iff in E. exfalso. exact (Qlt_not_le _ _ H E).
Qed.

(** ** Numbers *)

(** [toFixed(2)] reads the Number, not the numeral: 1.005 is the Number
    just below it and gives [1.00], 2.345 is the one just above and gives
    [2.35]; of two nearest it takes the larger magnitude (0.125 gives
    [0.13]), and the sign stays when the digits are zeros. *)
Example toFixed2_cases :
  map PriceFeeds.toFixed2
    [1.005; 2.345; 0.125; -0.125; -0.001; 0; 1.5; 12.3; 1234.5678; -7]%Q
  = [js "1.00"; js "2.35"; js "0.13"; js "-0.13"; js "-0.00"; js "0.00";
     js "1.50"; js "12.30"; js "1234.57"; js "-7.00"].
Proof. vm_compute. reflexivity. Qed.

(** The percent change is computed operation by operation.  From 1.1 to
    1.133 it comes out as 2.9999999999999925, below a threshold of 3; from
    57779.57 to 59512.9571 as 3; from 100 to 103.5 as 3.5000000000000004.
    Against a reference price of zero it is an infinity, which is at least
    any threshold, or [NaN], which is not. *)
Example percent_change_cases :
  Alerts.percent_change 1.133 1.1
  = SpecFloat.S754_finite false 6755399441055727 (-51)
  /\ Alerts.abs_at_least (Alerts.percent_change 1.133 1.1) 3 = false
  /\ Alerts.percent_change 59512.9571 57779.57
     = SpecFloat.S754_finite false 6755399441055744 (-51)
  /\ Alerts.percent_change 59512.9571 57779.57 = Float64.of_Q 3
  /\ Alerts.abs_at_least (Alerts.percent_change 59512.9571 57779.57) 3 = true
  /\ Alerts.percent_change 103.5 100
     = SpecFloat.S754_finite false 7881299347898369 (-51)
  /\ Alerts.percent_change 97 100
     = SpecFloat.S754_finite true 6755399441055744 (-51)
  /\ Alerts.abs_at_least (Alerts.percent_change 97 100) 3 = true
  /\ Alerts.positive (Alerts.percent_change 97 100) = false
  /\ Alerts.percent_change 5 0 = SpecFloat.S754_infinity false
  /\ Alerts.abs_at_least (Alerts.percent_change 5 0) 3 = true
  /\ Alerts.percent_change 0 0 = SpecFloat.S754_nan
  /\ Alerts.abs_at_least (Alerts.percent_change 0 0) 3 = false.
Proof. vm_compute. repeat split. Qed.

(** ** Case mapping on Basic Latin *)

Section CaseMapping.
Import JsString.

Ltac unit_cases :=
  unfold upper_unit, lower_unit, in_range; intros;
  repeat (cbn [flat_map andb app];
          match goal with
          | |- context [(?a <=? ?b)%N] => destruct (N.leb_spec a b); try lia
          | |- context [(?a =? ?b)%N] => destruct (N.eqb_spec a b); try lia
          end);
  cbn [flat_map andb app]; try reflexivity; f_equal; lia.

Lemma lower_upper_unit c :
  (c < 128)%N -> flat_map lower_unit (upper_unit c) = lower_unit c.
Proof. unit_cases. Qed.

Lemma upper_lower_unit c :
  (c < 128)%N -> flat_map upper_unit (lower_unit c) = upper_unit c.
Proof. unit_cases. Qed.

Lemma upper_upper_unit c :
  (c < 128)%N -> flat_map upper_unit (upper_unit c) = upper_unit c.
Proof. unit_cases. Qed.

Lemma lower_lower_unit c :
  (c < 128)%N -> flat_map lower_unit (lower_unit c) = lower_unit c.
Proof. unit_cases. Qed.

Lemma flat_map_units (f g h : N -> list N) (s : t) :
  (forall c, (c < 128)%N -> flat_map f (g c) = h c) ->
  is_ascii s -> flat_map f (flat_map g s) = flat_map h s.
Proof.
  intros Hunit Hs. induction Hs as [|c s Hc _ IH]; [reflexivity|].
  cbn [flat_map]. rewrite flat_map_app, IH, Hunit by assumption. reflexivity.
Qed.

Lemma toLowerCase_toUpperCase s :
  is_ascii s -> toLowerCase (toUpperCase s) = toLowerCase s.
Proof. apply flat_map_units, lower_upper_unit. Qed.

Lemma toUpperCase_toLowerCase s :
  is_ascii s -> toUpperCase (toLowerCase s) = toUpperCase s.
Proof. apply flat_map_units, upper_lower_unit. Qed.

Lemma toUpperCase_idem s :
  is_ascii s -> toUpperCase (toUpperCase s) = toUpperCase s.
Proof. apply flat_map_units, upper_upper_unit. Qed.

Lemma toLowerCase_idem s :
  is_ascii s -> toLowerCase (toLowerCase s) = toLowerCase s.
Proof. apply flat_map_units, lower_lower_unit. Qed.

End CaseMapping.

(** ** The upstream id of a symbol *)

Lemma getCoinGeckoId_toUpperCase s m :
  JsString.is_ascii s -> getCoinGeckoId (toUpperCase s) m = getCoinGeckoId s m.
Proof.
  intros Hs. unfold getCoinGeckoId.
  now rewrite toUpperCase_idem, toLowerCase_toUpperCase.
Qed.

Lemma getCoinGeckoId_toLowerCase s m :
  JsString.is_ascii s -> getCoinGeckoId (toLowerCase s) m = getCoinGeckoId s m.
Proof.
  intros Hs. unfold getCoinGeckoId.
  now rewrite toUpperCase_toLowerCase, toLowerCase_idem.
Qed.

(** ** The cached price resolver *)

Section Resolver.
Import PriceFeeds Samples.

Variable cfg : Config.
Variable net : Upstream.

(** Whatever the upstream does, [getCryptoData] returns. *)
Lemma getCryptoData_returns symbol :
  exists r, getCryptoData cfg net symbol = Return r.
Proof.
  unfold getCryptoData, getCryptoData_try, try_catch, bind.
  destruct (net _) as [[body|]|status]; [destruct (body !! _)|..]; eauto.
Qed.

(** A rejected request is turned into [null]. *)
Lemma getCryptoData_rejected symbol status :
  net (getCoinGeckoId symbol (SYMBOL_MAP cfg)) = Rejected status ->
  getCryptoData cfg net symbol = Return None.
Proof.
  intros H. unfold getCryptoData, getCryptoData_try, try_catch, bind.
  now rewrite H.
Qed.

(** So is a body that is not an object. *)
Lemma getCryptoData_malformed symbol :
  net (getCoinGeckoId symbol (SYMBOL_MAP cfg)) = Resolved None ->
  getCryptoData cfg net symbol = Return None.
Proof.
  intros H. unfold getCryptoData, getCryptoData_try, try_catch, bind.
  now rewrite H.
Qed.

(** Hence the cold fetch never enters its [catch] block: it sends one
    request and returns. *)
Lemma cold_fetch_returns now st symbol cacheKey symbolUpper :
  exists a, completion (cold_fetch cfg net now st symbol cacheKey symbolUpper)
            = Return a.
Proof.
  unfold cold_fetch.
  destruct (getCryptoData_returns symbol) as [[d|] ->]; cbn; eauto.
Qed.

Lemma cold_fetch_rejected now st symbol cacheKey symbolUpper status :
  net (getCoinGeckoId symbol (SYMBOL_MAP cfg)) = Rejected status ->
  cold_fetch cfg net now st symbol cacheKey symbolUpper
  = {| completion := Return None;
       store := st;
       requests := [getCoinGeckoId symbol (SYMBOL_MAP cfg)] |}.
Proof.
  intros H. unfold cold_fetch. now rewrite (getCryptoData_rejected _ _ H).
Qed.

(** What the [catch] block would do with a 429, were one to reach it: arm
    the gate, and answer from the cache, else from the realtime table. *)
Lemma on_fetch_error_429 now st cacheKey symbolUpper :
  let '(c, st') :=
    on_fetch_error now st cacheKey symbolUpper (AxiosError (Some 429)) in
  lastRateLimitTime st' = now
  /\ c = match priceCache st !! cacheKey with
         | Some cached => Return (Some (Stamped cached))
         | None =>
             match JsMap.get symbolUpper (realtimePrices st) with
             | Some realtimeData => Return (Some (Stamped realtimeData))
             | None => Throw (AxiosError (Some 429))
             end
         end.
Proof.
  unfold on_fetch_error. cbn.
  destruct (priceCache st !! cacheKey);
    [|destruct (JsMap.get symbolUpper (realtimePrices st))]; cbn; auto.
Qed.

(** The resolver itself never throws. *)
Lemma getCachedCryptoData_returns now st symbol forceRefresh :
  exists a, completion (getCachedCryptoData cfg net now st symbol forceRefresh)
            = Return a.
Proof.
  unfold getCachedCryptoData.
  repeat match goal with
         | |- context [match ?x with _ => _ end] => destruct x; cbn; eauto
         end; apply cold_fetch_returns.
Qed.

(** And it never writes [lastRateLimitTime]: the only assignment is in the
    [catch] block. *)
Lemma lastRateLimitTime_kept now st symbol forceRefresh :
  lastRateLimitTime
    (store (getCachedCryptoData cfg net now st symbol forceRefresh))
  = lastRateLimitTime st.
Proof.
  unfold getCachedCryptoData.
  repeat match goal with
         | |- context [match ?x with _ => _ end] => destruct x; cbn; auto
         end.
  all: unfold cold_fetch;
    destruct (getCryptoData_returns symbol) as [[d|] ->]; reflexivity.
Qed.

(** C5. A realtime entry younger than the freshness window is returned at
    once: whatever the cache, the backoff state and [forceRefresh], the call
    leaves the state as it was and sends no request upstream. *)
Theorem fresh_realtime_wins now st symbol forceRefresh realtimeData :
  JsMap.get (toUpperCase symbol) (realtimePrices st) = Some realtimeData ->
  now - timestamp realtimeData < PRICE_FRESHNESS_WINDOW cfg ->
  getCachedCryptoData cfg net now st symbol forceRefresh
  = {| completion := Return (Some (Stamped realtimeData));
       store := st;
       requests := [] |}.
Proof.
  intros Hget Hfresh. unfold getCachedCryptoData. rewrite Hget.
  apply Z.ltb_lt in Hfresh. now rewrite Hfresh.
Qed.

(** C6. While [now - lastRateLimitTime < RATE_LIMIT_BACKOFF] the resolver
    sends no request upstream and changes nothing, for every symbol and
    either value of [forceRefresh]; unless a fresh realtime entry answers
    first, it returns the cache entry of the symbol whatever its age, else
    the realtime entry whatever its age, else [null]. *)
Theorem backoff_gate_holds now st symbol forceRefresh :
  now - lastRateLimitTime st < RATE_LIMIT_BACKOFF cfg ->
  let out := getCachedCryptoData cfg net now st symbol forceRefresh in
  requests out = []
  /\ store out = st
  /\ ((forall realtimeData,
          JsMap.get (toUpperCase symbol) (realtimePrices st) = Some realtimeData ->
          PRICE_FRESHNESS_WINDOW cfg <= now - timestamp realtimeData) ->
      completion out
      = Return match priceCache st !! toLowerCase symbol with
               | Some cached => Some (Stamped cached)
               | None =>
                   match JsMap.get (toUpperCase symbol) (realtimePrices st) with
                   | Some realtimeData => Some (Stamped realtimeData)
                   | None => None
                   end
               end).
Proof.
  intros Hgate. apply Z.ltb_lt in Hgate. unfold getCachedCryptoData.
  destruct (JsMap.get (toUpperCase symbol) (realtimePrices st)) as [r|] eqn:Hrt.
  - destruct (now - timestamp r <? PRICE_FRESHNESS_WINDOW cfg) eqn:Hfresh.
    + cbn. repeat split. intros Hold. specialize (Hold r eq_refl).
      apply Z.ltb_lt in Hfresh. lia.
    + rewrite Hgate. destruct (priceCache st !! toLowerCase symbol); cbn; auto.
  - rewrite Hgate. destruct (priceCache st !! toLowerCase symbol); cbn; auto.
Qed.

End Resolver.

Section ResolverCases.
Import PriceFeeds Samples.

(** C5 at a sample: BTC polled five seconds ago, asked as [btc] with a
    forced refresh while the upstream would answer 429. *)
Lemma fresh_realtime_wins_witness :
  JsMap.get (toUpperCase (js "btc")) (realtimePrices fresh_poll) = Some polled_btc
  /\ t0 - timestamp polled_btc < PRICE_FRESHNESS_WINDOW config_example
  /\ getCachedCryptoData config_example rate_limiting t0 fresh_poll (js "btc") true
     = {| completion := Return (Some (Stamped polled_btc));
          store := fresh_poll;
          requests := [] |}.
Proof.
  assert (H1 : JsMap.get (toUpperCase (js "btc")) (realtimePrices fresh_poll)
               = Some polled_btc) by reflexivity.
  assert (H2 : t0 - timestamp polled_btc < PRICE_FRESHNESS_WINDOW config_example)
    by reflexivity.
  split; [exact H1|]. split; [exact H2|].
  exact (fresh_realtime_wins config_example rate_limiting t0 fresh_poll
           (js "btc") true polled_btc H1 H2).
Defined.

(** C6 at a sample: a rate limit one minute ago, a forced refresh for BTC
    whose poll is one minute old and whose cache entry is ten minutes old. *)
Lemma backoff_gate_holds_witness :
  t0 - lastRateLimitTime backing_off < RATE_LIMIT_BACKOFF config_example
  /\ requests (getCachedCryptoData config_example knows_nothing t0 backing_off
                 (js "BTC") true) = []
  /\ completion (getCachedCryptoData config_example knows_nothing t0 backing_off
                   (js "BTC") true) = Return (Some (Stamped stale_btc)).
Proof.
  assert (H : t0 - lastRateLimitTime backing_off < RATE_LIMIT_BACKOFF config_example)
    by reflexivity.
  split; [exact H|].
  destruct (backoff_gate_holds config_example knows_nothing t0 backing_off
              (js "BTC") true H) as (Hreq & _ & Hans).
  split; [exact Hreq|].
  apply Hans. intros r Hr. injection Hr as <-. vm_compute. discriminate.
Defined.

(** C1. With a stale cache entry for BTC at hand and no backoff running, a
    forced refresh whose request is answered 429 returns [null] and leaves
    [lastRateLimitTime] at 0: [getCryptoData] has already turned the
    rejection into [null], so the resolver neither arms the gate nor falls
    back on the cache entry. *)
Theorem rate_limit_is_swallowed :
  let out := getCachedCryptoData config_example rate_limiting t0 only_stale_cache
               (js "BTC") true in
  priceCache only_stale_cache !! js "btc" = Some stale_btc
  /\ requests out = [js "bitcoin"]
  /\ completion out = Return None
  /\ lastRateLimitTime (store out) = 0
  /\ lastRateLimitTime (store out) <> t0.
Proof. vm_compute. repeat split; discriminate. Qed.

(** C2. With no usable cache entry and no backoff running, a request that
    times out, one answered 500 and one whose body is not an object all make
    the resolver return [null] after a single request: nothing is thrown to
    the caller. *)
Theorem fetch_failure_is_swallowed :
  let call net := getCachedCryptoData config_example net t0 only_stale_cache
                    (js "BTC") false in
  call timing_out
  = {| completion := Return None; store := only_stale_cache;
       requests := [js "bitcoin"] |}
  /\ call failing_500 = call timing_out
  /\ call malformed = call timing_out.
Proof. vm_compute. repeat split. Qed.

(** C9, amended. For a symbol made of Basic Latin characters the resolver
    does the same (same completion, same state left, same requests) on the
    symbol, on its upper-case form and on its lower-case form. *)
Theorem resolver_ignores_ascii_case cfg net now st (s : jsstring) forceRefresh :
  JsString.is_ascii s ->
  getCachedCryptoData cfg net now st (toUpperCase s) forceRefresh
  = getCachedCryptoData cfg net now st s forceRefresh
  /\ getCachedCryptoData cfg net now st (toLowerCase s) forceRefresh
     = getCachedCryptoData cfg net now st s forceRefresh.
Proof.
  intros Hs.
  unfold getCachedCryptoData, cold_fetch, getCryptoData, getCryptoData_try.
  rewrite !getCoinGeckoId_toUpperCase, !getCoinGeckoId_toLowerCase by assumption.
  rewrite !toUpperCase_idem, !toLowerCase_toUpperCase,
    !toUpperCase_toLowerCase, !toLowerCase_idem by assumption.
  split; reflexivity.
Qed.

(** C9, amended, at the symbol [Btc]. *)
Lemma resolver_ignores_ascii_case_witness :
  JsString.is_ascii (js "Btc")
  /\ getCachedCryptoData config_example knows_nothing t0 fresh_poll
       (toUpperCase (js "Btc")) false
     = getCachedCryptoData config_example knows_nothing t0 fresh_poll (js "Btc") false.
Proof.
  assert (H : JsString.is_ascii (js "Btc")).
  { repeat constructor. }
  split; [exact H|].
  exact (proj1 (resolver_ignores_ascii_case config_example knows_nothing t0
                  fresh_poll (js "Btc") false H)).
Defined.

(** C9, as stated, fails on the one-letter symbol U+00DF, whose upper-case
    form is [SS]: the cache is probed under U+00DF for the one and under
    [ss] for the other. *)
Lemma resolver_case_beyond_ascii :
  toUpperCase sharp_s = js "SS"
  /\ completion (getCachedCryptoData config_example knows_nothing t0 holds_ss
                   sharp_s false) = Return None
  /\ completion (getCachedCryptoData config_example knows_nothing t0 holds_ss
                   (toUpperCase sharp_s) false) = Return (Some (Stamped cached_ss))
  /\ getCachedCryptoData config_example knows_nothing t0 holds_ss sharp_s false
     <> getCachedCryptoData config_example knows_nothing t0 holds_ss
          (toUpperCase sharp_s) false.
Proof.
  repeat split; try reflexivity.
  intros H. apply (f_equal completion) in H. vm_compute in H. discriminate.
Qed.

End ResolverCases.

(** ** The auto-volatility evaluator *)

Section Volatility.
Import Alerts.
Context {W : Type} {host : Host W}.
Variable bot : Bot W.

(** The threshold test of the code, operation by operation. *)
Lemma abs_at_least_percent_change (currentPrice was threshold : Q) :
  abs_at_least (percent_change currentPrice was) threshold
  = Float64.geb
      (Float64.abs
         (Float64.mul
            (Float64.div
               (Float64.sub (Float64.of_Q currentPrice) (Float64.of_Q was))
               (Float64.of_Q was))
            (Float64.of_Q 100)))
      (Float64.of_Q threshold).
Proof. reflexivity. Qed.

Lemma broadcast_nobody (chats : list (Z * bool)) message (w : W) :
  (forall chatId flag, In (chatId, flag) chats -> flag = false) ->
  broadcast bot chats message w = (w, []).
Proof.
  induction chats as [|[chatId flag] chats IH]; intros Hoff; [reflexivity|].
  cbn. rewrite (Hoff chatId flag (or_introl eq_refl)).
  apply IH. intros c f Hin. apply (Hoff c f). now right.
Qed.

Lemma broadcast_all_rejected (chats : list (Z * bool)) message (w : W) :
  (forall chatId m w0, fst (sendMessage bot chatId m w0) = false) ->
  Forall (fun s => delivered s = false) (snd (broadcast bot chats message w)).
Proof.
  intros Hrej. revert w.
  induction chats as [|[chatId flag] chats IH]; intros w; [constructor|].
  cbn. destruct flag; [|apply IH].
  specialize (Hrej chatId message w).
  destruct (sendMessage bot chatId message w) as [ok w1]. cbn in Hrej. subst ok.
  specialize (IH w1). destruct (broadcast bot chats message w1) as [w2 log].
  cbn. constructor; [reflexivity|exact IH].
Qed.

Lemma broadcast_log (chats : list (Z * bool)) message (w : W) :
  map to (snd (broadcast bot chats message w)) = Commands.recipients chats
  /\ Forall (fun s => notice s = message) (snd (broadcast bot chats message w)).
Proof.
  unfold Commands.recipients. revert w.
  induction chats as [|[chatId flag] chats IH]; intros w; [now split|].
  cbn [broadcast]. rewrite filter_cons. cbn [snd].
  destruct flag.
  - destruct (sendMessage bot chatId message w) as [ok w1].
    destruct (IH w1) as [Hto Hnotice].
    destruct (broadcast bot chats message w1) as [w2 log]. cbn in *.
    rewrite decide_True by reflexivity. cbn. rewrite Hto.
    split; [reflexivity|]. now constructor.
  - rewrite decide_False by discriminate. apply IH.
Qed.

(** What the body does when the test passes. *)
Lemma checkSymbol_fires aa symbol currentData (w : W) baseline :
  baselines aa !! symbol = Some baseline ->
  abs_at_least
    (percent_change (PriceFeeds.price (PriceFeeds.data currentData))
       (Baseline.lastAlertPrice baseline)) (threshold aa) = true ->
  cooldown aa < Date_now w - Baseline.lastAlertTime baseline ->
  let currentPrice := PriceFeeds.price (PriceFeeds.data currentData) in
  let message := volatility_message symbol currentPrice baseline in
  checkSymbol bot aa symbol currentData w
  = (set_baseline aa symbol (rebase baseline currentPrice (Date_now w)),
     setTimeout 200 (fst (broadcast bot (enabled aa) message w)),
     snd (broadcast bot (enabled aa) message w)).
Proof.
  intros Hb Hmoved Hcooled. apply Z.ltb_lt in Hcooled. cbn zeta.
  unfold checkSymbol. rewrite Hb, Hmoved, Hcooled. cbn [andb].
  destruct (broadcast _ _ _ _) as [w1 log]. reflexivity.
Qed.

(** What the body does when the test fails. *)
Lemma checkSymbol_quiet aa symbol currentData (w : W) baseline :
  baselines aa !! symbol = Some baseline ->
  abs_at_least
    (percent_change (PriceFeeds.price (PriceFeeds.data currentData))
       (Baseline.lastAlertPrice baseline)) (threshold aa)
  && (cooldown aa <? Date_now w - Baseline.lastAlertTime baseline) = false ->
  checkSymbol bot aa symbol currentData w = (aa, setTimeout 200 w, []).
Proof.
  intros Hb Htest. unfold checkSymbol. now rewrite Hb, Htest.
Qed.

End Volatility.

Section VolatilityClaims.
Import Alerts Samples.

(** C7. For a symbol that has a baseline, the body fires exactly when the
    magnitude of the percent change against [lastAlertPrice], as the code
    computes it, is at least the threshold and [now - lastAlertTime] exceeds
    the cooldown.  It then makes one attempt per subscribed chat, with a
    message that shows the current price and the old [lastAlertPrice], and
    stores the baseline with [lastAlertPrice] and [lastAlertTime] set to the
    current price and time, [price] and [timestamp] kept; otherwise it sends
    nothing and leaves everything as it was.  With threshold 3 and a
    cooldown of one hour, a move of +3.5 percent followed by another one ten
    minutes later is announced once and the baseline stays at the first
    move; when the second one comes after 61 minutes it is announced too,
    measured from the price of the first, and the baseline moves on. *)
Theorem volatility_alert_rule :
  (forall (W : Type) (host : Host W) (bot : Bot W) aa symbol currentData (w : W)
          baseline,
      baselines aa !! symbol = Some baseline ->
      let currentPrice := PriceFeeds.price (PriceFeeds.data currentData) in
      let was := Baseline.lastAlertPrice baseline in
      let now := Date_now w in
      let priceChangePercent :=
        Float64.mul
          (Float64.div
             (Float64.sub (Float64.of_Q currentPrice) (Float64.of_Q was))
             (Float64.of_Q was))
          (Float64.of_Q 100) in
      let fires :=
        Float64.geb (Float64.abs priceChangePercent)
          (Float64.of_Q (threshold aa)) = true
        /\ cooldown aa < now - Baseline.lastAlertTime baseline in
      let '(aa', _, log) := checkSymbol bot aa symbol currentData w in
      (fires ->
       map to log = Commands.recipients (enabled aa)
       /\ Forall (fun s =>
            notice s
            = VolatilityAlert symbol
                (if Float64.gtb priceChangePercent Float64.zero then UP else DOWN)
                priceChangePercent currentPrice was) log
       /\ baselines aa' !! symbol
          = Some {| Baseline.price := Baseline.price baseline;
                    Baseline.timestamp := Baseline.timestamp baseline;
                    Baseline.lastAlertPrice := currentPrice;
                    Baseline.lastAlertTime := now |})
      /\ (~ fires -> aa' = aa /\ log = []))
  /\ (let '(st, _, sent, _) :=
        run_cycles delivering (quoting 1) (two_moves 600000) watching t0 in
      sent
      = [ {| to := 42;
             notice :=
               VolatilityAlert (js "BTC") UP
                 (SpecFloat.S754_finite false 7881299347898369 (-51)) 103.5 100;
             delivered := true |} ]
      /\ baselines (autoAlerts st) !! js "BTC"
         = Some {| Baseline.price := 100;
                   Baseline.timestamp := t0;
                   Baseline.lastAlertPrice := 103.5;
                   Baseline.lastAlertTime := t0 + 30000 |})
  /\ (let '(st, _, sent, _) :=
        run_cycles delivering (quoting 1) (two_moves 3660000) watching t0 in
      sent
      = [ {| to := 42;
             notice :=
               VolatilityAlert (js "BTC") UP
                 (SpecFloat.S754_finite false 7881299347898369 (-51)) 103.5 100;
             delivered := true |};
          {| to := 42;
             notice :=
               VolatilityAlert (js "BTC") UP
                 (SpecFloat.S754_finite false 7881299347898373 (-51))
                 107.1225 103.5;
             delivered := true |} ]
      /\ baselines (autoAlerts st) !! js "BTC"
         = Some {| Baseline.price := 100;
                   Baseline.timestamp := t0;
                   Baseline.lastAlertPrice := 107.1225;
                   Baseline.lastAlertTime := t0 + 30000 + 3660000 |}).
Proof.
  split; [|split; vm_compute; split; reflexivity].
  intros W host bot aa symbol currentData w baseline Hb currentPrice was now
    priceChangePercent fires.
  destruct (checkSymbol bot aa symbol currentData w) as [[aa' w'] log] eqn:Hrun.
  split.
  - intros [Hmoved Hcooled].
    rewrite (checkSymbol_fires bot aa symbol currentData w baseline Hb Hmoved Hcooled)
      in Hrun.
    injection Hrun as <- _ <-.
    destruct (broadcast_log bot (enabled aa)
                (volatility_message symbol currentPrice baseline) w)
      as [Hto Hnotice].
    split; [exact Hto|]. split; [exact Hnotice|].
    cbn [set_baseline baselines]. apply lookup_insert_eq.
  - intros Hquiet.
    rewrite (checkSymbol_quiet bot aa symbol currentData w baseline Hb) in Hrun.
    { injection Hrun as <- _ <-. now split. }
    apply andb_false_iff.
    destruct (abs_at_least
                (percent_change (PriceFeeds.price (PriceFeeds.data currentData))
                   (Baseline.lastAlertPrice baseline)) (threshold aa)) eqn:Hmoved;
      [right|now left].
    apply Z.ltb_ge. destruct (Z.le_gt_cases
      (Date_now w - Baseline.lastAlertTime baseline) (cooldown aa)) as [Hle|Hgt];
      [exact Hle|]. exfalso. apply Hquiet. split; [exact Hmoved|lia].
Qed.

(** C8, amended. On the first sight of a symbol the body stores the
    baseline [price = lastAlertPrice = currentPrice], [timestamp = now],
    [lastAlertTime = 0], and sends nothing. *)
Theorem first_sight_seeds {W : Type} {host : Host W} (bot : Bot W) aa symbol
    currentData (w : W) :
  baselines aa !! symbol = None ->
  checkSymbol bot aa symbol currentData w
  = (set_baseline aa symbol
       {| Baseline.price := PriceFeeds.price (PriceFeeds.data currentData);
          Baseline.timestamp := Date_now w;
          Baseline.lastAlertPrice := PriceFeeds.price (PriceFeeds.data currentData);
          Baseline.lastAlertTime := 0 |},
     w, []).
Proof. intros Hb. unfold checkSymbol. now rewrite Hb. Qed.

(** C10. When the threshold and the cooldown tests pass, the baseline is
    stored with [lastAlertPrice] and [lastAlertTime] set to the current price
    and time, whoever is subscribed and whatever becomes of the messages:
    with no chat subscribed nothing is sent, and with every send rejected
    nothing is delivered.  The move is consumed: until the cooldown has run
    out again, counted from this time, the symbol fires at no price. *)
Theorem rebase_without_delivery {W : Type} {host : Host W} (bot : Bot W) aa symbol
    currentData (w : W) baseline :
  baselines aa !! symbol = Some baseline ->
  let currentPrice := PriceFeeds.price (PriceFeeds.data currentData) in
  let was := Baseline.lastAlertPrice baseline in
  let now := Date_now w in
  Float64.geb
    (Float64.abs
       (Float64.mul
          (Float64.div
             (Float64.sub (Float64.of_Q currentPrice) (Float64.of_Q was))
             (Float64.of_Q was))
          (Float64.of_Q 100)))
    (Float64.of_Q (threshold aa)) = true ->
  cooldown aa < now - Baseline.lastAlertTime baseline ->
  let '(aa', w', log) := checkSymbol bot aa symbol currentData w in
  baselines aa' !! symbol
  = Some {| Baseline.price := Baseline.price baseline;
            Baseline.timestamp := Baseline.timestamp baseline;
            Baseline.lastAlertPrice := currentPrice;
            Baseline.lastAlertTime := now |}
  /\ ((forall chatId flag, In (chatId, flag) (enabled aa) -> flag = false) ->
      log = [] /\ w' = setTimeout 200 w)
  /\ ((forall chatId m w0, fst (sendMessage bot chatId m w0) = false) ->
      Forall (fun s => delivered s = false) log)
  /\ (forall nextData (w2 : W),
         Date_now w2 - now <= cooldown aa ->
         checkSymbol bot aa' symbol nextData w2 = (aa', setTimeout 200 w2, [])).
Proof.
  intros Hb currentPrice was now Hmoved Hcooled.
  rewrite (checkSymbol_fires bot aa symbol currentData w baseline Hb Hmoved Hcooled).
  split; [apply lookup_insert_eq|]. split; [|split].
  - intros Hoff. now rewrite (broadcast_nobody bot _ _ w Hoff).
  - intros Hrej. now apply broadcast_all_rejected.
  - intros nextData w2 Hsoon.
    apply (checkSymbol_quiet bot _ symbol nextData w2
             (rebase baseline currentPrice now)).
    + apply lookup_insert_eq.
    + apply andb_false_iff. right. apply Z.ltb_ge. cbn. fold now. lia.
Qed.

End VolatilityClaims.

(** ** The manual alerts *)

Section Manual.
Import Alerts.
Context {W : Type} {host : Host W}.
Variable bot : Bot W.
Variable resolver : Resolver W.

(** The crossing rule of the code, as inequalities. *)
Lemma shouldTrigger_iff alert (currentPrice : Q) :
  shouldTrigger alert currentPrice = true
  <-> ((Alert.currentPrice alert < Alert.targetPrice alert
        /\ Alert.targetPrice alert <= currentPrice)
       \/ (Alert.targetPrice alert < Alert.currentPrice alert
           /\ currentPrice <= Alert.targetPrice alert))%Q.
Proof.
  unfold shouldTrigger.
  rewrite orb_true_iff, !andb_true_iff, !Qltb_lt, !Qleb_le. reflexivity.
Qed.

(** One run of the body sends at most one message, and only for an alert it
    has just marked as triggered; otherwise the object is as it was. *)
Lemma checkAlert_cases chatId last alert (w : W) :
  let '(alert', _, log) := checkAlert bot resolver chatId last alert w in
  (alert' = alert /\ log = [])
  \/ (Alert.status alert' = triggered /\ exists s, log = [s]).
Proof.
  unfold checkAlert.
  destruct (resolver _ _ _) as [[[currentData|]|e] w1]; auto.
  destruct (shouldTrigger _ _); auto.
  destruct (sendMessage _ _ _ _) as [ok w3]. right. eauto.
Qed.

Lemma active_slots_spec i from alerts :
  i ∈ active_slots from alerts
  <-> (from <= i)%nat
      /\ exists alert, alerts !! (i - from)%nat = Some alert /\ is_active alert = true.
Proof.
  revert from. induction alerts as [|alert alerts IH]; intros from; cbn.
  - split; [intros H; inversion H|intros (_ & a & Ha & _); discriminate].
  - assert (Hrest : i ∈ active_slots (S from) alerts
                    <-> (from < i)%nat
                        /\ exists a, (alert :: alerts) !! (i - from)%nat = Some a
                                     /\ is_active a = true).
    { rewrite IH. split.
      - intros (Hle & a & Ha & Hact). split; [lia|]. exists a. split; [|exact Hact].
        replace (i - from)%nat with (S (i - S from)) by lia. exact Ha.
      - intros (Hlt & a & Ha & Hact). split; [lia|]. exists a. split; [|exact Hact].
        replace (i - from)%nat with (S (i - S from)) in Ha by lia. exact Ha. }
    destruct (is_active alert) eqn:Hact.
    + rewrite elem_of_cons, Hrest. split.
      * intros [->|(Hlt & H)]; [|split; [lia|exact H]].
        split; [lia|]. exists alert. now rewrite Nat.sub_diag.
      * intros (Hle & a & Ha & Ha').
        destruct (decide (i = from)) as [->|Hne]; [now left|right].
        split; [lia|]. eauto.
    + rewrite Hrest. split.
      * intros (Hlt & H). split; [lia|exact H].
      * intros (Hle & a & Ha & Ha'). split; [|eauto].
        destruct (decide (i = from)) as [->|Hne]; [|lia].
        rewrite Nat.sub_diag in Ha. cbn in Ha. congruence.
Qed.

Lemma active_slots_NoDup from alerts : NoDup (active_slots from alerts).
Proof.
  revert from. induction alerts as [|alert alerts IH]; intros from; cbn.
  - constructor.
  - destruct (is_active alert); [|apply IH].
    constructor; [|apply IH]. rewrite active_slots_spec. lia.
Qed.

Lemma visits_of_cons chatId ref v log :
  visits_of chatId ref (v :: log)
  = if decide (chat v = chatId /\ slot v = ref)
    then v :: visits_of chatId ref log else visits_of chatId ref log.
Proof. reflexivity. Qed.

Lemma visits_of_app chatId ref log1 log2 :
  visits_of chatId ref (log1 ++ log2)
  = visits_of chatId ref log1 ++ visits_of chatId ref log2.
Proof. apply filter_app. Qed.

Lemma visits_of_none chatId ref log :
  (forall v, v ∈ log -> ~ (chat v = chatId /\ slot v = ref)) ->
  visits_of chatId ref log = [].
Proof.
  induction log as [|v log IH]; intros Hnone; [reflexivity|].
  rewrite visits_of_cons. destruct (decide _) as [Hv|_].
  - exfalso. apply (Hnone v); [now left|exact Hv].
  - apply IH. intros v' Hv'. apply Hnone. now right.
Qed.

Lemma notifications_app chatId ref log1 log2 :
  notifications chatId ref (log1 ++ log2)
  = (notifications chatId ref log1 + notifications chatId ref log2)%nat.
Proof.
  unfold notifications.
  now rewrite visits_of_app, map_app, concat_app, length_app.
Qed.

Lemma notifications_none chatId ref log :
  visits_of chatId ref log = [] -> notifications chatId ref log = 0%nat.
Proof. unfold notifications. now intros ->. Qed.

Lemma notifications_cons chatId ref v log :
  notifications chatId ref (v :: log)
  = ((if decide (chat v = chatId /\ slot v = ref) then length (sends v) else 0)
     + notifications chatId ref log)%nat.
Proof.
  unfold notifications. rewrite visits_of_cons.
  destruct (decide _); [|reflexivity].
  cbn. now rewrite length_app.
Qed.

(** The inner loop over references without repetition: every visit is of
    one of the references; an object that is not referenced is not touched;
    an object is the subject of at most one message, and then it is marked
    as triggered. *)
Lemma alerts_loop_spec chatId refs alerts (w : W) :
  NoDup refs ->
  let '(alerts', _, log) := alerts_loop bot resolver chatId refs alerts w in
  length alerts' = length alerts
  /\ (forall v, v ∈ log -> chat v = chatId /\ slot v ∈ refs)
  /\ (forall i, i ∉ refs -> alerts' !! i = alerts !! i)
  /\ (forall i, (notifications chatId i log <= 1)%nat)
  /\ (forall i, (1 <= notifications chatId i log)%nat ->
       exists a', alerts' !! i = Some a' /\ Alert.status a' = triggered).
Proof.
  revert alerts w. induction refs as [|ref rest IH]; intros alerts w Hnd.
  { cbn. split; [reflexivity|]. split; [intros v Hv; inversion Hv|].
    split; [reflexivity|]. split; [intros i; cbn; lia|].
    intros i Hi. cbn in Hi. lia. }
  apply NoDup_cons in Hnd as [Hfresh Hnd].
  cbn [alerts_loop]. destruct (alerts !! ref) as [alert|] eqn:Hlook.
  - pose proof (checkAlert_cases chatId
                  (match rest with [] => true | _ => false end) alert w) as Hbody.
    destruct (checkAlert _ _ _ _ _ _) as [[alert' w1] log1].
    specialize (IH (<[ref := alert']> alerts) w1 Hnd).
    destruct (alerts_loop _ _ _ _ _ _) as [[alerts2 w2] log2].
    destruct IH as (Hlen & Hmem & Hsame & Hcount & Htrig).
    assert (Hrest0 : notifications chatId ref log2 = 0%nat).
    { apply notifications_none, visits_of_none. intros v Hv [_ Hslot].
      apply Hmem in Hv as [_ Hin]. rewrite Hslot in Hin. contradiction. }
    assert (Hlog1 : (length log1 <= 1)%nat).
    { destruct Hbody as [[_ ->]|[_ [s ->]]]; cbn; lia. }
    split; [now rewrite Hlen, length_insert|].
    split.
    { intros v Hv. apply elem_of_cons in Hv as [->|Hv]; cbn.
      - split; [reflexivity|now left].
      - apply Hmem in Hv as [Hc Hin]. split; [exact Hc|now right]. }
    split.
    { intros i Hi. apply not_elem_of_cons in Hi as [Hne Hi].
      rewrite (Hsame i Hi). now apply list_lookup_insert_ne. }
    split.
    { intros i. rewrite notifications_cons. cbn [chat slot sends].
      destruct (decide _) as [[_ <-]|_]; [rewrite Hrest0; lia|apply Hcount]. }
    intros i. rewrite notifications_cons. cbn [chat slot sends].
    destruct (decide _) as [[_ <-]|_]; [|apply Htrig].
    rewrite Hrest0. intros Hone. exists alert'. split.
    + rewrite (Hsame ref Hfresh). apply list_lookup_insert_eq.
      now apply lookup_lt_Some in Hlook.
    + destruct Hbody as [[_ ->]|[Hst _]]; [cbn in Hone; lia|exact Hst].
  - specialize (IH alerts w Hnd).
    destruct (alerts_loop _ _ _ _ _ _) as [[alerts2 w2] log2].
    destruct IH as (Hlen & Hmem & Hsame & Hcount & Htrig).
    split; [exact Hlen|]. split.
    { intros v Hv. apply Hmem in Hv as [Hc Hin]. split; [exact Hc|now right]. }
    split; [|split; assumption].
    intros i Hi. apply not_elem_of_cons in Hi as [_ Hi]. now apply Hsame.
Qed.

Lemma is_active_status alert :
  is_active alert = true <-> Alert.status alert = active.
Proof. unfold is_active. destruct (Alert.status alert); split; congruence. Qed.

Lemma alert_at_head chatId ref alerts rest :
  alert_at chatId ref ((chatId, alerts) :: rest) = alerts !! ref.
Proof. unfold alert_at. cbn. now rewrite decide_True. Qed.

Lemma alert_at_tail chatId chatId' ref alerts rest :
  chatId' <> chatId ->
  alert_at chatId ref ((chatId', alerts) :: rest) = alert_at chatId ref rest.
Proof. intros Hne. unfold alert_at. cbn. now rewrite decide_False. Qed.

(** The outer loop, seen from one position [priceAlerts[chatId][ref]]. *)
Lemma chats_loop_spec chatId ref priceAlerts (w : W) :
  NoDup (map fst priceAlerts) ->
  let '(priceAlerts', _, log) := chats_loop bot resolver priceAlerts w in
  map fst priceAlerts' = map fst priceAlerts
  /\ (forall v, v ∈ log -> chat v ∈ map fst priceAlerts)
  /\ ((forall a, alert_at chatId ref priceAlerts = Some a ->
                 Alert.status a = triggered) ->
      alert_at chatId ref priceAlerts' = alert_at chatId ref priceAlerts
      /\ visits_of chatId ref log = [])
  /\ (notifications chatId ref log <= 1)%nat
  /\ ((1 <= notifications chatId ref log)%nat ->
      exists a', alert_at chatId ref priceAlerts' = Some a'
                 /\ Alert.status a' = triggered).
Proof.
  revert w. induction priceAlerts as [|[chatId' alerts] rest IH]; intros w Hnd.
  { cbn. split; [reflexivity|]. split; [intros v Hv; inversion Hv|].
    split; [auto|]. split; [cbn; lia|]. cbn. lia. }
  cbn in Hnd. apply NoDup_cons in Hnd as [Hfresh Hnd].
  cbn [chats_loop].
  pose proof (alerts_loop_spec chatId' (active_slots 0 alerts) alerts w
                (active_slots_NoDup 0 alerts)) as Hinner.
  destruct (alerts_loop _ _ _ _ _ _) as [[alerts' w1] log1].
  destruct Hinner as (_ & Hmem1 & Hsame1 & Hcount1 & Htrig1).
  specialize (IH w1 Hnd).
  destruct (chats_loop _ _ _ _) as [[rest' w2] log2].
  destruct IH as (Hkeys & Hmem2 & Hskip2 & Hcount2 & Htrig2).
  split; [cbn; now rewrite Hkeys|].
  split.
  { intros v Hv. cbn. apply elem_of_cons.
    apply elem_of_app in Hv as [Hv|Hv].
    - left. now apply Hmem1.
    - right. now apply Hmem2. }
  rewrite visits_of_app, notifications_app.
  destruct (decide (chatId' = chatId)) as [->|Hne].
  - rewrite !alert_at_head.
    assert (Hnone2 : visits_of chatId ref log2 = []).
    { apply visits_of_none. intros v Hv [Hc _]. apply Hmem2 in Hv.
      rewrite Hc in Hv. contradiction. }
    rewrite Hnone2, (notifications_none _ _ _ Hnone2), app_nil_r, Nat.add_0_r.
    split; [|split; [apply Hcount1|apply Htrig1]].
    intros Hsettled.
    assert (Hout : ref ∉ active_slots 0 alerts).
    { rewrite active_slots_spec, Nat.sub_0_r. intros (_ & a & Ha & Hact).
      apply is_active_status in Hact. specialize (Hsettled a Ha). congruence. }
    split; [now apply Hsame1|].
    apply visits_of_none. intros v Hv [_ Hslot]. apply Hmem1 in Hv as [_ Hin].
    rewrite Hslot in Hin. contradiction.
  - rewrite !(alert_at_tail _ _ _ _ _ Hne).
    assert (Hnone1 : visits_of chatId ref log1 = []).
    { apply visits_of_none. intros v Hv [Hc _]. apply Hmem1 in Hv as [Hc' _].
      congruence. }
    rewrite Hnone1, (notifications_none _ _ _ Hnone1). cbn [app Nat.add].
    split; [exact Hskip2|]. split; [exact Hcount2|exact Htrig2].
Qed.

(** One run of [checkAlerts], seen from one position. *)
Lemma checkAlerts_spec chatId ref realtimePrices st (w : W) :
  NoDup (map fst (priceAlerts st)) ->
  let c := checkAlerts bot resolver realtimePrices st w in
  NoDup (map fst (priceAlerts (state c)))
  /\ ((forall a, alert_at chatId ref (priceAlerts st) = Some a ->
                 Alert.status a = triggered) ->
      alert_at chatId ref (priceAlerts (state c))
      = alert_at chatId ref (priceAlerts st)
      /\ visits_of chatId ref (visits c) = [])
  /\ (notifications chatId ref (visits c) <= 1)%nat
  /\ ((1 <= notifications chatId ref (visits c))%nat ->
      exists a', alert_at chatId ref (priceAlerts (state c)) = Some a'
                 /\ Alert.status a' = triggered).
Proof.
  intros Hnd. unfold checkAlerts.
  destruct (checkAutoVolatilityAlerts _ _ _ _) as [[aa w1] log1].
  pose proof (chats_loop_spec chatId ref (priceAlerts st) w1 Hnd) as Hloop.
  destruct (chats_loop _ _ _ _) as [[pa w2] log2]. cbn.
  destruct Hloop as (Hkeys & _ & Hskip & Hcount & Htrig).
  rewrite Hkeys. auto.
Qed.

(** A position that holds no active alert is left alone by every later run. *)
Lemma run_cycles_settled chatId ref schedule st (w : W) :
  NoDup (map fst (priceAlerts st)) ->
  (forall a, alert_at chatId ref (priceAlerts st) = Some a ->
             Alert.status a = triggered) ->
  let '(st', _, _, seen) := run_cycles bot resolver schedule st w in
  alert_at chatId ref (priceAlerts st') = alert_at chatId ref (priceAlerts st)
  /\ visits_of chatId ref seen = [].
Proof.
  revert st w. induction schedule as [|[elapse realtimePrices] rest IH];
    intros st w Hnd Hsettled; [cbn; auto|].
  cbn [run_cycles].
  destruct (checkAlerts_spec chatId ref realtimePrices st (elapse w) Hnd)
    as (Hnd' & Hskip & _).
  destruct (Hskip Hsettled) as [Hsame Hnone].
  specialize (IH (state (checkAlerts bot resolver realtimePrices st (elapse w)))
                (world (checkAlerts bot resolver realtimePrices st (elapse w))) Hnd').
  destruct (run_cycles _ _ _ _ _) as [[[st' w'] sent] seen].
  destruct IH as [Hsame' Hnone']; [now rewrite Hsame|].
  split; [now rewrite Hsame', Hsame|].
  now rewrite visits_of_app, Hnone, Hnone'.
Qed.

Lemma run_cycles_at_most_once chatId ref schedule st (w : W) :
  NoDup (map fst (priceAlerts st)) ->
  let '(_, _, _, seen) := run_cycles bot resolver schedule st w in
  (notifications chatId ref seen <= 1)%nat.
Proof.
  revert st w. induction schedule as [|[elapse realtimePrices] rest IH];
    intros st w Hnd; [cbn; lia|].
  cbn [run_cycles].
  destruct (checkAlerts_spec chatId ref realtimePrices st (elapse w) Hnd)
    as (Hnd' & _ & Hcount & Htrig).
  pose proof (run_cycles_settled chatId ref rest
                (state (checkAlerts bot resolver realtimePrices st (elapse w)))
                (world (checkAlerts bot resolver realtimePrices st (elapse w)))
                Hnd') as Hafter.
  specialize (IH (state (checkAlerts bot resolver realtimePrices st (elapse w)))
                (world (checkAlerts bot resolver realtimePrices st (elapse w))) Hnd').
  destruct (run_cycles _ _ _ _ _) as [[[st' w'] sent] seen].
  rewrite notifications_app.
  destruct (notifications chatId ref
              (visits (checkAlerts bot resolver realtimePrices st (elapse w))))
    as [|n] eqn:Hn; [exact IH|].
  destruct Htrig as (a' & Ha' & Hst'); [lia|].
  destruct Hafter as [_ Hnone].
  { intros a Ha. congruence. }
  rewrite (notifications_none _ _ _ Hnone). lia.
Qed.

(** A run over two schedules in a row is the run over the first followed
    by the run over the second. *)
Lemma run_cycles_app before after st (w : W) :
  run_cycles bot resolver (before ++ after) st w
  = let '(st1, w1, sent1, seen1) := run_cycles bot resolver before st w in
    let '(st2, w2, sent2, seen2) := run_cycles bot resolver after st1 w1 in
    (st2, w2, sent1 ++ sent2, seen1 ++ seen2).
Proof.
  revert st w. induction before as [|[elapse realtimePrices] rest IH]; intros st w.
  - cbn. now destruct (run_cycles _ _ _ _ _) as [[[st2 w2] sent2] seen2].
  - cbn [app run_cycles]. rewrite IH.
    destruct (run_cycles _ _ rest _ _) as [[[st1 w1] sent1] seen1].
    destruct (run_cycles _ _ after _ _) as [[[st2 w2] sent2] seen2].
    now rewrite !app_assoc.
Qed.

(** The runs neither add nor remove a chat. *)
Lemma run_cycles_keys schedule st (w : W) :
  NoDup (map fst (priceAlerts st)) ->
  let '(st', _, _, _) := run_cycles bot resolver schedule st w in
  NoDup (map fst (priceAlerts st')).
Proof.
  revert st w. induction schedule as [|[elapse realtimePrices] rest IH];
    intros st w Hnd; [exact Hnd|].
  cbn [run_cycles].
  destruct (checkAlerts_spec 0 0%nat realtimePrices st (elapse w) Hnd) as (Hnd' & _).
  specialize (IH _ (world (checkAlerts bot resolver realtimePrices st (elapse w)))
                Hnd').
  now destruct (run_cycles _ _ _ _ _) as [[[st' w'] sent] seen].
Qed.

End Manual.

Section ManualClaims.
Import Alerts Samples.

(** Runs that do not overlap.  Take any sequence of runs each of which has
    ended before the next begins, cut anywhere in two, whatever the resolver
    answers and whatever becomes of the messages.  If the alert object at a
    position is marked as triggered at the cut, the runs after it never
    visit it (the resolver is not asked about it, nothing is sent for it)
    and leave it as it is; and over all the runs the object is the subject
    of at most one message. *)
Theorem triggered_alert_is_final {W : Type} {host : Host W} (bot : Bot W)
    (resolver : Resolver W) before after st (w : W) chatId ref :
  NoDup (map fst (priceAlerts st)) ->
  let '(st1, w1, _, seen1) := run_cycles bot resolver before st w in
  let '(st2, _, _, seen2) := run_cycles bot resolver after st1 w1 in
  (notifications chatId ref (seen1 ++ seen2) <= 1)%nat
  /\ (forall a, alert_at chatId ref (priceAlerts st1) = Some a ->
                Alert.status a = triggered ->
                visits_of chatId ref seen2 = []
                /\ alert_at chatId ref (priceAlerts st2) = Some a).
Proof.
  intros Hnd.
  pose proof (run_cycles_at_most_once bot resolver chatId ref (before ++ after)
                st w Hnd) as Hcount.
  rewrite run_cycles_app in Hcount.
  pose proof (run_cycles_keys bot resolver before st w Hnd) as Hnd1.
  destruct (run_cycles _ _ before _ _) as [[[st1 w1] sent1] seen1].
  pose proof (run_cycles_settled bot resolver chatId ref after st1 w1 Hnd1)
    as Hsettled.
  destruct (run_cycles _ _ after _ _) as [[[st2 w2] sent2] seen2].
  split; [exact Hcount|]. intros a Ha Hst.
  destruct Hsettled as [Hsame Hnone]; [intros a' Ha'; congruence|].
  split; [exact Hnone|congruence].
Qed.

(** The crossing rule.  An active alert for which the resolver returns a
    price triggers exactly when the target is above the original price and
    the price has reached it, or the target is below the original price and
    the price has fallen to it; an alert whose target equals its original
    price does not trigger, whatever the price. *)
Theorem crossing_rule {W : Type} {host : Host W} (bot : Bot W)
    (resolver : Resolver W) chatId last alert (w w1 : W) currentData :
  resolver (Alert.symbol alert) true w = (Return (Some currentData), w1) ->
  let currentPrice := PriceFeeds.answer_price currentData in
  let crossed :=
    ((Alert.currentPrice alert < Alert.targetPrice alert
      /\ Alert.targetPrice alert <= currentPrice)
     \/ (Alert.targetPrice alert < Alert.currentPrice alert
         /\ currentPrice <= Alert.targetPrice alert))%Q in
  let '(alert', _, log) := checkAlert bot resolver chatId last alert w in
  (crossed ->
   alert' = trigger alert (Date_now w1) currentPrice
   /\ Alert.status alert' = triggered
   /\ exists s, log = [s] /\ to s = chatId)
  /\ (~ crossed -> alert' = alert /\ log = [])
  /\ ((Alert.targetPrice alert == Alert.currentPrice alert)%Q ->
      alert' = alert /\ log = []).
Proof.
  intros Hprice currentPrice crossed. unfold checkAlert. rewrite Hprice.
  fold currentPrice.
  pose proof (shouldTrigger_iff alert currentPrice) as Hrule. fold crossed in Hrule.
  destruct (shouldTrigger alert currentPrice).
  - destruct (sendMessage _ _ _ _) as [ok w3].
    assert (Hc : crossed) by now apply Hrule.
    split; [intros _; split; [reflexivity|split; [reflexivity|eauto]]|].
    split; [intros Hn; contradiction|].
    intros Heq. exfalso. unfold crossed in Hc. lra.
  - assert (Hc : ~ crossed) by (intros Hc; apply Hrule in Hc; discriminate).
    split; [intros H; contradiction|]. split; auto.
Qed.

End ManualClaims.

(** ** The claims at sample states *)

Section AlertCases.
Import Alerts Samples.

(** The wired bot.  With a fresh poll of BTC at 50123 the alert for 50100
    triggers without a request upstream; with only a stale cache entry and
    an upstream that answers 429 the alert is skipped, and the next tick
    sends a request again. *)
Example alert_tick_cases :
  (let c := Wiring.alert_tick config_example delivering (holding [btc_to_50100])
              (live fresh_poll rate_limiting) in
   alert_at 42 0 (priceAlerts (state c)) = Some (trigger btc_to_50100 t0 50123)
   /\ notifications 42 0 (visits c) = 1%nat
   /\ Wiring.feeds (world c) = fresh_poll)
  /\ (let c := Wiring.alert_tick config_example delivering (holding [btc_to_50100])
                 (live only_stale_cache rate_limiting) in
      alert_at 42 0 (priceAlerts (state c)) = Some btc_to_50100
      /\ notifications 42 0 (visits c) = 0%nat
      /\ PriceFeeds.lastRateLimitTime (Wiring.feeds (world c)) = 0
      /\ PriceFeeds.requests
           (PriceFeeds.getCachedCryptoData config_example rate_limiting (t0 + 30000)
              (Wiring.feeds (world c)) (js "BTC") true) = [js "bitcoin"]).
Proof. vm_compute. repeat split. Qed.

(** C7 at a sample: BTC seeded at 100 is at 103.5 thirty seconds later;
    chat 42 is told, and the baseline moves to 103.5. *)
Lemma volatility_alert_rule_witness :
  baselines (set_baseline subscribed (js "BTC") seeded_btc) !! js "BTC"
  = Some seeded_btc
  /\ (let '(aa', _, log) :=
        checkSymbol delivering (set_baseline subscribed (js "BTC") seeded_btc)
          (js "BTC") (btc_record 103.5 (t0 + 30000)) (t0 + 30000) in
      map to log = [42]
      /\ baselines aa' !! js "BTC"
         = Some {| Baseline.price := 100;
                   Baseline.timestamp := t0;
                   Baseline.lastAlertPrice := 103.5;
                   Baseline.lastAlertTime := t0 + 30000 |}).
Proof.
  assert (Hb : baselines (set_baseline subscribed (js "BTC") seeded_btc) !! js "BTC"
               = Some seeded_btc) by reflexivity.
  split; [exact Hb|].
  pose proof (proj1 volatility_alert_rule Z clock_host delivering
                (set_baseline subscribed (js "BTC") seeded_btc)
                (js "BTC") (btc_record 103.5 (t0 + 30000)) (t0 + 30000)
                seeded_btc Hb) as H.
  cbv zeta in H.
  destruct (checkSymbol _ _ _ _ _) as [[aa' w'] log].
  destruct H as [Hfires _].
  destruct Hfires as (Hto & _ & Hbase); [split; reflexivity|].
  split; [exact Hto|exact Hbase].
Defined.

(** C8, amended, at the first sight of BTC at 100. *)
Lemma first_sight_seeds_witness :
  baselines subscribed !! js "BTC" = None
  /\ checkSymbol delivering subscribed (js "BTC") (btc_record 100 t0) t0
     = (set_baseline subscribed (js "BTC") seeded_btc, t0, []).
Proof.
  assert (Hb : baselines subscribed !! js "BTC" = None) by reflexivity.
  split; [exact Hb|].
  exact (first_sight_seeds delivering subscribed (js "BTC") (btc_record 100 t0)
           t0 Hb).
Defined.

(** C8, as stated, fails: the baseline stored on first sight has
    [lastAlertTime = 0], not the time of the first sight, so the cooldown
    does not run from there, and a move of +3.5 percent thirty seconds after
    the first sight is announced. *)
Lemma seed_leaves_cooldown_open :
  (let '(aa, _, log) :=
     checkSymbol delivering subscribed (js "BTC") (btc_record 100 t0) t0 in
   log = []
   /\ exists b, baselines aa !! js "BTC" = Some b
                /\ Baseline.lastAlertPrice b = 100%Q
                /\ Baseline.timestamp b = t0
                /\ Baseline.lastAlertTime b = 0
                /\ Baseline.lastAlertTime b <> Date_now t0)
  /\ (let '(_, _, sent, _) :=
        run_cycles delivering (quoting 1) (firstn 2 (two_moves 0)) watching t0 in
      map to sent = [42]).
Proof.
  split; [|reflexivity].
  vm_compute. split; [reflexivity|]. eexists. split; [reflexivity|].
  repeat split; discriminate.
Qed.

(** C10 at a sample: nobody subscribed and a bot that cannot deliver. *)
Lemma rebase_without_delivery_witness :
  baselines nobody_seeded !! js "BTC" = Some seeded_btc
  /\ Float64.geb
       (Float64.abs
          (Float64.mul
             (Float64.div
                (Float64.sub (Float64.of_Q 103.5) (Float64.of_Q 100))
                (Float64.of_Q 100))
             (Float64.of_Q 100)))
       (Float64.of_Q 3) = true
  /\ cooldown nobody_seeded < (t0 + 30000) - Baseline.lastAlertTime seeded_btc
  /\ (let '(aa', w', log) :=
        checkSymbol unreachable nobody_seeded (js "BTC")
          (btc_record 103.5 (t0 + 30000)) (t0 + 30000) in
      baselines aa' !! js "BTC"
      = Some {| Baseline.price := 100;
                Baseline.timestamp := t0;
                Baseline.lastAlertPrice := 103.5;
                Baseline.lastAlertTime := t0 + 30000 |}
      /\ log = []
      /\ checkSymbol unreachable aa' (js "BTC")
           (btc_record 120 (t0 + 30000 + 3600000)) (t0 + 30000 + 3600000)
         = (aa', t0 + 30000 + 3600000 + 200, [])).
Proof.
  assert (Hb : baselines nobody_seeded !! js "BTC" = Some seeded_btc) by reflexivity.
  assert (Hm : Float64.geb
                 (Float64.abs
                    (Float64.mul
                       (Float64.div
                          (Float64.sub (Float64.of_Q 103.5) (Float64.of_Q 100))
                          (Float64.of_Q 100))
                       (Float64.of_Q 100)))
                 (Float64.of_Q 3) = true) by reflexivity.
  assert (Hc : cooldown nobody_seeded
               < (t0 + 30000) - Baseline.lastAlertTime seeded_btc) by reflexivity.
  split; [exact Hb|]. split; [exact Hm|]. split; [exact Hc|].
  pose proof (rebase_without_delivery unreachable nobody_seeded (js "BTC")
                (btc_record 103.5 (t0 + 30000)) (t0 + 30000) seeded_btc Hb Hm Hc)
    as H.
  destruct (checkSymbol _ _ _ _ _) as [[aa' w'] log].
  destruct H as (Hbase & Hnobody & _ & Hnext).
  split; [exact Hbase|]. split.
  - apply Hnobody. intros chatId flag [Hin|[]]. now injection Hin as <- <-.
  - apply (Hnext (btc_record 120 (t0 + 30000 + 3600000)) (t0 + 30000 + 3600000)).
    vm_compute. discriminate.
Defined.

(** Three runs in turn that all see 60000 for the alert set for 60000. *)
Lemma triggered_alert_is_final_witness :
  NoDup (map fst (priceAlerts (holding [btc_to_60000])))
  /\ (let '(st1, w1, _, seen1) :=
        run_cycles delivering (quoting 60000) (firstn 1 three_runs)
          (holding [btc_to_60000]) t0 in
      let '(st2, _, _, seen2) :=
        run_cycles delivering (quoting 60000) (skipn 1 three_runs) st1 w1 in
      (notifications 42 0 (seen1 ++ seen2) <= 1)%nat
      /\ visits_of 42 0 seen2 = []).
Proof.
  assert (Hnd : NoDup (map fst (priceAlerts (holding [btc_to_60000])))).
  { cbn. apply NoDup_singleton. }
  split; [exact Hnd|].
  pose proof (triggered_alert_is_final delivering (quoting 60000)
                (firstn 1 three_runs) (skipn 1 three_runs)
                (holding [btc_to_60000]) t0 42 0%nat Hnd) as H.
  destruct (run_cycles _ _ (firstn 1 three_runs) _ _) as [[[st1 w1] sent1] seen1]
    eqn:Hrun1.
  destruct (run_cycles _ _ (skipn 1 three_runs) _ _) as [[[st2 w2] sent2] seen2].
  destruct H as [Hcount Hfinal]. split; [exact Hcount|].
  vm_compute in Hrun1. injection Hrun1 as <- <- <- <-.
  exact (proj1 (Hfinal _ eq_refl eq_refl)).
Defined.

(** The scenario of the specification: at 59999 the alert for 60000 set at
    50000 stays active; at 60000 it triggers, and three runs at 60000 send
    one message. *)
Example alert_60000_scenario :
  (let c := checkAlerts delivering (quoting 59999) [] (holding [btc_to_60000]) t0 in
   alert_at 42 0 (priceAlerts (state c)) = Some btc_to_60000
   /\ notifications 42 0 (visits c) = 0%nat)
  /\ (let '(st, _, _, seen) :=
        run_cycles delivering (quoting 60000) three_runs (holding [btc_to_60000]) t0 in
      alert_at 42 0 (priceAlerts st) = Some (trigger btc_to_60000 (t0 + 30000) 60000)
      /\ length (visits_of 42 0 seen) = 1%nat
      /\ notifications 42 0 seen = 1%nat).
Proof. vm_compute. repeat split. Qed.

(** The crossing rule at a sample: the alert for 60000 set at 50000 sees
    60000. *)
Lemma crossing_rule_witness :
  quoting 60000 (Alert.symbol btc_to_60000) true t0
  = (Return (Some (PriceFeeds.Bare (quote 60000))), t0)
  /\ (let '(alert', _, log) :=
        checkAlert delivering (quoting 60000) 42 true btc_to_60000 t0 in
      Alert.status alert' = triggered).
Proof.
  assert (Hq : quoting 60000 (Alert.symbol btc_to_60000) true t0
               = (Return (Some (PriceFeeds.Bare (quote 60000))), t0)) by reflexivity.
  split; [exact Hq|].
  pose proof (crossing_rule delivering (quoting 60000) 42 true btc_to_60000 t0 t0
                (PriceFeeds.Bare (quote 60000)) Hq) as H.
  destruct (checkAlert _ _ _ _ _ _) as [[alert' w'] log].
  destruct H as [Hyes _]. apply Hyes. left. split.
  - vm_compute. reflexivity.
  - vm_compute. discriminate.
Defined.

(** An alert whose target is the price it was set at is still active, and
    nothing has been sent, after a run that sees that very price, and after
    runs that see a higher and a lower one. *)
Lemma equal_target_never_triggers :
  Alert.targetPrice btc_to_50000 = Alert.currentPrice btc_to_50000
  /\ Forall (fun p =>
       let c := checkAlerts delivering (quoting p) [] (holding [btc_to_50000]) t0 in
       alert_at 42 0 (priceAlerts (state c)) = Some btc_to_50000
       /\ Alert.status btc_to_50000 = active
       /\ visits c = [{| chat := 42; slot := 0; sends := [] |}])
     [50000; 60000; 40000]%Q.
Proof. split; [reflexivity|]. repeat constructor. Qed.

End AlertCases.

(** * Further properties *)

Ltac conjs := repeat match goal with |- _ /\ _ => split end.

(** ** [getTimeAgo] and [getTimeAgoShort] *)

Section TimeAgo.
Import Helpers.

Lemma whole_units (elapsed : Z) :
  elapsed / (1000 * 60) / 60 = elapsed / 3600000
  /\ elapsed / (1000 * 60) / 60 / 24 = elapsed / 86400000.
Proof.
  change (1000 * 60) with 60000. split.
  - rewrite Z.div_div by lia. reflexivity.
  - rewrite !Z.div_div by lia. reflexivity.
Qed.

Lemma positive_quotient (elapsed unit : Z) :
  0 < unit -> (0 <? elapsed / unit) = (unit <=? elapsed).
Proof.
  intros Hunit. destruct (Z.leb_spec unit elapsed) as [Hle|Hlt].
  - apply Z.ltb_lt. apply Z.div_str_pos. lia.
  - apply Z.ltb_ge.
    destruct (Z.le_gt_cases 0 elapsed) as [Hpos|Hneg].
    + rewrite Z.div_small by lia. lia.
    + pose proof (Z.div_lt_upper_bound elapsed unit 0 Hunit). lia.
Qed.

Lemma getTimeAgo_by_elapsed now date :
  getTimeAgo now (Some date)
  = if 86400000 <=? now - date
    then Number_toString ((now - date) / 86400000) ++ js "d ago"
    else if 3600000 <=? now - date
    then Number_toString ((now - date) / 3600000) ++ js "h ago"
    else if 60000 <=? now - date
    then Number_toString ((now - date) / 60000) ++ js "m ago"
    else js "just now".
Proof.
  unfold getTimeAgo.
  destruct (whole_units (now - date)) as [Hh Hd]. rewrite Hd, Hh.
  change (1000 * 60) with 60000.
  now rewrite !positive_quotient by lia.
Qed.

(** X1. [getTimeAgo] shows the whole days elapsed once a day has passed,
    else the whole hours once an hour has passed, else the whole minutes once
    a minute has passed, else [just now]; a date in the future also gives
    [just now]. *)
Theorem getTimeAgo_units now date :
  let elapsed := now - date in
  getTimeAgo now (Some date)
  = if 86400000 <=? elapsed
    then Number_toString (elapsed / 86400000) ++ js "d ago"
    else if 3600000 <=? elapsed
    then Number_toString (elapsed / 3600000) ++ js "h ago"
    else if 60000 <=? elapsed
    then Number_toString (elapsed / 60000) ++ js "m ago"
    else js "just now".
Proof. intros elapsed. apply getTimeAgo_by_elapsed. Qed.

(** X2. [getTimeAgoShort] never shows days: from one hour on it shows the
    whole hours elapsed, however many; it says what [getTimeAgo] says as
    long as less than a day has passed. *)
Theorem getTimeAgoShort_units now date :
  let elapsed := now - date in
  getTimeAgoShort now (Some date)
  = (if 3600000 <=? elapsed
     then Number_toString (elapsed / 3600000) ++ js "h ago"
     else if 60000 <=? elapsed
     then Number_toString (elapsed / 60000) ++ js "m ago"
     else js "just now")
  /\ (elapsed < 86400000 ->
      getTimeAgoShort now (Some date) = getTimeAgo now (Some date)).
Proof.
  intros elapsed.
  assert (Hshort : getTimeAgoShort now (Some date)
                   = if 3600000 <=? elapsed
                     then Number_toString (elapsed / 3600000) ++ js "h ago"
                     else if 60000 <=? elapsed
                     then Number_toString (elapsed / 60000) ++ js "m ago"
                     else js "just now").
  { unfold getTimeAgoShort. fold elapsed.
    destruct (whole_units elapsed) as [Hh _]. rewrite Hh.
    change (1000 * 60) with 60000.
    now rewrite !positive_quotient by lia. }
  split; [exact Hshort|].
  intros Hday. rewrite Hshort, getTimeAgo_by_elapsed. fold elapsed.
  destruct (Z.leb_spec 86400000 elapsed); [lia|reflexivity].
Qed.

End TimeAgo.

(** ** More on the cached price resolver *)

Section ResolverMore.
Import PriceFeeds.
Variable cfg : Config.

(** Where the resolver goes when neither a fresh realtime entry nor the
    backoff gate answers. *)
Lemma past_the_gates net now st symbol forceRefresh :
  (forall realtimeData,
      JsMap.get (toUpperCase symbol) (realtimePrices st) = Some realtimeData ->
      PRICE_FRESHNESS_WINDOW cfg <= now - timestamp realtimeData) ->
  RATE_LIMIT_BACKOFF cfg <= now - lastRateLimitTime st ->
  getCachedCryptoData cfg net now st symbol forceRefresh
  = match (if forceRefresh then None
           else match priceCache st !! toLowerCase symbol with
                | Some cachedData =>
                    if now - timestamp cachedData <? CACHE_DURATION cfg
                    then Some cachedData else None
                | None => None
                end) with
    | Some cachedData =>
        {| completion := Return (Some (Stamped cachedData));
           store := st; requests := [] |}
    | None =>
        cold_fetch cfg net now st symbol (toLowerCase symbol) (toUpperCase symbol)
    end.
Proof.
  intros Hstale Hopen. apply Z.ltb_ge in Hopen.
  unfold getCachedCryptoData.
  destruct (JsMap.get (toUpperCase symbol) (realtimePrices st)) as [r|] eqn:Hrt.
  - specialize (Hstale r eq_refl). apply Z.ltb_ge in Hstale.
    now rewrite Hstale, Hopen.
  - now rewrite Hopen.
Qed.

(** The cold fetch sends one request for the id of the symbol. *)
Lemma cold_fetch_requests net now st symbol cacheKey symbolUpper :
  requests (cold_fetch cfg net now st symbol cacheKey symbolUpper)
  = [getCoinGeckoId symbol (SYMBOL_MAP cfg)].
Proof.
  unfold cold_fetch. destruct (getCryptoData cfg net symbol) as [[d|]|e];
    [reflexivity..|].
  now destruct (on_fetch_error now st cacheKey symbolUpper e).
Qed.

End ResolverMore.

Section ResolverExtras.
Import PriceFeeds Samples MoreSamples.

(** X3. Past the realtime fast path and the backoff gate, a call without
    [forceRefresh] is served from the cache exactly as long as the entry is
    younger than [CACHE_DURATION]: then the entry is returned, nothing is
    written and no request is sent; from the age [CACHE_DURATION] on, one
    request goes upstream. *)
Theorem warm_cache_until_ttl cfg net now st symbol cachedData :
  (forall realtimeData,
      JsMap.get (toUpperCase symbol) (realtimePrices st) = Some realtimeData ->
      PRICE_FRESHNESS_WINDOW cfg <= now - timestamp realtimeData) ->
  RATE_LIMIT_BACKOFF cfg <= now - lastRateLimitTime st ->
  priceCache st !! toLowerCase symbol = Some cachedData ->
  let out := getCachedCryptoData cfg net now st symbol false in
  (now - timestamp cachedData < CACHE_DURATION cfg ->
   out = {| completion := Return (Some (Stamped cachedData));
            store := st; requests := [] |})
  /\ (CACHE_DURATION cfg <= now - timestamp cachedData ->
      requests out = [getCoinGeckoId symbol (SYMBOL_MAP cfg)]).
Proof.
  intros Hstale Hopen Hcached out. unfold out.
  rewrite (past_the_gates cfg net now st symbol false Hstale Hopen), Hcached.
  split; intros Hage.
  - apply Z.ltb_lt in Hage. now rewrite Hage.
  - apply Z.ltb_ge in Hage. rewrite Hage. apply cold_fetch_requests.
Qed.

Lemma warm_cache_until_ttl_witness :
  (forall realtimeData,
      JsMap.get (toUpperCase (js "BTC")) (realtimePrices warm_cache)
      = Some realtimeData ->
      PRICE_FRESHNESS_WINDOW config_example <= t0 - timestamp realtimeData)
  /\ RATE_LIMIT_BACKOFF config_example <= t0 - lastRateLimitTime warm_cache
  /\ priceCache warm_cache !! toLowerCase (js "BTC") = Some warm_btc
  /\ getCachedCryptoData config_example rate_limiting t0 warm_cache (js "BTC") false
     = {| completion := Return (Some (Stamped warm_btc));
          store := warm_cache; requests := [] |}.
Proof.
  assert (H1 : forall realtimeData,
             JsMap.get (toUpperCase (js "BTC")) (realtimePrices warm_cache)
             = Some realtimeData ->
             PRICE_FRESHNESS_WINDOW config_example <= t0 - timestamp realtimeData).
  { intros r Hr. discriminate Hr. }
  assert (H2 : RATE_LIMIT_BACKOFF config_example
               <= t0 - lastRateLimitTime warm_cache).
  { vm_compute. discriminate. }
  assert (H3 : priceCache warm_cache !! toLowerCase (js "BTC") = Some warm_btc)
    by reflexivity.
  split; [exact H1|]. split; [exact H2|]. split; [exact H3|].
  apply (warm_cache_until_ttl config_example rate_limiting t0 warm_cache
           (js "BTC") warm_btc H1 H2 H3).
  reflexivity.
Defined.

(** X4. Past the realtime fast path and the backoff gate, a call with
    [forceRefresh] sends exactly one request, for the id of the symbol,
    whatever the cache holds; when the body has the id, the call returns the
    bare data (the price of the body, the 24h change as the text
    [toFixed(2)] gives, or ['N/A'] without one, market cap and volume with
    ['N/A'] for a missing or zero one), and the cache entry of the symbol is
    overwritten with them, stamped with the time of the call and the source
    [coingecko]. *)
Theorem forced_refresh_goes_upstream cfg net now st symbol :
  (forall realtimeData,
      JsMap.get (toUpperCase symbol) (realtimePrices st) = Some realtimeData ->
      PRICE_FRESHNESS_WINDOW cfg <= now - timestamp realtimeData) ->
  RATE_LIMIT_BACKOFF cfg <= now - lastRateLimitTime st ->
  let out := getCachedCryptoData cfg net now st symbol true in
  let ids := getCoinGeckoId symbol (SYMBOL_MAP cfg) in
  requests out = [ids]
  /\ (forall body entry,
         net ids = Resolved (Some body) -> body !! ids = Some entry ->
         let freshData :=
           {| price := usd entry;
              change24h :=
                match usd_24h_change entry with
                | Some change => Float64.toFixed2 (Float64.of_Q change)
                | None => js "N/A"
                end;
              marketCap :=
                match usd_market_cap entry with
                | Some cap => if Qeq_bool cap 0 then None else Some cap
                | None => None
                end;
              volume24h :=
                match usd_24h_vol entry with
                | Some vol => if Qeq_bool vol 0 then None else Some vol
                | None => None
                end |} in
         completion out = Return (Some (Bare freshData))
         /\ priceCache (store out) !! toLowerCase symbol
            = Some {| data := freshData; timestamp := now; source := coingecko |}).
Proof.
  intros Hstale Hopen out ids. unfold out.
  rewrite (past_the_gates cfg net now st symbol true Hstale Hopen).
  split; [apply cold_fetch_requests|].
  intros body entry Hnet Hentry.
  unfold cold_fetch, getCryptoData, getCryptoData_try, try_catch, bind.
  fold ids. rewrite Hnet, Hentry. cbn. split; [reflexivity|].
  apply lookup_insert_eq.
Qed.

Lemma forced_refresh_goes_upstream_witness :
  (forall realtimeData,
      JsMap.get (toUpperCase (js "BTC")) (realtimePrices warm_cache)
      = Some realtimeData ->
      PRICE_FRESHNESS_WINDOW config_example <= t0 - timestamp realtimeData)
  /\ RATE_LIMIT_BACKOFF config_example <= t0 - lastRateLimitTime warm_cache
  /\ (let out := getCachedCryptoData config_example knows_bitcoin t0 warm_cache
                   (js "BTC") true in
      requests out = [js "bitcoin"]
      /\ completion out
         = Return (Some (Bare {| price := 51000; change24h := js "1.00";
                                 marketCap := Some 1000000%Q;
                                 volume24h := None |}))).
Proof.
  assert (H1 : forall realtimeData,
             JsMap.get (toUpperCase (js "BTC")) (realtimePrices warm_cache)
             = Some realtimeData ->
             PRICE_FRESHNESS_WINDOW config_example <= t0 - timestamp realtimeData).
  { intros r Hr. discriminate Hr. }
  assert (H2 : RATE_LIMIT_BACKOFF config_example
               <= t0 - lastRateLimitTime warm_cache).
  { vm_compute. discriminate. }
  split; [exact H1|]. split; [exact H2|].
  destruct (forced_refresh_goes_upstream config_example knows_bitcoin t0
              warm_cache (js "BTC") H1 H2) as [Hreq Hdata].
  split; [exact Hreq|].
  exact (proj1 (Hdata {[ js "bitcoin" := bitcoin_entry ]} bitcoin_entry
                  eq_refl eq_refl)).
Defined.

(** X5. A call changes nothing but the cache entry of the symbol: the
    realtime table and every other cache entry are as before; it sends at
    most one request (there is no retry), and a call that sends none leaves
    the whole state as it was. *)
Theorem resolver_frame cfg net now st symbol forceRefresh :
  let out := getCachedCryptoData cfg net now st symbol forceRefresh in
  realtimePrices (store out) = realtimePrices st
  /\ (forall key, key <> toLowerCase symbol ->
                  priceCache (store out) !! key = priceCache st !! key)
  /\ (length (requests out) <= 1)%nat
  /\ (requests out = [] -> store out = st).
Proof.
  cbn zeta. unfold getCachedCryptoData.
  assert (Hcold :
    let out := cold_fetch cfg net now st symbol (toLowerCase symbol)
                 (toUpperCase symbol) in
    realtimePrices (store out) = realtimePrices st
    /\ (forall key, key <> toLowerCase symbol ->
                    priceCache (store out) !! key = priceCache st !! key)
    /\ (length (requests out) <= 1)%nat
    /\ (requests out = [] -> store out = st)).
  { cbn zeta. unfold cold_fetch.
    destruct (getCryptoData_returns cfg net symbol) as [[d|] ->]; cbn.
    - split; [reflexivity|].
      split; [intros key Hkey; now apply lookup_insert_ne|].
      split; [lia|discriminate].
    - split; [reflexivity|]. split; [reflexivity|]. split; [lia|discriminate]. }
  repeat match goal with
         | |- context [match ?x with _ => _ end] => destruct x; try exact Hcold
         end; cbn; auto.
Qed.

End ResolverExtras.

Section ResolverRoundTrip.
Import PriceFeeds Samples MoreSamples.

(** X6. What a cold fetch has brought is served again: after a call that
    went upstream and found the id in the body, a later call without
    [forceRefresh] made less than [CACHE_DURATION] after the first (and not
    answered by a fresh realtime entry) returns the data the first call
    returned, now as the cache entry stamped with the time of the first call
    and the source [coingecko], without a request, whether or not the
    backoff gate is closed by then; the price is the one of the body. *)
Theorem fetched_price_is_served_again cfg net net' now now' st symbol forceRefresh
    body entry :
  (forall realtimeData,
      JsMap.get (toUpperCase symbol) (realtimePrices st) = Some realtimeData ->
      PRICE_FRESHNESS_WINDOW cfg <= now - timestamp realtimeData
      /\ PRICE_FRESHNESS_WINDOW cfg <= now' - timestamp realtimeData) ->
  RATE_LIMIT_BACKOFF cfg <= now - lastRateLimitTime st ->
  (forceRefresh = true
   \/ forall cachedData, priceCache st !! toLowerCase symbol = Some cachedData ->
                         CACHE_DURATION cfg <= now - timestamp cachedData) ->
  net (getCoinGeckoId symbol (SYMBOL_MAP cfg)) = Resolved (Some body) ->
  body !! getCoinGeckoId symbol (SYMBOL_MAP cfg) = Some entry ->
  now' - now < CACHE_DURATION cfg ->
  let first := getCachedCryptoData cfg net now st symbol forceRefresh in
  let again := getCachedCryptoData cfg net' now' (store first) symbol false in
  let freshData :=
    {| price := usd entry;
       change24h :=
         match usd_24h_change entry with
         | Some change => Float64.toFixed2 (Float64.of_Q change)
         | None => js "N/A"
         end;
       marketCap :=
         match usd_market_cap entry with
         | Some cap => if Qeq_bool cap 0 then None else Some cap
         | None => None
         end;
       volume24h :=
         match usd_24h_vol entry with
         | Some vol => if Qeq_bool vol 0 then None else Some vol
         | None => None
         end |} in
  completion first = Return (Some (Bare freshData))
  /\ again = {| completion :=
                  Return (Some (Stamped {| data := freshData; timestamp := now;
                                           source := coingecko |}));
                store := store first; requests := [] |}.
Proof.
  intros Hstale Hopen Hcold Hnet Hentry Hsoon first again freshData.
  unfold again. clear again.
  assert (Hfirst : first
    = {| completion := Return (Some (Bare freshData));
         store := {| realtimePrices := realtimePrices st;
                     priceCache :=
                       <[toLowerCase symbol :=
                           {| data := freshData; timestamp := now;
                              source := coingecko |}]> (priceCache st);
                     lastRateLimitTime := lastRateLimitTime st |};
         requests := [getCoinGeckoId symbol (SYMBOL_MAP cfg)] |}).
  { unfold first. rewrite past_the_gates; [|intros r Hr; apply (Hstale r Hr)|exact Hopen].
    assert (Hwarm : (if forceRefresh then None
                     else match priceCache st !! toLowerCase symbol with
                          | Some cachedData =>
                              if now - timestamp cachedData <? CACHE_DURATION cfg
                              then Some cachedData else None
                          | None => None
                          end) = None).
    { destruct forceRefresh; [reflexivity|].
      destruct Hcold as [Hforce|Hold]; [discriminate|].
      destruct (priceCache st !! toLowerCase symbol) as [c|]; [|reflexivity].
      specialize (Hold c eq_refl). apply Z.ltb_ge in Hold. now rewrite Hold. }
    rewrite Hwarm.
    unfold cold_fetch, getCryptoData, getCryptoData_try, try_catch, bind.
    now rewrite Hnet, Hentry. }
  split; [now rewrite Hfirst|].
  rewrite Hfirst. cbn [store]. unfold getCachedCryptoData.
  cbn [realtimePrices priceCache lastRateLimitTime].
  rewrite lookup_insert_eq. apply Z.ltb_lt in Hsoon.
  assert (Hrt : match JsMap.get (toUpperCase symbol) (realtimePrices st) with
                | Some realtimeData =>
                    if now' - timestamp realtimeData <? PRICE_FRESHNESS_WINDOW cfg
                    then Some realtimeData else None
                | None => None
                end = None).
  { destruct (JsMap.get (toUpperCase symbol) (realtimePrices st)) as [r|] eqn:Hr;
      [|reflexivity].
    destruct (Hstale r eq_refl) as [_ Hlater]. apply Z.ltb_ge in Hlater.
    now rewrite Hlater. }
  rewrite Hrt.
  destruct (now' - lastRateLimitTime st <? RATE_LIMIT_BACKOFF cfg); [reflexivity|].
  cbn [timestamp]. now rewrite Hsoon.
Qed.

Lemma fetched_price_is_served_again_witness :
  let first := getCachedCryptoData config_example knows_bitcoin t0 only_stale_cache
                 (js "BTC") false in
  let freshData :=
    {| price := 51000; change24h := js "1.00"; marketCap := Some 1000000%Q;
       volume24h := None |} in
  completion first = Return (Some (Bare freshData))
  /\ getCachedCryptoData config_example rate_limiting (t0 + 100000) (store first)
       (js "btc") false
     = {| completion :=
            Return (Some (Stamped {| data := freshData;
                                     timestamp := t0; source := coingecko |}));
          store := store first; requests := [] |}.
Proof.
  apply (fetched_price_is_served_again config_example knows_bitcoin
           rate_limiting t0 (t0 + 100000) only_stale_cache (js "BTC") false
           {[ js "bitcoin" := bitcoin_entry ]} bitcoin_entry).
  - intros r Hr. discriminate Hr.
  - vm_compute. discriminate.
  - right. intros c Hc. vm_compute in Hc. injection Hc as <-. vm_compute. discriminate.
  - reflexivity.
  - reflexivity.
  - reflexivity.
Defined.

End ResolverRoundTrip.

(** ** More on the auto-volatility evaluator *)

Section VolatilityMore.
Import Alerts.
Context {W : Type} {host : Host W}.
Variable bot : Bot W.

(** What one run of the body changes. *)
Lemma checkSymbol_frame aa symbol currentData (w : W) :
  let '(aa', _, log) := checkSymbol bot aa symbol currentData w in
  enabled aa' = enabled aa /\ cooldown aa' = cooldown aa
  /\ threshold aa' = threshold aa
  /\ (forall s, s <> symbol -> baselines aa' !! s = baselines aa !! s)
  /\ is_Some (baselines aa' !! symbol)
  /\ (forall b, baselines aa !! symbol = Some b ->
                exists b', baselines aa' !! symbol = Some b'
                           /\ Baseline.price b' = Baseline.price b
                           /\ Baseline.timestamp b' = Baseline.timestamp b)
  /\ Forall (fun s => to s ∈ Commands.recipients (enabled aa)) log.
Proof.
  unfold checkSymbol.
  destruct (baselines aa !! symbol) as [baseline|] eqn:Hb.
  - destruct (_ && _).
    + pose proof (broadcast_log bot (enabled aa)
                    (volatility_message symbol
                       (PriceFeeds.price (PriceFeeds.data currentData)) baseline) w)
        as [Hto _].
      destruct (broadcast _ _ _ _) as [w1 log]. cbn in *.
      conjs; try reflexivity.
      * intros s Hs. now apply lookup_insert_ne.
      * rewrite lookup_insert_eq. eauto.
      * intros b [= <-]. rewrite lookup_insert_eq. eauto.
      * apply Forall_forall. intros s Hs. rewrite <- Hto.
        apply list_elem_of_fmap. eauto.
    + conjs; try reflexivity.
      * rewrite Hb. eauto.
      * intros b [= <-]. eauto.
      * constructor.
  - cbn. conjs; try reflexivity.
    + intros s Hs. now apply lookup_insert_ne.
    + rewrite lookup_insert_eq. eauto.
    + intros b Hb'. discriminate.
    + constructor.
Qed.

Lemma keys_get {V : Type} (s : jsstring) (m : JsMap.t V) :
  s ∈ JsMap.keys m -> is_Some (JsMap.get s m).
Proof.
  unfold JsMap.keys. induction m as [|[k v] m IH]; cbn; intros Hs.
  - inversion Hs.
  - destruct (decide (k = s)); [eauto|].
    apply IH. apply elem_of_cons in Hs as [Hs|Hs]; [congruence|exact Hs].
Qed.

Lemma volatility_loop_frame trackedSymbols realtimePrices aa (w : W) :
  (forall s, s ∈ trackedSymbols -> s ∈ JsMap.keys realtimePrices) ->
  let '(aa', _, log) := volatility_loop bot trackedSymbols realtimePrices aa w in
  enabled aa' = enabled aa /\ cooldown aa' = cooldown aa
  /\ threshold aa' = threshold aa
  /\ (forall s, s ∉ trackedSymbols -> baselines aa' !! s = baselines aa !! s)
  /\ (forall s, s ∈ trackedSymbols -> is_Some (baselines aa' !! s))
  /\ (forall s b, baselines aa !! s = Some b ->
                  exists b', baselines aa' !! s = Some b'
                             /\ Baseline.price b' = Baseline.price b
                             /\ Baseline.timestamp b' = Baseline.timestamp b)
  /\ Forall (fun s => to s ∈ Commands.recipients (enabled aa)) log.
Proof.
  revert aa w. induction trackedSymbols as [|symbol rest IH]; intros aa w Hin.
  { cbn. conjs; try reflexivity; [intros s Hs; inversion Hs|eauto|constructor]. }
  cbn [volatility_loop].
  destruct (keys_get symbol realtimePrices) as [currentData ->];
    [apply Hin; now left|].
  pose proof (checkSymbol_frame aa symbol currentData w) as Hstep.
  destruct (checkSymbol bot aa symbol currentData w) as [[aa1 w1] log1].
  destruct Hstep as (He & Hc & Ht & Hother & Hsome & Hseed & Hto).
  specialize (IH aa1 w1).
  destruct (volatility_loop bot rest realtimePrices aa1 w1) as [[aa2 w2] log2].
  destruct IH as (He2 & Hc2 & Ht2 & Hother2 & Hsome2 & Hseed2 & Hto2).
  { intros s Hs. apply Hin. now right. }
  assert (Hkept : forall s b, baselines aa !! s = Some b ->
            exists b', baselines aa1 !! s = Some b'
                       /\ Baseline.price b' = Baseline.price b
                       /\ Baseline.timestamp b' = Baseline.timestamp b).
  { intros s b Hb. destruct (decide (s = symbol)) as [->|Hne]; [now apply Hseed|].
    exists b. rewrite (Hother s Hne). auto. }
  split; [congruence|]. split; [congruence|]. split; [congruence|].
  split.
  { intros s Hs. apply not_elem_of_cons in Hs as [Hne Hs].
    rewrite (Hother2 s Hs). now apply Hother. }
  split.
  { intros s Hs. destruct (decide (s ∈ rest)) as [Hr|Hr]; [now apply Hsome2|].
    apply elem_of_cons in Hs as [->|Hs]; [|contradiction].
    rewrite (Hother2 symbol Hr). exact Hsome. }
  split.
  { intros s b Hb. destruct (Hkept s b Hb) as (b1 & Hb1 & Hp1 & Ht1).
    destruct (Hseed2 s b1 Hb1) as (b2 & Hb2 & Hp2 & Ht2').
    exists b2. split; [exact Hb2|]. split; congruence. }
  apply Forall_app. split; [exact Hto|]. now rewrite He in Hto2.
Qed.

(** X7. Every chat whose flag is set gets one attempt per alert, in
    [for...in] order and with the same message, whether or not earlier
    attempts were rejected; the chats whose flag is off get none. *)
Theorem broadcast_reaches_every_subscriber (chats : list (Z * bool)) message (w : W) :
  map to (snd (broadcast bot chats message w)) = Commands.recipients chats
  /\ Forall (fun s => notice s = message) (snd (broadcast bot chats message w)).
Proof. apply broadcast_log. Qed.

(** X8. A pass of [checkAutoVolatilityAlerts] leaves the subscriptions, the
    threshold and the cooldown alone, and the baselines of the symbols that
    are not in the realtime table; afterwards every symbol of the table has a
    baseline; the [price] and [timestamp] a baseline was seeded with are
    never rewritten; and every message of the pass goes to a subscribed
    chat. *)
Theorem volatility_pass_frame realtimePrices aa (w : W) :
  let '(aa', _, log) := checkAutoVolatilityAlerts bot realtimePrices aa w in
  enabled aa' = enabled aa /\ cooldown aa' = cooldown aa
  /\ threshold aa' = threshold aa
  /\ (forall s, s ∉ JsMap.keys realtimePrices ->
                baselines aa' !! s = baselines aa !! s)
  /\ (forall s, s ∈ JsMap.keys realtimePrices -> is_Some (baselines aa' !! s))
  /\ (forall s b, baselines aa !! s = Some b ->
                  exists b', baselines aa' !! s = Some b'
                             /\ Baseline.price b' = Baseline.price b
                             /\ Baseline.timestamp b' = Baseline.timestamp b)
  /\ Forall (fun s => to s ∈ Commands.recipients (enabled aa)) log.
Proof.
  unfold checkAutoVolatilityAlerts. now apply volatility_loop_frame.
Qed.

End VolatilityMore.

(** ** More on the manual alerts *)

Section ManualMore.
Import Alerts.
Context {W : Type} {host : Host W}.
Variable bot : Bot W.
Variable resolver : Resolver W.

(** The body leaves the object as it was or marks it as triggered at a
    price that satisfies the crossing rule; what it sends goes to the chat
    of the alert and shows that object, with the trend the rule was
    satisfied on. *)
Lemma checkAlert_result chatId last alert (w : W) :
  let '(alert', _, log) := checkAlert bot resolver chatId last alert w in
  (alert' = alert /\ log = [])
  \/ (exists now p ok,
         shouldTrigger alert p = true
         /\ alert' = trigger alert now p
         /\ log = [{| to := chatId;
                      notice :=
                        TargetHit alert'
                          (if Qltb (Alert.currentPrice alert) (Alert.targetPrice alert)
                           then upward else downward);
                      delivered := ok |}]).
Proof.
  unfold checkAlert.
  destruct (resolver _ _ _) as [[[currentData|]|e] w1]; auto.
  destruct (shouldTrigger _ _) eqn:Hrule; auto.
  destruct (sendMessage _ _ _ _) as [ok w3]. right.
  exists (Date_now w1), (PriceFeeds.answer_price currentData), ok. auto.
Qed.

Lemma active_slots_bound from alerts :
  Forall (fun ref => (ref < from + length alerts)%nat) (active_slots from alerts).
Proof.
  apply Forall_forall. intros ref Href. apply active_slots_spec in Href.
  destruct Href as (Hle & a & Ha & _). apply lookup_lt_Some in Ha. cbn. lia.
Qed.

(** The inner loop visits its references in order, one visit each. *)
Lemma alerts_loop_visits chatId refs alerts (w : W) :
  Forall (fun ref => (ref < length alerts)%nat) refs ->
  let '(_, _, log) := alerts_loop bot resolver chatId refs alerts w in
  map (fun v => (chat v, slot v)) log = map (pair chatId) refs.
Proof.
  revert alerts w. induction refs as [|ref rest IH]; intros alerts w Hrefs;
    [reflexivity|].
  apply Forall_cons in Hrefs as [Href Hrest].
  cbn [alerts_loop]. destruct (lookup_lt_is_Some_2 alerts ref Href) as [alert ->].
  destruct (checkAlert _ _ _ _ _ _) as [[alert' w1] log1].
  specialize (IH (<[ref := alert']> alerts) w1).
  destruct (alerts_loop _ _ _ _ _ _) as [[alerts2 w2] log2].
  cbn. rewrite IH; [reflexivity|]. now rewrite length_insert.
Qed.

(** What the inner loop does to each position and what it sends. *)
Lemma alerts_loop_result chatId refs alerts (w : W) :
  NoDup refs ->
  let '(alerts', _, log) := alerts_loop bot resolver chatId refs alerts w in
  (forall i, match alerts !! i with
             | None => alerts' !! i = None
             | Some a =>
                 alerts' !! i = Some a
                 \/ (i ∈ refs
                     /\ exists now p, shouldTrigger a p = true
                                      /\ alerts' !! i = Some (trigger a now p))
             end)
  /\ Forall (fun v =>
       Forall (fun s =>
         to s = chat v
         /\ exists a p,
              notice s = TargetHit a
                           (if Qltb (Alert.currentPrice a) (Alert.targetPrice a)
                            then upward else downward)
              /\ Alert.status a = triggered
              /\ Alert.triggerPrice a = Some p
              /\ shouldTrigger a p = true) (sends v)) log.
Proof.
  revert alerts w. induction refs as [|ref rest IH]; intros alerts w Hnd.
  { cbn. split; [|constructor]. intros i. destruct (alerts !! i); auto. }
  apply NoDup_cons in Hnd as [Hfresh Hnd].
  cbn [alerts_loop]. destruct (alerts !! ref) as [alert|] eqn:Hlook.
  - pose proof (checkAlert_result chatId
                  (match rest with [] => true | _ => false end) alert w) as Hbody.
    destruct (checkAlert _ _ _ _ _ _) as [[alert' w1] log1].
    pose proof (alerts_loop_spec bot resolver chatId rest
                  (<[ref := alert']> alerts) w1 Hnd) as Hframe.
    specialize (IH (<[ref := alert']> alerts) w1 Hnd).
    destruct (alerts_loop _ _ _ _ _ _) as [[alerts2 w2] log2].
    destruct Hframe as (_ & _ & Hsame & _). destruct IH as [Hpos Hlog].
    assert (Href : (ref < length alerts)%nat) by now apply lookup_lt_Some in Hlook.
    split.
    + intros i. specialize (Hpos i).
      destruct (decide (i = ref)) as [->|Hne].
      * rewrite Hlook. rewrite (Hsame ref Hfresh).
        rewrite list_lookup_insert_eq by exact Href.
        destruct Hbody as [[-> _]|(now & p & ok & Hrule & -> & _)]; [now left|].
        right. split; [now left|eauto].
      * rewrite list_lookup_insert_ne in Hpos by congruence.
        destruct (alerts !! i) as [a|]; [|exact Hpos].
        destruct Hpos as [Hpos|(Hin & Hpos)]; [now left|].
        right. split; [now right|exact Hpos].
    + constructor; [|exact Hlog]. cbn.
      destruct Hbody as [[_ ->]|(now & p & ok & Hrule & -> & ->)]; [constructor|].
      constructor; [|constructor]. cbn. split; [reflexivity|].
      exists (trigger alert now p), p. cbn. auto.
  - specialize (IH alerts w Hnd).
    destruct (alerts_loop _ _ _ _ _ _) as [[alerts2 w2] log2].
    destruct IH as [Hpos Hlog]. split; [|exact Hlog].
    intros i. specialize (Hpos i). destruct (alerts !! i) as [a|]; [|exact Hpos].
    destruct Hpos as [Hpos|(Hin & Hpos)]; [now left|].
    right. split; [now right|exact Hpos].
Qed.

(** A resolver that never returns data makes the inner loop a no-op. *)
Lemma alerts_loop_skips chatId refs alerts (w : W) :
  (forall symbol w0 answer, fst (resolver symbol true w0) <> Return (Some answer)) ->
  let '(alerts', _, log) := alerts_loop bot resolver chatId refs alerts w in
  alerts' = alerts /\ Forall (fun v => sends v = []) log.
Proof.
  intros Hnone. revert alerts w.
  induction refs as [|ref rest IH]; intros alerts w; [now split|].
  cbn [alerts_loop]. destruct (alerts !! ref) as [alert|] eqn:Hlook; [|apply IH].
  assert (Hbody : checkAlert bot resolver chatId
                    (match rest with [] => true | _ => false end) alert w
                  = (alert, snd (resolver (Alert.symbol alert) true w), [])).
  { unfold checkAlert. specialize (Hnone (Alert.symbol alert) w).
    destruct (resolver _ _ _) as [[[answer|]|e] w1]; try reflexivity.
    exfalso. now apply (Hnone answer). }
  rewrite Hbody, (list_insert_id _ _ _ Hlook).
  specialize (IH alerts (snd (resolver (Alert.symbol alert) true w))).
  destruct (alerts_loop _ _ _ _ _ _) as [[alerts2 w2] log2].
  destruct IH as [-> Hlog]. split; [reflexivity|]. now constructor.
Qed.

End ManualMore.

Section ManualExtras.
Import Alerts Samples MoreSamples.


End ManualExtras.

Section ManualPass.
Import Alerts Samples MoreSamples.
Context {W : Type} {host : Host W}.
Variable bot : Bot W.
Variable resolver : Resolver W.

Lemma chats_loop_skips priceAlerts (w : W) :
  (forall symbol w0 answer, fst (resolver symbol true w0) <> Return (Some answer)) ->
  let '(priceAlerts', _, log) := chats_loop bot resolver priceAlerts w in
  priceAlerts' = priceAlerts /\ Forall (fun v => sends v = []) log.
Proof.
  intros Hnone. revert w.
  induction priceAlerts as [|[chatId alerts] rest IH]; intros w; [now split|].
  cbn [chats_loop].
  pose proof (alerts_loop_skips bot resolver chatId (active_slots 0 alerts)
                alerts w Hnone) as Hinner.
  destruct (alerts_loop _ _ _ _ _ _) as [[alerts' w1] log1].
  destruct Hinner as [-> Hlog1]. specialize (IH w1).
  destruct (chats_loop _ _ _ _) as [[rest' w2] log2].
  destruct IH as [-> Hlog2]. split; [reflexivity|]. now apply Forall_app.
Qed.

Lemma chats_loop_messages priceAlerts (w : W) :
  let '(_, _, log) := chats_loop bot resolver priceAlerts w in
  Forall (fun v =>
    Forall (fun s =>
      to s = chat v
      /\ exists a p,
           notice s = TargetHit a
                        (if Qltb (Alert.currentPrice a) (Alert.targetPrice a)
                         then upward else downward)
           /\ Alert.status a = triggered
           /\ Alert.triggerPrice a = Some p
           /\ shouldTrigger a p = true) (sends v)) log.
Proof.
  revert w. induction priceAlerts as [|[chatId alerts] rest IH]; intros w;
    [constructor|].
  cbn [chats_loop].
  pose proof (alerts_loop_result bot resolver chatId (active_slots 0 alerts)
                alerts w (active_slots_NoDup 0 alerts)) as Hinner.
  destruct (alerts_loop _ _ _ _ _ _) as [[alerts' w1] log1].
  destruct Hinner as [_ Hlog1]. specialize (IH w1).
  destruct (chats_loop _ _ _ _) as [[rest' w2] log2].
  now apply Forall_app.
Qed.

Lemma chats_loop_visits priceAlerts (w : W) :
  let '(_, _, log) := chats_loop bot resolver priceAlerts w in
  map (fun v => (chat v, slot v)) log
  = flat_map (fun e => map (pair (fst e)) (active_slots 0 (snd e))) priceAlerts.
Proof.
  revert w. induction priceAlerts as [|[chatId alerts] rest IH]; intros w;
    [reflexivity|].
  cbn [chats_loop].
  pose proof (alerts_loop_visits bot resolver chatId (active_slots 0 alerts)
                alerts w (active_slots_bound 0 alerts)) as Hinner.
  destruct (alerts_loop _ _ _ _ _ _) as [[alerts' w1] log1].
  specialize (IH w1). destruct (chats_loop _ _ _ _) as [[rest' w2] log2].
  cbn. now rewrite map_app, Hinner, IH.
Qed.

(** X10. When the resolver has no data for any symbol, by returning
    [null] or by throwing, a run of [checkAlerts] leaves every alert as it
    was and sends nothing for any of them: a failed lookup only skips the
    alert for this run. *)
Theorem failed_lookups_change_nothing realtimePrices st (w : W) :
  (forall symbol w0 answer, fst (resolver symbol true w0) <> Return (Some answer)) ->
  let c := checkAlerts bot resolver realtimePrices st w in
  priceAlerts (state c) = priceAlerts st
  /\ Forall (fun v => sends v = []) (visits c).
Proof.
  intros Hnone. cbn zeta. unfold checkAlerts.
  destruct (checkAutoVolatilityAlerts _ _ _ _) as [[aa w1] log1].
  pose proof (chats_loop_skips (priceAlerts st) w1 Hnone) as Hloop.
  now destruct (chats_loop _ _ _ _) as [[pa w2] log2].
Qed.

(** X11. Every message of the manual pass goes to the chat that owns the
    alert and shows an alert marked as triggered whose trigger price
    satisfies the crossing rule; the trend it announces is upward exactly
    when the target was above the original price, so an upward message means
    the price is at or above the target and a downward one that it is at or
    below. *)
Theorem manual_messages_report_crossings realtimePrices st (w : W) :
  let c := checkAlerts bot resolver realtimePrices st w in
  Forall (fun v =>
    Forall (fun s =>
      to s = chat v
      /\ exists a p trend,
           notice s = TargetHit a trend
           /\ Alert.status a = triggered
           /\ Alert.triggerPrice a = Some p
           /\ ((trend = upward
                /\ Alert.currentPrice a < Alert.targetPrice a
                /\ Alert.targetPrice a <= p)
               \/ (trend = downward
                   /\ Alert.targetPrice a < Alert.currentPrice a
                   /\ p <= Alert.targetPrice a))%Q) (sends v)) (visits c).
Proof.
  cbn zeta. unfold checkAlerts.
  destruct (checkAutoVolatilityAlerts _ _ _ _) as [[aa w1] log1].
  pose proof (chats_loop_messages (priceAlerts st) w1) as Hloop.
  destruct (chats_loop _ _ _ _) as [[pa w2] log2]. cbn.
  eapply Forall_impl; [exact Hloop|]. intros v Hv. cbn in Hv.
  eapply Forall_impl; [exact Hv|]. intros s (Hto & a & p & Hnotice & Hst & Hp & Hrule).
  split; [exact Hto|]. exists a, p. eexists. split; [exact Hnotice|].
  split; [exact Hst|]. split; [exact Hp|].
  apply shouldTrigger_iff in Hrule.
  destruct Hrule as [[Hup Hreach]|[Hdown Hreach]].
  - left. assert (Ht : Qltb (Alert.currentPrice a) (Alert.targetPrice a) = true)
      by now apply Qltb_lt.
    rewrite Ht. auto.
  - right.
    assert (Ht : Qltb (Alert.currentPrice a) (Alert.targetPrice a) = false).
    { destruct (Qltb _ _) eqn:E; [|reflexivity]. apply Qltb_lt in E. lra. }
    rewrite Ht. auto.
Qed.


End ManualPass.

Section ManualPassCases.
Import Alerts Samples MoreSamples.

Lemma failed_lookups_change_nothing_witness :
  (forall symbol w0 answer, fst (silent symbol true w0) <> Return (Some answer))
  /\ priceAlerts (state (checkAlerts delivering silent []
                           (holding [btc_to_60000; btc_to_50100]) t0))
     = priceAlerts (holding [btc_to_60000; btc_to_50100]).
Proof.
  assert (H : forall symbol w0 answer,
             fst (silent symbol true w0) <> Return (Some answer)).
  { intros symbol w0 answer. discriminate. }
  split; [exact H|].
  exact (proj1 (failed_lookups_change_nothing delivering silent []
                  (holding [btc_to_60000; btc_to_50100]) t0 H)).
Defined.

End ManualPassCases.

(** ** The pollers *)

Section MapSet.
Context {V : Type}.

Lemma get_Map_set_eq (k : jsstring) (v : V) (m : JsMap.t V) :
  JsMap.get k (Poller.Map_set k v m) = Some v.
Proof.
  induction m as [|[k' v'] m IH]; cbn.
  - now rewrite decide_True.
  - destruct (decide (k' = k)) as [->|Hne]; cbn.
    + now rewrite decide_True.
    + now rewrite decide_False.
Qed.

Lemma get_Map_set_ne (k k' : jsstring) (v : V) (m : JsMap.t V) :
  k <> k' -> JsMap.get k' (Poller.Map_set k v m) = JsMap.get k' m.
Proof.
  intros Hne. induction m as [|[k0 v0] m IH]; cbn.
  - now rewrite decide_False.
  - destruct (decide (k0 = k)) as [->|Hne0]; cbn.
    + now rewrite !decide_False.
    + destruct (decide (k0 = k')); [reflexivity|exact IH].
Qed.

Lemma get_Map_set_is_Some (k k' : jsstring) (v : V) (m : JsMap.t V) :
  is_Some (JsMap.get k' m) -> is_Some (JsMap.get k' (Poller.Map_set k v m)).
Proof.
  intros Hk'. destruct (decide (k = k')) as [->|Hne].
  - rewrite get_Map_set_eq. eauto.
  - now rewrite get_Map_set_ne.
Qed.

End MapSet.

Section PollerFacts.
Import PriceFeeds Poller.

Lemma write_raw_quoted now quotes (realtimePrices : JsMap.t PriceRecord) :
  exists written,
    write_raw now (all_quoted quotes) realtimePrices = (Return tt, written)
    /\ (forall s, s ∉ map fst quotes ->
                  JsMap.get s written = JsMap.get s realtimePrices)
    /\ (NoDup (map fst quotes) ->
        forall s q, (s, q) ∈ quotes ->
                    JsMap.get s written = Some (compare_record now q))
    /\ (forall s, is_Some (JsMap.get s realtimePrices) ->
                  is_Some (JsMap.get s written)).
Proof.
  revert realtimePrices.
  induction quotes as [|[s0 q0] quotes IH]; intros realtimePrices.
  { exists realtimePrices. cbn. conjs; auto. intros _ s q Hin. inversion Hin. }
  cbn [all_quoted map fst snd write_raw].
  destruct (IH (Map_set s0 (compare_record now q0) realtimePrices))
    as (written & Hrun & Hother & Hin & Hkeep).
  exists written. split; [exact Hrun|]. split.
  { intros s Hs. cbn in Hs. apply not_elem_of_cons in Hs as [Hne Hs].
    rewrite (Hother s Hs). now apply get_Map_set_ne. }
  split.
  { intros Hnd s q Hsq. cbn in Hnd. apply NoDup_cons in Hnd as [Hfresh Hnd].
    apply elem_of_cons in Hsq as [[= -> ->]|Hsq].
    - rewrite (Hother s0 Hfresh). apply get_Map_set_eq.
    - now apply Hin. }
  intros s Hs. apply Hkeep. now apply get_Map_set_is_Some.
Qed.

Lemma write_raw_keeps now raw (realtimePrices : JsMap.t PriceRecord) s :
  is_Some (JsMap.get s realtimePrices) ->
  is_Some (JsMap.get s (snd (write_raw now raw realtimePrices))).
Proof.
  revert realtimePrices.
  induction raw as [|[s0 [q0|]] raw IH]; intros realtimePrices Hs; cbn; auto.
  apply IH. now apply get_Map_set_is_Some.
Qed.

End PollerFacts.

Section PollerLoops.
Import PriceFeeds Poller.

(** An asset is written only under the ticker [symbolMap] gives its id. *)
Lemma listed_asset_symbol asset :
  id asset ∈ coincap_symbols ->
  exists ticker, coincap_symbolMap !! id asset = Some ticker
                 /\ asset_symbol asset = Some ticker
                 /\ ticker ∈ coincap_tickers.
Proof.
  unfold asset_symbol, coincap_symbols. intros Hid.
  repeat (apply elem_of_cons in Hid as [->|Hid]);
    [eexists; split; [reflexivity|];
     split; [reflexivity|unfold coincap_tickers; set_solver]..|].
  inversion Hid.
Qed.

Lemma write_assets_result now assets (realtimePrices : JsMap.t PriceRecord) s :
  JsMap.get s (write_assets now assets realtimePrices) = JsMap.get s realtimePrices
  \/ (s ∈ coincap_tickers
      /\ exists asset, asset ∈ assets /\ id asset ∈ coincap_symbols
                       /\ coincap_symbolMap !! id asset = Some s
                       /\ JsMap.get s (write_assets now assets realtimePrices)
                          = Some (cap_record now asset)).
Proof.
  revert realtimePrices.
  induction assets as [|asset assets IH]; intros realtimePrices; [now left|].
  cbn [write_assets].
  assert (Hskip :
    JsMap.get s (write_assets now assets realtimePrices)
    = JsMap.get s realtimePrices
    \/ (s ∈ coincap_tickers
        /\ exists asset0, asset0 ∈ asset :: assets /\ id asset0 ∈ coincap_symbols
                          /\ coincap_symbolMap !! id asset0 = Some s
                          /\ JsMap.get s (write_assets now assets realtimePrices)
                             = Some (cap_record now asset0))).
  { destruct (IH realtimePrices) as [H|(Hs & a & Ha & Hid & Hmap & H)]; [now left|].
    right. split; [exact Hs|]. exists a. split; [now right|]. auto. }
  destruct (asset_symbol asset) as [symbol|] eqn:Hsym; [|exact Hskip].
  destruct (JsString.truthy symbol && bool_decide (id asset ∈ coincap_symbols))
    eqn:Htest; [|exact Hskip].
  apply andb_true_iff in Htest as [_ Hlisted]. apply bool_decide_eq_true in Hlisted.
  destruct (listed_asset_symbol asset Hlisted) as (ticker & Hmap & Hticker & Hin).
  rewrite Hsym in Hticker. injection Hticker as ->.
  destruct (IH (Map_set ticker (cap_record now asset) realtimePrices))
    as [H|(Hs & a & Ha & Hid & Hmapa & H)].
  - rewrite H. destruct (decide (ticker = s)) as [->|Hne].
    + right. split; [exact Hin|]. exists asset. split; [now left|].
      split; [exact Hlisted|]. split; [exact Hmap|]. apply get_Map_set_eq.
    + left. now apply get_Map_set_ne.
  - right. split; [exact Hs|]. exists a. split; [now right|]. auto.
Qed.

Lemma write_assets_keeps now assets (realtimePrices : JsMap.t PriceRecord) s :
  is_Some (JsMap.get s realtimePrices) ->
  is_Some (JsMap.get s (write_assets now assets realtimePrices)).
Proof.
  intros Hs. destruct (write_assets_result now assets realtimePrices s)
    as [->|(_ & a & _ & _ & _ & ->)]; eauto.
Qed.

Context {W : Type} {sources : Sources W}.
Variable cfg : Config.

Lemma fallback_loop_result symbols (realtimePrices : JsMap.t PriceRecord) (w : W) :
  let '(written, _, calls) := fallback_loop cfg symbols realtimePrices w in
  calls = map (fun s => ToCoinGecko (getCoinGeckoId s (SYMBOL_MAP cfg))) symbols
  /\ (forall s, s ∉ symbols -> JsMap.get s written = JsMap.get s realtimePrices)
  /\ (forall s, is_Some (JsMap.get s realtimePrices) -> is_Some (JsMap.get s written)).
Proof.
  revert realtimePrices w.
  induction symbols as [|symbol rest IH]; intros realtimePrices w.
  { cbn. conjs; auto. }
  cbn [fallback_loop]. unfold awaitCryptoData.
  destruct (get_coingecko _ w) as [answer w1].
  destruct (getCryptoData cfg (fun _ => answer) symbol) as [[data|]|e].
  - specialize (IH (Map_set symbol
                      {| PriceFeeds.data := data; timestamp := clock w1;
                         source := coingecko_fallback |} realtimePrices)
                   (sleep 500 w1)).
    destruct (fallback_loop _ _ _ _) as [[final w3] calls2].
    destruct IH as (-> & Hother & Hkeep). conjs; [reflexivity| |].
    + intros s Hs. apply not_elem_of_cons in Hs as [Hne Hs].
      rewrite (Hother s Hs). now apply get_Map_set_ne.
    + intros s Hs. apply Hkeep. now apply get_Map_set_is_Some.
  - specialize (IH realtimePrices (sleep 500 w1)).
    destruct (fallback_loop _ _ _ _) as [[final w3] calls2].
    destruct IH as (-> & Hother & Hkeep). conjs; [reflexivity| |exact Hkeep].
    intros s Hs. apply not_elem_of_cons in Hs as [_ Hs]. now apply Hother.
  - specialize (IH realtimePrices w1).
    destruct (fallback_loop _ _ _ _) as [[final w3] calls2].
    destruct IH as (-> & Hother & Hkeep). conjs; [reflexivity| |exact Hkeep].
    intros s Hs. apply not_elem_of_cons in Hs as [_ Hs]. now apply Hother.
Qed.

End PollerLoops.

Section PollerExtras.
Import PriceFeeds Poller Samples MoreSamples.

Lemma write_raw_app now quotes tail (realtimePrices : JsMap.t PriceRecord) :
  write_raw now (all_quoted quotes ++ tail) realtimePrices
  = write_raw now tail (snd (write_raw now (all_quoted quotes) realtimePrices)).
Proof.
  revert realtimePrices.
  induction quotes as [|[s0 q0] quotes IH]; intros realtimePrices; [reflexivity|].
  cbn [all_quoted map fst snd app write_raw]. apply IH.
Qed.

(** X13. When CryptoCompare answers with a [RAW] in which every symbol has
    its [USD], the poll is over after that one request: CoinCap and
    CoinGecko are not asked; every symbol of the body then reads back from
    the table with the price, volume and market cap of its quote, the 24h
    change as the text [toFixed(2)] gives, the time of the poll and the
    source [cryptocompare]; every other entry of the table is as before. *)
Theorem cryptocompare_success_short_circuits {W : Type} {sources : Sources W} cfg
    realtimePrices (w w1 : W) quotes :
  get_cryptocompare w = (CompareResolved (Some (all_quoted quotes)), w1) ->
  NoDup (map fst quotes) ->
  let '(table, w', calls) := fetchRealtimePrices cfg realtimePrices w in
  calls = [ToCryptoCompare] /\ w' = w1
  /\ (forall s q, (s, q) ∈ quotes ->
         JsMap.get s table
         = Some {| data := {| price := PRICE q;
                           change24h :=
                             Float64.toFixed2 (Float64.of_Q (CHANGEPCT24HOUR q));
                           marketCap := Some (MKTCAP q);
                           volume24h := Some (TOTALVOLUME24HTO q) |};
                  timestamp := clock w1;
                  source := cryptocompare |})
  /\ (forall s, s ∉ map fst quotes ->
                JsMap.get s table = JsMap.get s realtimePrices).
Proof.
  intros Hanswer Hnd. unfold fetchRealtimePrices, fetchCryptoComparePrices.
  rewrite Hanswer.
  destruct (write_raw_quoted (clock w1) quotes realtimePrices)
    as (written & -> & Hother & Hin & _).
  conjs; auto. intros s q Hsq. now rewrite (Hin Hnd s q Hsq).
Qed.

Lemma cryptocompare_success_short_circuits_witness :
  get_cryptocompare compare_up
  = (CompareResolved (Some (all_quoted two_quotes)), compare_up)
  /\ NoDup (map fst two_quotes)
  /\ (let '(table, _, calls) :=
        fetchRealtimePrices config_example (btc_at 50000 (t0 - 10000)) compare_up in
      calls = [ToCryptoCompare]
      /\ JsMap.get (js "ETH") table
         = Some {| data := {| price := 3000; change24h := js "-0.13";
                              marketCap := Some 100000%Q;
                              volume24h := Some 1000%Q |};
                   timestamp := t0; source := cryptocompare |}).
Proof.
  assert (H1 : get_cryptocompare compare_up
               = (CompareResolved (Some (all_quoted two_quotes)), compare_up))
    by reflexivity.
  assert (H2 : NoDup (map fst two_quotes)).
  { cbn. apply NoDup_cons. split; [|apply NoDup_singleton].
    intros H. apply list_elem_of_singleton in H. discriminate. }
  split; [exact H1|]. split; [exact H2|].
  pose proof (cryptocompare_success_short_circuits config_example
                (btc_at 50000 (t0 - 10000)) compare_up compare_up two_quotes H1 H2)
    as H.
  destruct (fetchRealtimePrices _ _ _) as [[table w'] calls].
  destruct H as (Hcalls & _ & Hin & _). split; [exact Hcalls|].
  apply (Hin (js "ETH") (raw_quote 3000)).
  unfold two_quotes. apply elem_of_cons. right. apply elem_of_cons.
  now left.
Defined.

(** X14. A poll never removes a symbol from the realtime table, whatever
    the three upstreams answer: an entry can be overwritten, not lost. *)
Theorem poll_never_forgets {W : Type} {sources : Sources W} cfg realtimePrices (w : W)
    s :
  is_Some (JsMap.get s realtimePrices) ->
  let '(table, _, _) := fetchRealtimePrices cfg realtimePrices w in
  is_Some (JsMap.get s table).
Proof.
  intros Hs. unfold fetchRealtimePrices, fetchCryptoComparePrices, fetchCoinCapPrices,
    fetchFromCoinGeckoFallback.
  assert (Hcap : forall table1 w1, is_Some (JsMap.get s table1) ->
    let '(table, _, _) :=
      (let '(success2, table2, w2) :=
         match get_coincap w1 with
         | (CapResolved (Some assets), w2) =>
             (true, write_assets (clock w2) assets table1, w2)
         | (CapResolved None, w2) => (false, table1, w2)
         | (CapRejected, w2) => (false, table1, w2)
         end in
       if success2 then (table2, w2, [ToCryptoCompare; ToCoinCap])
       else let '(table3, w3, calls) := fallback_loop cfg fallback_symbols table2 w2 in
            (table3, w3, ToCryptoCompare :: ToCoinCap :: calls)) in
    is_Some (JsMap.get s table)).
  { intros table1 w1 H1.
    assert (Hfb : forall w2, let '(table, _, _) :=
              (let '(table3, w3, calls) :=
                 fallback_loop cfg fallback_symbols table1 w2 in
               (table3, w3, ToCryptoCompare :: ToCoinCap :: calls)) in
              is_Some (JsMap.get s table)).
    { intros w2. pose proof (fallback_loop_result cfg fallback_symbols table1 w2) as H.
      destruct (fallback_loop _ _ _ _) as [[t3 w3] c3]. now apply H. }
    destruct (get_coincap w1) as [[[assets|]|] w2]; [|apply Hfb..].
    now apply write_assets_keeps. }
  destruct (get_cryptocompare w) as [[[raw|]|] w1]; [|now apply Hcap..].
  pose proof (write_raw_keeps (clock w1) raw realtimePrices s Hs) as Hraw.
  destruct (write_raw (clock w1) raw realtimePrices) as [[[]|e] written];
    [exact Hraw|]. now apply Hcap.
Qed.

Lemma poll_never_forgets_witness :
  is_Some (JsMap.get (js "BTC") (btc_at 50000 (t0 - 10000)))
  /\ (let '(table, _, _) :=
        fetchRealtimePrices config_example (btc_at 50000 (t0 - 10000)) batches_down in
      is_Some (JsMap.get (js "BTC") table)).
Proof.
  assert (H : is_Some (JsMap.get (js "BTC") (btc_at 50000 (t0 - 10000)))).
  { eexists. reflexivity. }
  split; [exact H|].
  exact (poll_never_forgets config_example (btc_at 50000 (t0 - 10000)) batches_down
           (js "BTC") H).
Defined.

(** X15. [fetchCoinCapPrices] writes under the seven tickers of its
    [symbolMap] and nowhere else, whatever the body holds.  When the request
    resolves with a list of assets it reports success, and any entry of the
    table is either as before, or comes from an asset of the body whose id
    [symbolMap] maps to the symbol of the entry: it then holds the price,
    volume and market cap of that asset, the 24h change as the text
    [toFixed(2)] gives, the time of the poll and the source [coincap].
    Otherwise it reports failure and the table is as before. *)
Theorem coincap_writes_only_its_tickers {W : Type} {sources : Sources W}
    realtimePrices (w : W) s :
  let '(success, table, w1) := fetchCoinCapPrices realtimePrices w in
  w1 = snd (get_coincap w)
  /\ match fst (get_coincap w) with
     | CapResolved (Some assets) =>
         success = true
         /\ (JsMap.get s table = JsMap.get s realtimePrices
             \/ exists asset,
                  asset ∈ assets
                  /\ coincap_symbolMap !! id asset = Some s
                  /\ s ∈ coincap_tickers
                  /\ JsMap.get s table
                     = Some {| data :=
                                 {| price := priceUsd asset;
                                    change24h :=
                                      Float64.toFixed2
                                        (Float64.of_Q (changePercent24Hr asset));
                                    marketCap := Some (marketCapUsd asset);
                                    volume24h := Some (volumeUsd24Hr asset) |};
                               timestamp := clock w1;
                               source := coincap |})
     | _ => success = false /\ table = realtimePrices
     end.
Proof.
  unfold fetchCoinCapPrices.
  destruct (get_coincap w) as [[[assets|]|] w1]; cbn [fst snd]; auto.
  split; [reflexivity|]. split; [reflexivity|].
  destruct (write_assets_result (clock w1) assets realtimePrices s)
    as [H|(Hs & a & Ha & _ & Hmap & H)]; [now left|].
  right. exists a. rewrite H. auto.
Qed.

Lemma coincap_writes_only_its_tickers_witness :
  let '(success, table, _) := fetchCoinCapPrices [] cap_up in
  success = true
  /\ JsMap.get (js "DOGE") table = None
  /\ JsMap.get (js "HYPE") table
     = Some {| data := {| price := 40.5; change24h := js "2.35";
                          marketCap := Some 900000%Q;
                          volume24h := Some 5000%Q |};
               timestamp := t0; source := coincap |}.
Proof.
  pose proof (coincap_writes_only_its_tickers [] cap_up (js "DOGE")) as H.
  destruct (fetchCoinCapPrices [] cap_up) as [[success table] w1] eqn:Hrun.
  cbn [fst snd get_coincap net_sources cap_answer cap_up] in H.
  destruct H as (_ & Hok & [Hleft|(asset & _ & _ & Hticker & _)]).
  - split; [exact Hok|]. split; [exact Hleft|].
    vm_compute in Hrun. now injection Hrun as <- <- <-.
  - exfalso. revert Hticker.
    assert (Hout : bool_decide (js "DOGE" ∉ coincap_tickers) = true) by reflexivity.
    now apply bool_decide_eq_true in Hout.
Defined.

(** X16. A [RAW] with a symbol that has no [USD] makes
    [fetchCryptoComparePrices] report failure midway: the symbols before it
    are already in the table, with the values of their quotes, the time of
    the poll and the source [cryptocompare], the symbols after it are not
    written, and the poll still goes on to CoinCap. *)
Theorem malformed_raw_leaves_partial_update {W : Type} {sources : Sources W} cfg
    realtimePrices (w w1 : W) quotes s rest :
  get_cryptocompare w
  = (CompareResolved (Some (all_quoted quotes ++ (s, None) :: rest)), w1) ->
  NoDup (map fst quotes) ->
  let '(success, table, _) := fetchCryptoComparePrices realtimePrices w in
  success = false
  /\ (forall s' q, (s', q) ∈ quotes ->
         JsMap.get s' table
         = Some {| data := {| price := PRICE q;
                           change24h :=
                             Float64.toFixed2 (Float64.of_Q (CHANGEPCT24HOUR q));
                           marketCap := Some (MKTCAP q);
                           volume24h := Some (TOTALVOLUME24HTO q) |};
                  timestamp := clock w1;
                  source := cryptocompare |})
  /\ (forall s', s' ∉ map fst quotes ->
                 JsMap.get s' table = JsMap.get s' realtimePrices)
  /\ exists more,
       snd (fetchRealtimePrices cfg realtimePrices w)
       = ToCryptoCompare :: ToCoinCap :: more.
Proof.
  intros Hanswer Hnd.
  unfold fetchRealtimePrices, fetchCryptoComparePrices. rewrite Hanswer.
  rewrite write_raw_app.
  destruct (write_raw_quoted (clock w1) quotes realtimePrices)
    as (written & -> & Hother & Hin & _).
  cbn [snd write_raw]. conjs; auto.
  { intros s' q Hsq. now rewrite (Hin Hnd s' q Hsq). }
  destruct (fetchCoinCapPrices written w1) as [[[] table2] w2]; [eauto|].
  destruct (fetchFromCoinGeckoFallback cfg table2 w2) as [[table3 w3] calls]. eauto.
Qed.

Lemma malformed_raw_leaves_partial_update_witness :
  get_cryptocompare compare_broken
  = (CompareResolved
       (Some (all_quoted [(js "BTC", raw_quote 50200)]
              ++ (js "SOL", None) :: [(js "ETH", Some (raw_quote 3000))])),
     compare_broken)
  /\ NoDup (map fst [(js "BTC", raw_quote 50200)])
  /\ (let '(success, table, _) := fetchCryptoComparePrices [] compare_broken in
      success = false
      /\ JsMap.get (js "BTC") table
         = Some {| data := {| price := 50200; change24h := js "-0.13";
                              marketCap := Some 100000%Q;
                              volume24h := Some 1000%Q |};
                   timestamp := t0; source := cryptocompare |}
      /\ JsMap.get (js "ETH") table = None).
Proof.
  assert (H1 : get_cryptocompare compare_broken
               = (CompareResolved
                    (Some (all_quoted [(js "BTC", raw_quote 50200)]
                           ++ (js "SOL", None) :: [(js "ETH", Some (raw_quote 3000))])),
                  compare_broken)) by reflexivity.
  assert (H2 : NoDup (map fst [(js "BTC", raw_quote 50200)])).
  { cbn. apply NoDup_singleton. }
  split; [exact H1|]. split; [exact H2|].
  pose proof (malformed_raw_leaves_partial_update config_example [] compare_broken
                compare_broken _ _ _ H1 H2) as H.
  destruct (fetchCryptoComparePrices [] compare_broken) as [[success table] w'].
  destruct H as (Hfalse & Hin & Hother & _). split; [exact Hfalse|]. split.
  - apply (Hin (js "BTC") (raw_quote 50200)). apply elem_of_cons. now left.
  - rewrite Hother; [reflexivity|]. cbn. intros H.
    apply list_elem_of_singleton in H. discriminate.
Defined.

(** X17. When neither batch upstream gives a usable body, the poll asks
    CoinGecko once for each of the nine fallback symbols, in order and
    whatever the earlier answers were, and touches no entry of the table
    outside those nine. *)
Theorem fallback_asks_for_each_symbol {W : Type} {sources : Sources W} cfg
    realtimePrices (w w1 w2 : W) r1 r2 :
  get_cryptocompare w = (r1, w1) ->
  r1 = CompareRejected \/ r1 = CompareResolved None ->
  get_coincap w1 = (r2, w2) ->
  r2 = CapRejected \/ r2 = CapResolved None ->
  let '(table, _, calls) := fetchRealtimePrices cfg realtimePrices w in
  calls = ToCryptoCompare :: ToCoinCap
          :: map (fun s => ToCoinGecko (getCoinGeckoId s (SYMBOL_MAP cfg)))
               fallback_symbols
  /\ (forall s, s ∉ fallback_symbols ->
                JsMap.get s table = JsMap.get s realtimePrices).
Proof.
  intros H1 Hr1 H2 Hr2.
  unfold fetchRealtimePrices, fetchCryptoComparePrices, fetchCoinCapPrices,
    fetchFromCoinGeckoFallback.
  rewrite H1.
  assert (Hrest :
    let '(table, _, calls) :=
      (let '(success2, table2, w3) :=
         match get_coincap w1 with
         | (CapResolved (Some assets), w3) =>
             (true, write_assets (clock w3) assets realtimePrices, w3)
         | (CapResolved None, w3) => (false, realtimePrices, w3)
         | (CapRejected, w3) => (false, realtimePrices, w3)
         end in
       if success2 then (table2, w3, [ToCryptoCompare; ToCoinCap])
       else let '(table3, w4, calls) :=
              fallback_loop cfg fallback_symbols table2 w3 in
            (table3, w4, ToCryptoCompare :: ToCoinCap :: calls)) in
    calls = ToCryptoCompare :: ToCoinCap
            :: map (fun s => ToCoinGecko (getCoinGeckoId s (SYMBOL_MAP cfg)))
                 fallback_symbols
    /\ (forall s, s ∉ fallback_symbols ->
                  JsMap.get s table = JsMap.get s realtimePrices)).
  { rewrite H2.
    pose proof (fallback_loop_result cfg fallback_symbols realtimePrices w2) as H.
    destruct Hr2 as [-> | ->];
      destruct (fallback_loop _ _ _ _) as [[t3 w3] c3];
      destruct H as (-> & Hother & _); auto. }
  destruct Hr1 as [-> | ->]; exact Hrest.
Qed.

Lemma fallback_asks_for_each_symbol_witness :
  get_cryptocompare batches_down = (CompareRejected, batches_down)
  /\ get_coincap batches_down = (CapResolved None, batches_down)
  /\ (let '(table, _, calls) :=
        fetchRealtimePrices config_example [] batches_down in
      length calls = 11%nat
      /\ JsMap.get (js "HYPE") table = None).
Proof.
  assert (H1 : get_cryptocompare batches_down = (CompareRejected, batches_down))
    by reflexivity.
  assert (H2 : get_coincap batches_down = (CapResolved None, batches_down))
    by reflexivity.
  split; [exact H1|]. split; [exact H2|].
  pose proof (fallback_asks_for_each_symbol config_example [] batches_down
                batches_down batches_down _ _ H1 (or_introl eq_refl) H2
                (or_intror eq_refl)) as H.
  destruct (fetchRealtimePrices _ _ _) as [[table w'] calls].
  destruct H as [-> Hother]. split; [reflexivity|].
  rewrite Hother; [reflexivity|].
  assert (Hout : bool_decide (js "HYPE" ∉ fallback_symbols) = true) by reflexivity.
  now apply bool_decide_eq_true in Hout.
Defined.

(** X18. A price the poller has just stored is what the resolver returns:
    after a poll that CryptoCompare answered, a call for a symbol whose
    upper-case form is in the body, made less than [PRICE_FRESHNESS_WINDOW]
    after the poll, returns the entry the poll stored (the values of the
    quote, the time of the poll, the source [cryptocompare]), leaves the
    state as it is and sends no request, whatever the cache, the backoff
    state and [forceRefresh]. *)
Theorem polled_price_is_resolved {W : Type} {sources : Sources W} cfg
    realtimePrices (w w1 : W) quotes symbol q cache lastRateLimit net now
    forceRefresh :
  get_cryptocompare w = (CompareResolved (Some (all_quoted quotes)), w1) ->
  NoDup (map fst quotes) ->
  (toUpperCase symbol, q) ∈ quotes ->
  now - clock w1 < PRICE_FRESHNESS_WINDOW cfg ->
  let '(table, _, _) := fetchRealtimePrices cfg realtimePrices w in
  let st := {| PriceFeeds.realtimePrices := table; priceCache := cache;
               lastRateLimitTime := lastRateLimit |} in
  getCachedCryptoData cfg net now st symbol forceRefresh
  = {| completion :=
         Return (Some (Stamped
           {| data := {| price := PRICE q;
                       change24h :=
                         Float64.toFixed2 (Float64.of_Q (CHANGEPCT24HOUR q));
                       marketCap := Some (MKTCAP q);
                       volume24h := Some (TOTALVOLUME24HTO q) |};
              timestamp := clock w1;
              source := cryptocompare |}));
       store := st; requests := [] |}.
Proof.
  intros Hanswer Hnd Hin Hfresh.
  unfold fetchRealtimePrices, fetchCryptoComparePrices. rewrite Hanswer.
  destruct (write_raw_quoted (clock w1) quotes realtimePrices)
    as (written & -> & _ & Hget & _).
  unfold getCachedCryptoData. cbn [PriceFeeds.realtimePrices].
  rewrite (Hget Hnd _ _ Hin). cbn [timestamp compare_record].
  apply Z.ltb_lt in Hfresh. now rewrite Hfresh.
Qed.

Lemma polled_price_is_resolved_witness :
  get_cryptocompare compare_up
  = (CompareResolved (Some (all_quoted two_quotes)), compare_up)
  /\ NoDup (map fst two_quotes)
  /\ (toUpperCase (js "eth"), raw_quote 3000) ∈ two_quotes
  /\ (t0 + 9000) - clock compare_up < PRICE_FRESHNESS_WINDOW config_example
  /\ (let '(table, _, _) := fetchRealtimePrices config_example [] compare_up in
      completion
        (getCachedCryptoData config_example rate_limiting (t0 + 9000)
           {| PriceFeeds.realtimePrices := table; priceCache := ∅;
              lastRateLimitTime := 0 |} (js "eth") true)
      = Return (Some (Stamped
          {| data := {| price := 3000; change24h := js "-0.13";
                        marketCap := Some 100000%Q; volume24h := Some 1000%Q |};
             timestamp := t0; source := cryptocompare |}))).
Proof.
  assert (H1 : get_cryptocompare compare_up
               = (CompareResolved (Some (all_quoted two_quotes)), compare_up))
    by reflexivity.
  assert (H2 : NoDup (map fst two_quotes)).
  { cbn. apply NoDup_cons. split; [|apply NoDup_singleton].
    intros H. apply list_elem_of_singleton in H. discriminate. }
  assert (H3 : (toUpperCase (js "eth"), raw_quote 3000) ∈ two_quotes).
  { unfold two_quotes. apply elem_of_cons. right. apply elem_of_cons. now left. }
  assert (H4 : (t0 + 9000) - clock compare_up < PRICE_FRESHNESS_WINDOW config_example)
    by reflexivity.
  split; [exact H1|]. split; [exact H2|]. split; [exact H3|]. split; [exact H4|].
  pose proof (polled_price_is_resolved config_example [] compare_up compare_up
                two_quotes (js "eth") (raw_quote 3000) ∅ 0 rate_limiting (t0 + 9000)
                true H1 H2 H3 H4) as H.
  destruct (fetchRealtimePrices _ _ _) as [[table w'] calls].
  now rewrite H.
Defined.

End PollerExtras.

(** ** The alert commands *)

Section Properties.
Import Alerts Commands.
Context {V : Type}.

Lemma lookup_set_prop_eq (k : Z) (v : V) o :
  lookup_prop k (set_prop k v o) = Some v.
Proof.
  induction o as [|[k' v'] o IH]; cbn.
  - now rewrite decide_True.
  - destruct (decide (k' = k)) as [->|Hne]; cbn; [now rewrite decide_True|].
    destruct (goes_before k k'); cbn.
    + now rewrite decide_True.
    + now rewrite decide_False.
Qed.

Lemma lookup_set_prop_ne (k k' : Z) (v : V) o :
  k <> k' -> lookup_prop k' (set_prop k v o) = lookup_prop k' o.
Proof.
  intros Hne. induction o as [|[k0 v0] o IH]; cbn.
  - now rewrite decide_False.
  - destruct (decide (k0 = k)) as [->|Hne0]; cbn.
    + now rewrite !decide_False.
    + destruct (goes_before k k0); cbn.
      * now rewrite (decide_False (P := k = k')).
      * destruct (decide (k0 = k')); [reflexivity|exact IH].
Qed.

Lemma keys_delete_prop (k k' : Z) (o : list (Z * V)) :
  k' ∈ map fst (delete_prop k o) <-> k' <> k /\ k' ∈ map fst o.
Proof.
  induction o as [|[k0 v0] o IH]; cbn.
  - split; [intros H; inversion H|intros [_ H]; inversion H].
  - destruct (decide (k0 = k)) as [->|Hne]; cbn.
    + rewrite IH, elem_of_cons. tauto.
    + rewrite !elem_of_cons, IH. split; [|tauto].
      intros [->|[H1 H2]]; [split; [exact Hne|now left]|tauto].
Qed.

Lemma lookup_delete_prop_eq (k : Z) (o : list (Z * V)) :
  lookup_prop k (delete_prop k o) = None.
Proof.
  induction o as [|[k0 v0] o IH]; cbn; [reflexivity|].
  destruct (decide (k0 = k)) as [->|Hne]; cbn; [exact IH|].
  now rewrite decide_False.
Qed.

Lemma lookup_delete_prop_ne (k k' : Z) (o : list (Z * V)) :
  k <> k' -> lookup_prop k' (delete_prop k o) = lookup_prop k' o.
Proof.
  intros Hne. induction o as [|[k0 v0] o IH]; cbn; [reflexivity|].
  destruct (decide (k0 = k)) as [->|Hne0]; cbn.
  - now rewrite decide_False.
  - destruct (decide (k0 = k')); [reflexivity|exact IH].
Qed.

Lemma keys_set_prop (k : Z) (v : V) o x :
  x ∈ map fst (set_prop k v o) -> x = k \/ x ∈ map fst o.
Proof.
  induction o as [|[k0 v0] o IH]; cbn.
  - intros H. apply list_elem_of_singleton in H. now left.
  - destruct (decide (k0 = k)) as [->|Hne]; cbn; [now right|].
    destruct (goes_before k k0); cbn.
    + intros H. apply elem_of_cons in H as [->|H]; [now left|now right].
    + intros H. apply elem_of_cons in H as [->|H]; [right; now left|].
      destruct (IH H) as [->|Hin]; [now left|right; now right].
Qed.

Lemma goes_before_index (k k' : Z) :
  goes_before k k' = true <-> is_index k = true /\ (is_index k' = true -> k < k').
Proof.
  unfold goes_before. rewrite andb_true_iff, orb_true_iff, negb_true_iff, Z.ltb_lt.
  destruct (is_index k'); intuition congruence.
Qed.

(** Assigning a property keeps the order [for...in] follows. *)
Lemma enumerable_set_prop (k : Z) (v : V) o :
  enumerable (map fst o) -> enumerable (map fst (set_prop k v o)).
Proof.
  induction o as [|[k0 v0] o IH]; cbn; [intros _; split; [constructor|exact I]|].
  intros [Hhead Htail].
  destruct (decide (k0 = k)) as [->|Hne]; cbn; [now split|].
  destruct (goes_before k k0) eqn:Hgo; cbn.
  - apply goes_before_index in Hgo as [Hk Hlt].
    split; [|now split]. constructor.
    + split; [congruence|]. intros Hk0. apply goes_before_index. auto.
    + rewrite Forall_forall in Hhead |- *. intros x Hx.
      destruct (Hhead x Hx) as [Hx0 Hxi]. split.
      * intros ->. specialize (Hxi Hk). apply goes_before_index in Hxi as [Hk0 Hlt0].
        specialize (Hlt Hk0). specialize (Hlt0 Hk). lia.
      * intros Hxidx. specialize (Hxi Hxidx).
        apply goes_before_index in Hxi as [Hk0 Hlt0]. apply goes_before_index.
        split; [exact Hk|]. intros _. specialize (Hlt Hk0). specialize (Hlt0 Hxidx).
        lia.
  - split; [|now apply IH].
    rewrite Forall_forall in Hhead |- *. intros x Hx.
    apply keys_set_prop in Hx as [->|Hx]; [|now apply Hhead].
    split; [exact Hne|]. intros Hk. apply goes_before_index.
    assert (Hnot : ~ (is_index k = true /\ (is_index k0 = true -> k < k0))).
    { intros H. apply goes_before_index in H. congruence. }
    destruct (is_index k0) eqn:Hk0.
    + split; [reflexivity|]. intros _.
      destruct (Z.lt_trichotomy k0 k) as [Hlt|[Heq|Hgt]]; [exact Hlt|congruence|].
      exfalso. apply Hnot. auto.
    + exfalso. apply Hnot. split; [exact Hk|discriminate].
Qed.

Lemma enumerable_delete_prop (k : Z) (o : list (Z * V)) :
  enumerable (map fst o) -> enumerable (map fst (delete_prop k o)).
Proof.
  induction o as [|[k0 v0] o IH]; cbn; [auto|].
  intros [Hhead Htail]. destruct (decide (k0 = k)); cbn; [now apply IH|].
  split; [|now apply IH].
  rewrite Forall_forall in Hhead |- *. intros x Hx.
  apply keys_delete_prop in Hx as [_ Hx]. now apply Hhead.
Qed.

Lemma enumerable_NoDup (keys : list Z) : enumerable keys -> NoDup keys.
Proof.
  induction keys as [|k keys IH]; cbn; [constructor|].
  intros [Hhead Htail]. apply NoDup_cons. split; [|now apply IH].
  intros Hin. rewrite Forall_forall in Hhead. now destruct (Hhead k Hin).
Qed.

End Properties.

Section CommandFacts.
Import Alerts Commands.

Lemma alerts_of_lookup_prop chatId priceAlerts :
  alerts_of chatId priceAlerts = lookup_prop chatId priceAlerts.
Proof.
  induction priceAlerts as [|[k v] rest IH]; cbn; [reflexivity|].
  now destruct (decide (k = chatId)).
Qed.

Lemma recipients_keys (o : list (Z * bool)) c :
  c ∈ recipients o -> c ∈ map fst o.
Proof.
  unfold recipients. intros H. apply list_elem_of_fmap in H as ([k f] & -> & H).
  apply list_elem_of_filter in H as [_ H]. apply list_elem_of_fmap. eauto.
Qed.

Lemma recipients_cons k (f : bool) (o : list (Z * bool)) :
  recipients ((k, f) :: o) = if f then k :: recipients o else recipients o.
Proof. now destruct f. Qed.

Lemma recipients_lookup (o : list (Z * bool)) c :
  NoDup (map fst o) -> (c ∈ recipients o <-> lookup_prop c o = Some true).
Proof.
  induction o as [|[k f] o IH]; intros Hnd.
  - split; [intros H; inversion H|discriminate].
  - cbn [map fst] in Hnd. apply NoDup_cons in Hnd as [Hfresh Hnd].
    specialize (IH Hnd). rewrite recipients_cons. cbn [lookup_prop].
    destruct (decide (k = c)) as [->|Hne].
    + destruct f.
      * split; [reflexivity|]. intros _. now left.
      * split; [|discriminate].
        intros H. exfalso. apply Hfresh. now apply recipients_keys.
    + destruct f; [|exact IH].
      rewrite elem_of_cons, IH.
      split; [intros [H|H]; [congruence|exact H]|now right].
Qed.

End CommandFacts.

Section CommandExtras.
Import Alerts Commands Samples MoreSamples.

(** X19. When the target parses, the loading message gets through and
    CoinGecko has the coin, [/alert] sends one request and appends one active
    alert to the list of the chat (a new list if the chat had none): the
    alert has the upper-cased symbol, the target, the price just fetched as
    its original price, and no trigger data; the alerts the chat had keep
    their positions, the other chats keep their lists, and the order
    [for...in] follows is kept. *)
Theorem alert_command_appends {W : Type} {sources : Poller.Sources W} cfg
    (ui : Ui W) chatId match1 targetPrice alertId priceAlerts (w w1 w2 : W)
    body entry :
  let symbol := toUpperCase match1 in
  let ids := getCoinGeckoId symbol (SYMBOL_MAP cfg) in
  say ui chatId Verifying w = (true, w1) ->
  Poller.get_coingecko ids w1 = (PriceFeeds.Resolved (Some body), w2) ->
  body !! ids = Some entry ->
  let '(priceAlerts', _, calls, replies) :=
    alertCommand cfg ui chatId match1 (Some targetPrice) alertId priceAlerts w in
  let added :=
    {| Alert.symbol := symbol;
       Alert.targetPrice := targetPrice;
       Alert.currentPrice := PriceFeeds.usd entry;
       Alert.timestamp := Poller.clock w2;
       Alert.alertId := alertId;
       Alert.status := active;
       Alert.triggerTime := None;
       Alert.triggerPrice := None |} in
  calls = [Poller.ToCoinGecko ids]
  /\ alerts_of chatId priceAlerts'
     = Some (default [] (alerts_of chatId priceAlerts) ++ [added])
  /\ (forall ref a, alert_at chatId ref priceAlerts = Some a ->
                    alert_at chatId ref priceAlerts' = Some a)
  /\ (forall other, other <> chatId ->
                    alerts_of other priceAlerts' = alerts_of other priceAlerts)
  /\ (enumerable (map fst priceAlerts) -> enumerable (map fst priceAlerts'))
  /\ replies = [Verifying;
                AlertSet symbol (PriceFeeds.usd entry) targetPrice
                  (Qltb (PriceFeeds.usd entry) targetPrice)].
Proof.
  intros symbol ids Hsay Hanswer Hentry.
  unfold alertCommand, Poller.awaitCryptoData. fold symbol. fold ids.
  rewrite Hsay, Hanswer.
  unfold PriceFeeds.getCryptoData, PriceFeeds.getCryptoData_try, try_catch, bind.
  fold ids. rewrite Hentry. cbn [PriceFeeds.price].
  rewrite <- !alerts_of_lookup_prop.
  conjs; try reflexivity.
  - rewrite alerts_of_lookup_prop, lookup_set_prop_eq.
    now destruct (alerts_of chatId priceAlerts).
  - intros ref a Ha. unfold alert_at in *.
    rewrite alerts_of_lookup_prop, lookup_set_prop_eq.
    destruct (alerts_of chatId priceAlerts) as [alerts|]; [|discriminate].
    now apply lookup_app_l_Some.
  - intros other Hother. rewrite !alerts_of_lookup_prop.
    apply lookup_set_prop_ne. congruence.
  - apply enumerable_set_prop.
Qed.

Lemma alert_command_appends_witness :
  say talking 42 Verifying gecko_up = (true, gecko_up)
  /\ Poller.get_coingecko
       (getCoinGeckoId (toUpperCase (js "btc")) (SYMBOL_MAP config_example)) gecko_up
     = (PriceFeeds.Resolved (Some {[ js "bitcoin" := bitcoin_entry ]}), gecko_up)
  /\ ({[ js "bitcoin" := bitcoin_entry ]} : gmap jsstring PriceFeeds.CoinEntry)
       !! getCoinGeckoId (toUpperCase (js "btc")) (SYMBOL_MAP config_example)
     = Some bitcoin_entry
  /\ (let '(priceAlerts', _, _, _) :=
        alertCommand config_example talking 42 (js "btc") (Some 52000%Q)
          (js "BTC_52000_1700000000000") three_chats gecko_up in
      alerts_of 42 priceAlerts'
      = Some [btc_to_60000;
              new_alert (js "BTC") (js "BTC_52000_1700000000000") 52000 51000 t0]).
Proof.
  assert (H1 : say talking 42 Verifying gecko_up = (true, gecko_up)) by reflexivity.
  assert (H2 : Poller.get_coingecko
                 (getCoinGeckoId (toUpperCase (js "btc")) (SYMBOL_MAP config_example))
                 gecko_up
               = (PriceFeeds.Resolved (Some {[ js "bitcoin" := bitcoin_entry ]}),
                  gecko_up)) by reflexivity.
  assert (H3 : ({[ js "bitcoin" := bitcoin_entry ]}
                  : gmap jsstring PriceFeeds.CoinEntry)
                 !! getCoinGeckoId (toUpperCase (js "btc")) (SYMBOL_MAP config_example)
               = Some bitcoin_entry) by reflexivity.
  split; [exact H1|]. split; [exact H2|]. split; [exact H3|].
  pose proof (alert_command_appends config_example talking 42 (js "btc") 52000%Q
                (js "BTC_52000_1700000000000") three_chats gecko_up gecko_up gecko_up
                _ _ H1 H2 H3) as H.
  destruct (alertCommand _ _ _ _ _ _ _ _) as [[[pa' w'] calls] replies].
  destruct H as (_ & Hadded & _). rewrite Hadded. reflexivity.
Defined.

(** X20. [/alert] stores nothing when the target does not parse (no
    request is sent then), and nothing when the request to CoinGecko is
    rejected, whatever the status, or its body lacks the coin: the chat is
    told that the symbol was not found, also when the upstream was merely
    rate limiting or down. *)
Theorem alert_command_rejects {W : Type} {sources : Poller.Sources W} cfg
    (ui : Ui W) chatId match1 alertId priceAlerts (w : W) :
  let symbol := toUpperCase match1 in
  (let '(priceAlerts', _, calls, replies) :=
     alertCommand cfg ui chatId match1 None alertId priceAlerts w in
   priceAlerts' = priceAlerts /\ calls = [] /\ replies = [InvalidPrice])
  /\ (forall targetPrice w1 w2 answer,
         say ui chatId Verifying w = (true, w1) ->
         Poller.get_coingecko (getCoinGeckoId symbol (SYMBOL_MAP cfg)) w1
         = (answer, w2) ->
         (forall body entry,
             answer = PriceFeeds.Resolved (Some body) ->
             body !! getCoinGeckoId symbol (SYMBOL_MAP cfg) = Some entry -> False) ->
         let '(priceAlerts', _, _, replies) :=
           alertCommand cfg ui chatId match1 (Some targetPrice) alertId priceAlerts w in
         priceAlerts' = priceAlerts
         /\ replies = [Verifying; UnknownSymbol symbol]).
Proof.
  intros symbol. split; [now cbn|].
  intros targetPrice w1 w2 answer Hsay Hanswer Hnone.
  unfold alertCommand, Poller.awaitCryptoData. fold symbol.
  rewrite Hsay, Hanswer.
  unfold PriceFeeds.getCryptoData, PriceFeeds.getCryptoData_try, try_catch, bind.
  destruct answer as [[body|]|status]; try (now split).
  destruct (body !! _) as [entry|] eqn:Hentry; [|now split].
  exfalso. now apply (Hnone body entry).
Qed.

End CommandExtras.

Section CommandExtras2.
Import Alerts Commands Samples MoreSamples.

(** X21. After [/clearalerts] the chat has no alert list, whatever it had
    (it is told how many alerts were removed), the other chats keep theirs,
    the order [for...in] follows is kept, and a run of [checkAlerts] on what
    is left evaluates nothing for the chat. *)
Theorem clear_alerts_forgets_chat {W : Type} (ui : Ui W) chatId priceAlerts (w : W) :
  let '(priceAlerts', _, replies) := clearAlertsCommand ui chatId priceAlerts w in
  alerts_of chatId priceAlerts' = None
  /\ (forall other, other <> chatId ->
                    alerts_of other priceAlerts' = alerts_of other priceAlerts)
  /\ (enumerable (map fst priceAlerts) -> enumerable (map fst priceAlerts'))
  /\ replies = [match alerts_of chatId priceAlerts with
                | Some alerts => Cleared (length alerts)
                | None => NothingToClear
                end]
  /\ (forall (E : Type) (host : Host E) (bot : Bot E) (resolver : Resolver E)
             realtimePrices aa (e : E) ref,
         visits_of chatId ref
           (visits (checkAlerts bot resolver realtimePrices
                      {| Alerts.priceAlerts := priceAlerts'; autoAlerts := aa |} e))
         = []).
Proof.
  unfold clearAlertsCommand. rewrite <- alerts_of_lookup_prop.
  assert (Hquiet : forall pa' : list (Z * list Alert.t),
    chatId ∉ map fst pa' ->
    forall (E : Type) (host : Host E) (bot : Bot E) (resolver : Resolver E)
           realtimePrices aa (e : E) ref,
      visits_of chatId ref
        (visits (checkAlerts bot resolver realtimePrices
                   {| Alerts.priceAlerts := pa'; autoAlerts := aa |} e)) = []).
  { intros pa' Hout E host bot resolver realtimePrices aa e ref.
    pose proof (chats_loop_visits bot resolver pa') as Haux.
    unfold checkAlerts.
    destruct (checkAutoVolatilityAlerts _ _ _ _) as [[aa1 e1] log1].
    cbn [Alerts.priceAlerts]. specialize (Haux e1).
    destruct (chats_loop _ _ _ _) as [[pa2 e2] log2]. cbn [visits].
    apply visits_of_none. intros v Hv [Hchat _]. apply Hout.
    assert (Hin : (chat v, slot v) ∈ map (fun v => (chat v, slot v)) log2).
    { apply list_elem_of_fmap. eauto. }
    rewrite Haux in Hin. apply list_elem_of_In, in_flat_map in Hin
      as ([k alerts] & Hentry & Hpair).
    apply in_map_iff in Hpair as (r & [= Hk _] & _). cbn in Hk.
    rewrite <- Hchat, <- Hk. apply list_elem_of_fmap. exists (k, alerts).
    split; [reflexivity|]. now apply list_elem_of_In. }
  destruct (alerts_of chatId priceAlerts) as [alerts|] eqn:Hhad.
  - conjs; try reflexivity.
    + rewrite alerts_of_lookup_prop. apply lookup_delete_prop_eq.
    + intros other Hother. rewrite !alerts_of_lookup_prop.
      apply lookup_delete_prop_ne. congruence.
    + apply enumerable_delete_prop.
    + apply Hquiet. intros Hin. now apply keys_delete_prop in Hin as [Hne _].
  - conjs; try reflexivity; auto.
    apply Hquiet. intros Hin. clear Hquiet.
    induction priceAlerts as [|[k v] rest IH]; [inversion Hin|].
    cbn in Hhad, Hin. destruct (decide (k = chatId)); [discriminate|].
    apply elem_of_cons in Hin as [Hin|Hin]; [congruence|]. now apply IH.
Qed.

End CommandExtras2.

Section Subscriptions.
Import Alerts Commands Samples MoreSamples.

Lemma autoAlertsCommand_flips {W : Type} (ui : Ui W) chatId realtimePrices aa (w : W) :
  enumerable (map fst (enabled aa)) ->
  let '(aa', _, replies) := autoAlertsCommand ui chatId realtimePrices aa w in
  (chatId ∈ recipients (enabled aa') <-> chatId ∉ recipients (enabled aa))
  /\ (forall other, other <> chatId ->
        (other ∈ recipients (enabled aa') <-> other ∈ recipients (enabled aa)))
  /\ enumerable (map fst (enabled aa'))
  /\ baselines aa' = baselines aa /\ cooldown aa' = cooldown aa
  /\ threshold aa' = threshold aa
  /\ replies = [if decide (chatId ∈ recipients (enabled aa)) then AutoDisabled
                else AutoEnabled (length (JsMap.keys realtimePrices))].
Proof.
  intros Hwf. pose proof (enumerable_NoDup _ Hwf) as Hnd.
  pose proof (recipients_lookup (enabled aa) chatId Hnd) as Hmine.
  unfold autoAlertsCommand.
  assert (Hset : forall flag other,
    other ∈ recipients (set_prop chatId flag (enabled aa))
    <-> lookup_prop other (set_prop chatId flag (enabled aa)) = Some true).
  { intros flag other. apply recipients_lookup, enumerable_NoDup.
    now apply enumerable_set_prop. }
  assert (Hothers : forall flag other, other <> chatId ->
    (other ∈ recipients (set_prop chatId flag (enabled aa))
     <-> other ∈ recipients (enabled aa))).
  { intros flag other Hother. rewrite Hset, lookup_set_prop_ne by congruence.
    symmetry. now apply recipients_lookup. }
  destruct (lookup_prop chatId (enabled aa)) as [[|]|] eqn:Hflag; cbn [enabled].
  - rewrite decide_True by now apply Hmine.
    conjs; try reflexivity; [..|now apply enumerable_set_prop]; [|apply Hothers].
    rewrite Hset, lookup_set_prop_eq. split; [discriminate|].
    intros Hout. exfalso. apply Hout. now apply Hmine.
  - rewrite decide_False by (intros Hin; apply Hmine in Hin; discriminate).
    conjs; try reflexivity; [..|now apply enumerable_set_prop]; [|apply Hothers].
    rewrite Hset, lookup_set_prop_eq. split; [|reflexivity].
    intros _ Hin. apply Hmine in Hin. discriminate.
  - rewrite decide_False by (intros Hin; apply Hmine in Hin; discriminate).
    conjs; try reflexivity; [..|now apply enumerable_set_prop]; [|apply Hothers].
    rewrite Hset, lookup_set_prop_eq. split; [|reflexivity].
    intros _ Hin. apply Hmine in Hin. discriminate.
Qed.

(** X22. [/autoalerts] flips the subscription of the chat and of no other:
    the chat receives the broadcasts afterwards exactly if it did not
    before, every other chat is where it was, and baselines, threshold and
    cooldown are untouched; sending the command twice brings back the
    recipients one started with. *)
Theorem autoalerts_command_toggles {W : Type} (ui : Ui W) chatId realtimePrices aa
    (w : W) :
  enumerable (map fst (enabled aa)) ->
  let '(aa', w', replies) := autoAlertsCommand ui chatId realtimePrices aa w in
  (chatId ∈ recipients (enabled aa') <-> chatId ∉ recipients (enabled aa))
  /\ (forall other, other <> chatId ->
        (other ∈ recipients (enabled aa') <-> other ∈ recipients (enabled aa)))
  /\ baselines aa' = baselines aa /\ cooldown aa' = cooldown aa
  /\ threshold aa' = threshold aa
  /\ replies = [if decide (chatId ∈ recipients (enabled aa)) then AutoDisabled
                else AutoEnabled (length (JsMap.keys realtimePrices))]
  /\ (forall realtimePrices' w'',
         let '(aa'', _, _) := autoAlertsCommand ui chatId realtimePrices' aa' w'' in
         forall chat, chat ∈ recipients (enabled aa'')
                      <-> chat ∈ recipients (enabled aa)).
Proof.
  intros Hwf.
  pose proof (autoAlertsCommand_flips ui chatId realtimePrices aa w Hwf) as Hfirst.
  destruct (autoAlertsCommand ui chatId realtimePrices aa w) as [[aa' w'] replies].
  destruct Hfirst as (Hme & Hothers & Hwf' & Hb & Hc & Ht & Hr).
  conjs; auto.
  intros realtimePrices' w''.
  pose proof (autoAlertsCommand_flips ui chatId realtimePrices' aa' w'' Hwf')
    as Hsecond.
  destruct (autoAlertsCommand ui chatId realtimePrices' aa' w'') as [[aa'' w3] r3].
  destruct Hsecond as (Hme2 & Hothers2 & _).
  intros chat. destruct (decide (chat = chatId)) as [->|Hne].
  - rewrite Hme2, Hme. destruct (decide (chatId ∈ recipients (enabled aa))); tauto.
  - rewrite (Hothers2 chat Hne). now apply Hothers.
Qed.

Lemma autoalerts_command_toggles_witness :
  enumerable (map fst (enabled subscribed))
  /\ (let '(aa', _, _) := autoAlertsCommand talking 7 [] subscribed t0 in
      7 ∈ recipients (enabled aa') <-> 7 ∉ recipients (enabled subscribed)).
Proof.
  assert (H : enumerable (map fst (enabled subscribed))).
  { cbn. repeat constructor; try discriminate; reflexivity. }
  split; [exact H|].
  pose proof (autoalerts_command_toggles talking 7 [] subscribed t0 H) as Ht.
  destruct (autoAlertsCommand talking 7 [] subscribed t0) as [[aa' w'] replies].
  exact (proj1 Ht).
Defined.

End Subscriptions.

Section MoreWitnesses.
Import PriceFeeds Alerts Commands Helpers Samples MoreSamples.

Lemma getTimeAgoShort_units_witness :
  t0 - (t0 - 7200000) < 86400000
  /\ getTimeAgoShort t0 (Some (t0 - 7200000)) = js "2h ago"
  /\ getTimeAgo t0 (Some (t0 - 7200000)) = js "2h ago".
Proof.
  assert (H : t0 - (t0 - 7200000) < 86400000) by reflexivity.
  split; [exact H|].
  pose proof (getTimeAgoShort_units t0 (t0 - 7200000)) as [Hshort Hsame].
  split; [exact Hshort|]. rewrite <- (Hsame H). exact Hshort.
Defined.

Lemma alert_command_rejects_witness :
  say talking 42 Verifying compare_up = (true, compare_up)
  /\ (let '(priceAlerts', _, _, replies) :=
        alertCommand config_example talking 42 (js "btc") (Some 52000%Q)
          (js "BTC_52000_1700000000000") three_chats compare_up in
      priceAlerts' = three_chats
      /\ replies = [Verifying; UnknownSymbol (js "BTC")]).
Proof.
  split; [reflexivity|].
  apply (proj2 (alert_command_rejects config_example talking 42 (js "btc")
                  (js "BTC_52000_1700000000000") three_chats compare_up)
           52000%Q compare_up compare_up
           (rate_limiting (getCoinGeckoId (js "BTC") (SYMBOL_MAP config_example))));
    [reflexivity|reflexivity|].
  intros body entry Hbody. discriminate Hbody.
Defined.

End MoreWitnesses.

(** ** The timer: runs in turn and runs that overlap *)

Section TimerFacts.
Import Alerts.
Context {W : Type} {host : Host W}.
Variable bot : Bot W.
Variable resolver : Resolver W.

Local Abbreviation in_turn := (Timer.in_turn bot resolver).

Lemma state_eta (st : State) :
  {| priceAlerts := priceAlerts st; autoAlerts := autoAlerts st |} = st.
Proof. now destruct st. Qed.

Lemma in_turn_pause ms next st (w : W) :
  in_turn (Timer.pause ms next) st w = in_turn next st (setTimeout ms w).
Proof.
  cbn. now destruct (Timer.in_turn _ _ next st (setTimeout ms w)) as [[st' w'] log].
Qed.

Lemma in_turn_broadcast chats symbol direction pct currentPrice next st (w : W)
    baseline :
  (forall c f, (c, f) ∈ chats ->
               Commands.lookup_prop c (enabled (autoAlerts st)) = Some f) ->
  baselines (autoAlerts st) !! symbol = Some baseline ->
  in_turn (Timer.broadcast (map fst chats) symbol direction pct currentPrice next)
    st w
  = let '(w1, log1) :=
      broadcast bot chats
        (VolatilityAlert symbol direction pct currentPrice
           (Baseline.lastAlertPrice baseline)) w in
    let '(st2, w2, log2) := in_turn next st w1 in
    (st2, w2, log1 ++ log2).
Proof.
  intros Hflags Hb. revert w.
  induction chats as [|[chatId flag] chats IH]; intros w.
  { cbn. now destruct (Timer.in_turn _ _ next st w) as [[st2 w2] log2]. }
  cbn [map fst Timer.broadcast Timer.in_turn broadcast].
  rewrite (Hflags chatId flag) by now left.
  rewrite Hb.
  assert (Hrest : forall c f, (c, f) ∈ chats ->
            Commands.lookup_prop c (enabled (autoAlerts st)) = Some f).
  { intros c f Hin. apply Hflags. now right. }
  specialize (IH Hrest).
  destruct flag.
  - cbn [Timer.in_turn Timer.perform Timer.report].
    destruct (sendMessage bot chatId _ w) as [ok w1].
    rewrite IH.
    destruct (broadcast bot chats _ w1) as [w2 log].
    now destruct (Timer.in_turn _ _ next st w2) as [[st3 w3] log3].
  - apply IH.
Qed.

Lemma lookup_prop_NoDup {V : Type} (o : list (Z * V)) c v :
  NoDup (map fst o) -> (c, v) ∈ o -> Commands.lookup_prop c o = Some v.
Proof.
  induction o as [|[c' v'] o IH]; intros Hnd Hin; [inversion Hin|].
  cbn in Hnd. apply NoDup_cons in Hnd as [Hfresh Hnd]. cbn.
  apply elem_of_cons in Hin as [[= -> ->]|Hin].
  - now rewrite decide_True.
  - rewrite decide_False; [now apply IH|].
    intros ->. apply Hfresh. apply list_elem_of_fmap. now exists (c, v).
Qed.

Lemma with_autoAlerts_same (st : State) : Timer.with_autoAlerts st (autoAlerts st) = st.
Proof. apply state_eta. Qed.

Lemma in_turn_checkSymbol realtimePrices symbol next st (w : W) :
  NoDup (map fst (enabled (autoAlerts st))) ->
  in_turn (Timer.checkSymbol realtimePrices symbol next) st w
  = match JsMap.get symbol realtimePrices with
    | Some currentData =>
        let '(aa1, w1, log1) :=
          checkSymbol bot (autoAlerts st) symbol currentData w in
        let '(st2, w2, log2) := in_turn next (Timer.with_autoAlerts st aa1) w1 in
        (st2, w2, log1 ++ log2)
    | None => in_turn next st w
    end.
Proof.
  intros Hnd. unfold Timer.checkSymbol, checkSymbol.
  destruct (JsMap.get symbol realtimePrices) as [currentData|]; [|reflexivity].
  cbn [Timer.in_turn].
  destruct (baselines (autoAlerts st) !! symbol) as [baseline|] eqn:Hb.
  - destruct (abs_at_least _ _ && _) eqn:Htest.
    + rewrite (in_turn_broadcast (enabled (autoAlerts st)) _ _ _ _ _ _ _ baseline);
        [|intros c f Hin; now apply lookup_prop_NoDup|exact Hb].
      unfold volatility_message.
      destruct (broadcast bot _ _ w) as [w1 log1].
      cbn [Timer.in_turn]. rewrite Hb. cbn [Timer.in_turn].
      now rewrite in_turn_pause.
    + rewrite in_turn_pause, with_autoAlerts_same.
      now destruct (Timer.in_turn _ _ next st _) as [[st2 w2] log2].
  - cbn [Timer.in_turn].
    now destruct (Timer.in_turn _ _ next _ w) as [[st2 w2] log2].
Qed.

Lemma checkSymbol_enabled aa symbol currentData (w : W) :
  enabled (fst (fst (checkSymbol bot aa symbol currentData w))) = enabled aa.
Proof.
  unfold checkSymbol. destruct (baselines aa !! symbol); [|reflexivity].
  destruct (_ && _); [|reflexivity].
  now destruct (broadcast _ _ _ _).
Qed.

Lemma in_turn_volatility_loop symbols realtimePrices next st (w : W) :
  NoDup (map fst (enabled (autoAlerts st))) ->
  in_turn (Timer.volatility_loop symbols realtimePrices next) st w
  = let '(aa1, w1, log1) :=
      volatility_loop bot symbols realtimePrices (autoAlerts st) w in
    let '(st2, w2, log2) := in_turn next (Timer.with_autoAlerts st aa1) w1 in
    (st2, w2, log1 ++ log2).
Proof.
  revert st w. induction symbols as [|symbol rest IH]; intros st w Hnd.
  { cbn. rewrite with_autoAlerts_same.
    now destruct (Timer.in_turn _ _ next st w) as [[st2 w2] log2]. }
  cbn [Timer.volatility_loop volatility_loop].
  rewrite in_turn_checkSymbol by exact Hnd.
  destruct (JsMap.get symbol realtimePrices) as [currentData|].
  - pose proof (checkSymbol_enabled (autoAlerts st) symbol currentData w) as Hen.
    destruct (checkSymbol bot (autoAlerts st) symbol currentData w)
      as [[aa1 w1] log1]. cbn in Hen.
    rewrite IH by (cbn; now rewrite Hen). cbn [Timer.with_autoAlerts autoAlerts priceAlerts].
    destruct (volatility_loop bot rest realtimePrices aa1 w1) as [[aa2 w2] log2].
    unfold Timer.with_autoAlerts. cbn [priceAlerts].
    destruct (Timer.in_turn _ _ next _ w2) as [[st3 w3] log3].
    now rewrite app_assoc.
  - rewrite IH by exact Hnd.
    destruct (volatility_loop bot rest realtimePrices (autoAlerts st) w)
      as [[aa2 w2] log2].
    now destruct (Timer.in_turn _ _ next _ w2) as [[st3 w3] log3].
Qed.

Lemma alerts_of_set_alerts chatId alerts priceAlerts alerts0 :
  alerts_of chatId priceAlerts = Some alerts0 ->
  alerts_of chatId (Timer.set_alerts chatId alerts priceAlerts) = Some alerts.
Proof.
  induction priceAlerts as [|[c l] rest IH]; cbn; [discriminate|].
  destruct (decide (c = chatId)) as [->|Hne]; cbn.
  - now rewrite decide_True.
  - now rewrite decide_False.
Qed.

Lemma set_alerts_twice chatId alerts1 alerts2 priceAlerts :
  Timer.set_alerts chatId alerts2 (Timer.set_alerts chatId alerts1 priceAlerts)
  = Timer.set_alerts chatId alerts2 priceAlerts.
Proof.
  induction priceAlerts as [|[c l] rest IH]; cbn; [reflexivity|].
  destruct (decide (c = chatId)) as [->|Hne]; cbn.
  - now rewrite decide_True.
  - rewrite decide_False by exact Hne. now rewrite IH.
Qed.

Lemma set_alerts_same chatId alerts priceAlerts :
  alerts_of chatId priceAlerts = Some alerts ->
  Timer.set_alerts chatId alerts priceAlerts = priceAlerts.
Proof.
  induction priceAlerts as [|[c l] rest IH]; cbn; [reflexivity|].
  destruct (decide (c = chatId)) as [->|Hne].
  - now intros [= ->].
  - intros H. now rewrite IH.
Qed.

Lemma alerts_of_middle chatId alerts (before after : list (Z * list Alert.t)) :
  chatId ∉ map fst before ->
  alerts_of chatId (before ++ (chatId, alerts) :: after) = Some alerts.
Proof.
  induction before as [|[c l] before IH]; cbn; intros Hfresh.
  - now rewrite decide_True.
  - apply not_elem_of_cons in Hfresh as [Hne Hfresh].
    rewrite decide_False by congruence. now apply IH.
Qed.

Lemma set_alerts_middle chatId alerts alerts' (before after : list (Z * list Alert.t)) :
  chatId ∉ map fst before ->
  Timer.set_alerts chatId alerts' (before ++ (chatId, alerts) :: after)
  = before ++ (chatId, alerts') :: after.
Proof.
  induction before as [|[c l] before IH]; cbn; intros Hfresh.
  - now rewrite decide_True.
  - apply not_elem_of_cons in Hfresh as [Hne Hfresh].
    rewrite decide_False by congruence. now rewrite IH.
Qed.

Lemma in_turn_pace (last : bool) next st (w : W) :
  in_turn (if last then next else Timer.pause 1000 next) st w
  = in_turn next st (pace last w).
Proof. destruct last; [reflexivity|apply in_turn_pause]. Qed.

Lemma in_turn_checkAlert chatId ref last next st (w : W) alerts alert :
  alerts_of chatId (priceAlerts st) = Some alerts ->
  alerts !! ref = Some alert ->
  in_turn (Timer.checkAlert chatId ref last next) st w
  = let '(alert', w1, log1) := checkAlert bot resolver chatId last alert w in
    let '(st2, w2, log2) :=
      in_turn next
        {| priceAlerts :=
             Timer.set_alerts chatId (<[ref := alert']> alerts) (priceAlerts st);
           autoAlerts := autoAlerts st |} w1 in
    (st2, w2, log1 ++ log2).
Proof.
  intros Halerts Halert.
  assert (Hat : alert_at chatId ref (priceAlerts st) = Some alert).
  { unfold alert_at. now rewrite Halerts. }
  assert (Hsame : {| priceAlerts :=
                       Timer.set_alerts chatId (<[ref := alert]> alerts) (priceAlerts st);
                     autoAlerts := autoAlerts st |} = st).
  { rewrite list_insert_id by exact Halert.
    rewrite set_alerts_same by exact Halerts. apply state_eta. }
  unfold Timer.checkAlert, checkAlert. cbn [Timer.in_turn]. rewrite Hat.
  cbn [Timer.in_turn Timer.perform Timer.report].
  destruct (resolver (Alert.symbol alert) true w) as [[[currentData|]|e] w1];
    cbn [app]; try (rewrite Hsame;
                    now destruct (Timer.in_turn _ _ next st w1) as [[st2 w2] log2]).
  cbn [Timer.in_turn]. rewrite Hat.
  destruct (shouldTrigger alert (PriceFeeds.answer_price currentData)).
  - cbn [Timer.in_turn Timer.perform Timer.report].
    unfold Timer.write_alert. rewrite !Halerts.
    cbn [priceAlerts autoAlerts].
    unfold alert_at.
    rewrite (alerts_of_set_alerts chatId _ _ alerts Halerts).
    rewrite list_lookup_insert_eq by (now apply lookup_lt_Some in Halert).
    cbn [Timer.in_turn Timer.perform Timer.report Alert.symbol trigger
         Alert.targetPrice].
    destruct (sendMessage bot chatId _ _) as [ok w3].
    destruct ok.
    + rewrite in_turn_pace.
      now destruct (Timer.in_turn _ _ next _ _) as [[st2 w2] log2].
    + now destruct (Timer.in_turn _ _ next _ _) as [[st2 w2] log2].
  - rewrite in_turn_pace, Hsame.
    now destruct (Timer.in_turn _ _ next st _) as [[st2 w2] log2].
Qed.

Lemma in_turn_alerts_loop chatId refs next st (w : W) alerts :
  alerts_of chatId (priceAlerts st) = Some alerts ->
  in_turn (Timer.alerts_loop chatId refs next) st w
  = let '(alerts', w1, seen) := alerts_loop bot resolver chatId refs alerts w in
    let '(st2, w2, log2) :=
      in_turn next
        {| priceAlerts := Timer.set_alerts chatId alerts' (priceAlerts st);
           autoAlerts := autoAlerts st |} w1 in
    (st2, w2, concat (map sends seen) ++ log2).
Proof.
  revert st w alerts. induction refs as [|ref rest IH]; intros st w alerts Halerts.
  { cbn. rewrite set_alerts_same by exact Halerts. rewrite state_eta.
    now destruct (Timer.in_turn _ _ next st w) as [[st2 w2] log2]. }
  cbn [Timer.alerts_loop alerts_loop].
  destruct (alerts !! ref) as [alert|] eqn:Halert.
  - rewrite (in_turn_checkAlert _ _ _ _ _ _ alerts alert Halerts Halert).
    destruct (checkAlert bot resolver chatId _ alert w) as [[alert' w1] log1].
    rewrite (IH _ w1 (<[ref := alert']> alerts))
      by (cbn; now apply (alerts_of_set_alerts _ _ _ alerts)).
    cbn [priceAlerts autoAlerts].
    destruct (alerts_loop bot resolver chatId rest _ w1) as [[alerts2 w2] seen2].
    rewrite set_alerts_twice.
    destruct (Timer.in_turn _ _ next _ w2) as [[st3 w3] log3].
    cbn [map concat sends]. now rewrite app_assoc.
  - unfold Timer.checkAlert. cbn [Timer.in_turn].
    unfold alert_at. rewrite Halerts, Halert.
    now apply IH.
Qed.

Lemma in_turn_chats_loop before rest next st (w : W) :
  priceAlerts st = before ++ rest ->
  NoDup (map fst (before ++ rest)) ->
  in_turn (Timer.chats_loop (map fst rest) next) st w
  = let '(rest', w1, seen) := chats_loop bot resolver rest w in
    let '(st2, w2, log2) :=
      in_turn next
        {| priceAlerts := before ++ rest'; autoAlerts := autoAlerts st |} w1 in
    (st2, w2, concat (map sends seen) ++ log2).
Proof.
  revert before st w.
  induction rest as [|[chatId alerts] rest IH]; intros before st w Hst Hnd.
  { cbn. rewrite <- Hst, state_eta.
    now destruct (Timer.in_turn _ _ next st w) as [[st2 w2] log2]. }
  assert (Hfresh : chatId ∉ map fst before).
  { rewrite map_app in Hnd. apply NoDup_app in Hnd as (_ & Hdisj & _).
    intros Hin. apply (Hdisj chatId Hin). cbn. now left. }
  cbn [map fst Timer.chats_loop chats_loop Timer.in_turn].
  rewrite Hst, (alerts_of_middle _ _ _ _ Hfresh).
  rewrite (in_turn_alerts_loop _ _ _ _ _ alerts)
    by (rewrite Hst; now apply alerts_of_middle).
  destruct (alerts_loop bot resolver chatId _ alerts w) as [[alerts' w1] seen1].
  rewrite Hst, (set_alerts_middle _ _ _ _ _ Hfresh).
  rewrite (IH (before ++ [(chatId, alerts')]));
    [|cbn; now rewrite <- app_assoc
     |rewrite <- app_assoc; cbn;
      rewrite !map_app in *; cbn in *; exact Hnd].
  cbn [autoAlerts].
  destruct (chats_loop bot resolver rest w1) as [[rest' w2] seen2].
  rewrite <- app_assoc. cbn [app].
  destruct (Timer.in_turn _ _ next _ w2) as [[st3 w3] log3].
  now rewrite map_app, concat_app, app_assoc.
Qed.

(** A run of [checkAlerts] that nothing interrupts leaves the state and
    the world [Alerts.checkAlerts] leaves, and has sent the same messages in
    the same order. *)
Lemma in_turn_checkAlerts realtimePrices st (w : W) :
  NoDup (map fst (priceAlerts st)) ->
  NoDup (map fst (enabled (autoAlerts st))) ->
  let c := checkAlerts bot resolver realtimePrices st w in
  in_turn (Timer.checkAlerts realtimePrices) st w
  = (state c, world c, broadcasts c ++ concat (map sends (visits c))).
Proof.
  intros Hchats Hsubs. cbn zeta. unfold Timer.checkAlerts, checkAlerts.
  rewrite in_turn_volatility_loop by exact Hsubs.
  unfold checkAutoVolatilityAlerts.
  destruct (volatility_loop bot _ realtimePrices (autoAlerts st) w)
    as [[aa1 w1] log1].
  cbn [Timer.in_turn Timer.with_autoAlerts priceAlerts].
  rewrite (in_turn_chats_loop [] (priceAlerts st)); [|reflexivity|exact Hchats].
  destruct (chats_loop bot resolver (priceAlerts st) w1) as [[pa w2] seen].
  cbn. now rewrite app_nil_r.
Qed.

Local Abbreviation exec := (Timer.exec bot resolver).

Lemma exec_app events1 events2 (m : Timer.Machine) :
  exec (events1 ++ events2) m = exec events2 (exec events1 m).
Proof. apply fold_left_app. Qed.

(** Settling what a run awaits, again and again, brings it to its end, with
    the effects of the run that nothing interrupts. *)
Lemma settles_to_the_end p : forall st (w : W) (m : Timer.Machine) i,
  Timer.runs m !! i = Some (snd (Timer.advance p st w)) ->
  Timer.shared m = fst (Timer.advance p st w) ->
  Timer.outside m = w ->
  let '(st', w', log) := in_turn p st w in
  exists n,
    exec (repeat (Timer.Settles i) n) m
    = {| Timer.shared := st'; Timer.outside := w';
         Timer.runs := <[i := Timer.Done]> (Timer.runs m);
         Timer.sent := Timer.sent m ++ log |}.
Proof.
  induction p as [|k IH|st0 k IH|k IH|A op k IH]; intros st w m i Hrun Hst Hw;
    cbn [Timer.advance Timer.in_turn] in *.
  - exists 0%nat. destruct m as [sh out rs se]. cbn in *. subst.
    now rewrite list_insert_id, app_nil_r.
  - now apply IH.
  - now apply IH.
  - now apply IH.
  - destruct (Timer.perform bot resolver op w) as [a w1] eqn:Hperform.
    specialize (IH a st w1
      {| Timer.shared := fst (Timer.advance (k a) st w1);
         Timer.outside := w1;
         Timer.runs := <[i := snd (Timer.advance (k a) st w1)]> (Timer.runs m);
         Timer.sent := Timer.sent m ++ Timer.report op a |} i).
    cbn [Timer.runs Timer.shared Timer.outside Timer.sent] in IH.
    destruct (in_turn (k a) st w1) as [[st' w'] log].
    destruct IH as [n Hn]; [|reflexivity|reflexivity|].
    { apply list_lookup_insert_eq. now apply lookup_lt_Some in Hrun. }
    exists (S n). cbn [repeat]. unfold Timer.exec in *. cbn [fold_left].
    unfold Timer.step at 2. cbn in Hrun. rewrite Hrun, Hw, Hperform, Hst.
    cbn [fst].
    destruct (Timer.advance (k a) st w1) as [st1 p1] eqn:Hadv. cbn [fst snd] in Hn.
    rewrite Hn. now rewrite list_insert_insert_eq, app_assoc.
Qed.

(** The timer fires when no run is suspended, and nothing happens before
    the run it starts has ended: the run does what [Alerts.checkAlerts]
    does. *)
Lemma a_run_in_turn realtimePrices (m : Timer.Machine) :
  NoDup (map fst (priceAlerts (Timer.shared m))) ->
  NoDup (map fst (enabled (autoAlerts (Timer.shared m)))) ->
  let c := checkAlerts bot resolver realtimePrices (Timer.shared m)
             (Timer.outside m) in
  exists n,
    exec (Timer.Fires realtimePrices
            :: repeat (Timer.Settles (length (Timer.runs m))) n) m
    = {| Timer.shared := state c; Timer.outside := world c;
         Timer.runs := Timer.runs m ++ [Timer.Done];
         Timer.sent :=
           Timer.sent m ++ broadcasts c ++ concat (map sends (visits c)) |}.
Proof.
  intros Hchats Hsubs c.
  pose proof (in_turn_checkAlerts realtimePrices (Timer.shared m) (Timer.outside m)
                Hchats Hsubs) as Hrun. cbn zeta in Hrun. fold c in Hrun.
  pose proof (settles_to_the_end (Timer.checkAlerts realtimePrices)
                (Timer.shared m) (Timer.outside m)
                (Timer.step bot resolver m (Timer.Fires realtimePrices))
                (length (Timer.runs m))) as Hend.
  rewrite Hrun in Hend.
  destruct Hend as [n Hn].
  - cbn [Timer.step].
    destruct (Timer.advance _ _ _) as [st0 p0]. cbn [Timer.runs snd].
    now rewrite lookup_app_r, Nat.sub_diag by lia.
  - cbn [Timer.step]. now destruct (Timer.advance _ _ _) as [st0 p0].
  - cbn [Timer.step]. now destruct (Timer.advance _ _ _) as [st0 p0].
  - exists n. unfold Timer.exec in *. cbn [fold_left]. rewrite Hn.
    cbn [Timer.step]. destruct (Timer.advance _ _ _) as [st0 p0].
    cbn [Timer.runs Timer.sent]. f_equal.
    rewrite insert_app_r_alt, Nat.sub_diag by lia. reflexivity.
Qed.

End TimerFacts.

Section TimerCycles.
Import Alerts.
Context {W : Type} {host : Host W}.
Variable bot : Bot W.
Variable resolver : Resolver W.

Lemma volatility_loop_enabled symbols realtimePrices aa (w : W) :
  enabled (fst (fst (volatility_loop bot symbols realtimePrices aa w))) = enabled aa.
Proof.
  revert aa w. induction symbols as [|symbol rest IH]; intros aa w; [reflexivity|].
  cbn [volatility_loop].
  destruct (JsMap.get symbol realtimePrices) as [currentData|].
  - pose proof (checkSymbol_enabled bot aa symbol currentData w) as Hen.
    destruct (checkSymbol bot aa symbol currentData w) as [[aa1 w1] log1].
    specialize (IH aa1 w1).
    destruct (volatility_loop bot rest realtimePrices aa1 w1) as [[aa2 w2] log2].
    cbn in *. congruence.
  - specialize (IH aa w).
    now destruct (volatility_loop bot rest realtimePrices aa w) as [[aa2 w2] log2].
Qed.

Lemma checkAlerts_enabled realtimePrices st (w : W) :
  enabled (autoAlerts (state (checkAlerts bot resolver realtimePrices st w)))
  = enabled (autoAlerts st).
Proof.
  unfold checkAlerts, checkAutoVolatilityAlerts.
  pose proof (volatility_loop_enabled (JsMap.keys realtimePrices) realtimePrices
                (autoAlerts st) w) as Hen.
  destruct (volatility_loop bot _ realtimePrices (autoAlerts st) w)
    as [[aa w1] log1].
  now destruct (chats_loop bot resolver (priceAlerts st) w1) as [[pa w2] log2].
Qed.

(** Runs in turn: when every run has ended before the timer fires again,
    the timer leaves the state and the world [run_cycles] leaves and has
    sent the same messages (in the order of the runs, where [run_cycles]
    lists the broadcasts of all runs before the notifications). *)
Lemma cycles_in_turn schedule : forall (m : Timer.Machine),
  NoDup (map fst (priceAlerts (Timer.shared m))) ->
  NoDup (map fst (enabled (autoAlerts (Timer.shared m)))) ->
  let '(st', w', sent', seen') :=
    run_cycles bot resolver schedule (Timer.shared m) (Timer.outside m) in
  exists events log,
    Timer.exec bot resolver events m
    = {| Timer.shared := st'; Timer.outside := w';
         Timer.runs := Timer.runs m ++ repeat Timer.Done (length schedule);
         Timer.sent := Timer.sent m ++ log |}
    /\ log ≡ₚ sent' ++ concat (map sends seen').
Proof.
  induction schedule as [|[elapse realtimePrices] rest IH]; intros m Hchats Hsubs.
  { cbn. exists [], []. split; [|reflexivity].
    destruct m. cbn. now rewrite !app_nil_r. }
  cbn [run_cycles].
  destruct (a_run_in_turn bot resolver realtimePrices
              {| Timer.shared := Timer.shared m;
                 Timer.outside := elapse (Timer.outside m);
                 Timer.runs := Timer.runs m; Timer.sent := Timer.sent m |}
              Hchats Hsubs) as [n Hn].
  cbn [Timer.shared Timer.outside Timer.runs Timer.sent] in Hn.
  set (c := checkAlerts bot resolver realtimePrices (Timer.shared m)
              (elapse (Timer.outside m))) in *.
  destruct (checkAlerts_spec bot resolver 0 0%nat realtimePrices (Timer.shared m)
              (elapse (Timer.outside m)) Hchats) as (Hchats' & _).
  fold c in Hchats'.
  pose proof (checkAlerts_enabled realtimePrices (Timer.shared m)
                (elapse (Timer.outside m))) as Hen. fold c in Hen.
  specialize (IH {| Timer.shared := state c; Timer.outside := world c;
                    Timer.runs := Timer.runs m ++ [Timer.Done];
                    Timer.sent := Timer.sent m ++ broadcasts c
                                   ++ concat (map sends (visits c)) |}).
  cbn [Timer.shared Timer.outside Timer.runs Timer.sent] in IH.
  destruct (run_cycles bot resolver rest (state c) (world c))
    as [[[st' w'] sent'] seen'].
  destruct IH as (events & log & Hexec & Hperm); [exact Hchats'|now rewrite Hen|].
  exists (Timer.Passes elapse
          :: Timer.Fires realtimePrices
          :: repeat (Timer.Settles (length (Timer.runs m))) n ++ events),
    (broadcasts c ++ concat (map sends (visits c)) ++ log).
  split.
  - change (Timer.exec bot resolver
              (Timer.Passes elapse :: Timer.Fires realtimePrices
               :: repeat (Timer.Settles (length (Timer.runs m))) n ++ events) m)
      with (Timer.exec bot resolver
              ((Timer.Fires realtimePrices
                :: repeat (Timer.Settles (length (Timer.runs m))) n) ++ events)
              {| Timer.shared := Timer.shared m;
                 Timer.outside := elapse (Timer.outside m);
                 Timer.runs := Timer.runs m; Timer.sent := Timer.sent m |}).
    rewrite exec_app, Hn, Hexec. f_equal.
    + rewrite <- app_assoc. reflexivity.
    + rewrite <- !app_assoc. reflexivity.
  - rewrite Hperm, map_app, concat_app. solve_Permutation.
Qed.

End TimerCycles.

Section TimerClaims.
Import Alerts Samples MoreSamples.

(** C3. The body of the inner loop of [checkAlerts] reads [alert.status]
    nowhere: the only test of it is the [filter] at the head of the loop over
    the chat.  A run that has asked for the price of an alert and is
    suspended there goes on, when the price comes, whatever the status of
    the alert has become in the meantime: if the price satisfies the crossing
    rule it marks the alert again and sends its message.  So when the timer
    fires while a run is suspended at the price of an active alert, both
    runs notify: with the alert for 60000 set at 50000, two runs thirty
    seconds apart and a first price that takes 31 seconds, chat 42 gets two
    messages for the one alert, the second one three events after the alert
    was marked as triggered.  When the first run has ended before the timer
    fires again, the second run does not look at the alert and there is one
    message. *)
Theorem overlapping_runs_notify_twice :
  (forall (W : Type) (host : Host W) (bot : Bot W) (resolver : Resolver W)
          chatId ref (last : bool) st0 (w0 : W) alert0,
      alert_at chatId ref (priceAlerts st0) = Some alert0 ->
      exists k,
        Timer.advance (Timer.checkAlert chatId ref last Timer.Done) st0 w0
        = (st0, Timer.Await (Timer.GetCachedCryptoData (Alert.symbol alert0) true) k)
        /\ forall st (w : W) alert currentData,
             alert_at chatId ref (priceAlerts st) = Some alert ->
             shouldTrigger alert (PriceFeeds.answer_price currentData) = true ->
             let marked :=
               trigger alert (Date_now w) (PriceFeeds.answer_price currentData) in
             let message :=
               TargetHit marked
                 (if Qltb (Alert.currentPrice alert) (Alert.targetPrice alert)
                  then upward else downward) in
             let '(st', _, log) :=
               Timer.in_turn bot resolver (k (Return (Some currentData))) st w in
             alert_at chatId ref (priceAlerts st') = Some marked
             /\ log
                = [ {| to := chatId; notice := message;
                       delivered :=
                         fst (sendMessage bot chatId message
                                (marketContext (Alert.symbol alert) w)) |} ])
  /\ (let m := Timer.exec delivering (quoting 60000) slow_lookup
                 (at_rest (holding [btc_to_60000])) in
      Timer.sent m
      = [ {| to := 42;
             notice := TargetHit (trigger btc_to_60000 (t0 + 61000) 60000) upward;
             delivered := true |};
          {| to := 42;
             notice := TargetHit (trigger btc_to_60000 (t0 + 62000) 60000) upward;
             delivered := true |} ]
      /\ Timer.runs m = [Timer.Done; Timer.Done]
      /\ alert_at 42 0 (priceAlerts (Timer.shared m))
         = Some (trigger btc_to_60000 (t0 + 62000) 60000))
  /\ (let m := Timer.exec delivering (quoting 60000) (firstn 8 slow_lookup)
                 (at_rest (holding [btc_to_60000])) in
      Timer.runs m !! 0%nat = Some Timer.Done
      /\ Timer.runs m !! 1%nat <> Some Timer.Done
      /\ alert_at 42 0 (priceAlerts (Timer.shared m))
         = Some (trigger btc_to_60000 (t0 + 61000) 60000)
      /\ length (Timer.sent m) = 1%nat)
  /\ (let m := Timer.exec delivering (quoting 60000) prompt_lookup
                 (at_rest (holding [btc_to_60000])) in
      Timer.sent m
      = [ {| to := 42;
             notice := TargetHit (trigger btc_to_60000 (t0 + 31000) 60000) upward;
             delivered := true |} ]
      /\ Timer.runs m = [Timer.Done; Timer.Done]).
Proof.
  split; [|split; [|split]].
  - intros W host bot resolver chatId ref last st0 w0 alert0 Hat0.
    eexists. split.
    { unfold Timer.checkAlert. cbn [Timer.advance]. rewrite Hat0. reflexivity. }
    intros st w alert currentData Hat Hrule marked message.
    cbn [Timer.in_turn]. rewrite Hat, Hrule.
    cbn [Timer.in_turn Timer.perform Timer.report].
    unfold alert_at in Hat.
    destruct (alerts_of chatId (priceAlerts st)) as [alerts|] eqn:Halerts;
      [|discriminate].
    unfold Timer.write_alert. rewrite !Halerts. unfold alert_at.
    cbn [priceAlerts].
    rewrite (alerts_of_set_alerts chatId _ _ alerts Halerts).
    rewrite list_lookup_insert_eq by (now apply lookup_lt_Some in Hat).
    cbn [Timer.in_turn Timer.perform Timer.report Alert.symbol trigger
         Alert.targetPrice].
    fold marked. fold message.
    destruct (sendMessage bot chatId message _) as [ok w3]. cbn [fst].
    assert (Hdone : forall w', Timer.in_turn bot resolver
              (if ok then if last then Timer.Done else Timer.pause 1000 Timer.Done
               else Timer.Done)
              {| priceAlerts :=
                   Timer.set_alerts chatId (<[ref := marked]> alerts) (priceAlerts st);
                 autoAlerts := autoAlerts st |} w'
            = ({| priceAlerts :=
                    Timer.set_alerts chatId (<[ref := marked]> alerts) (priceAlerts st);
                  autoAlerts := autoAlerts st |},
               if ok then pace last w' else w', [])).
    { intros w'. destruct ok, last; reflexivity. }
    rewrite Hdone. cbn [priceAlerts].
    rewrite (alerts_of_set_alerts chatId _ _ alerts Halerts).
    split; [|reflexivity].
    apply list_lookup_insert_eq. now apply lookup_lt_Some in Hat.
  - vm_compute. repeat split.
  - vm_compute. repeat split. discriminate.
  - vm_compute. repeat split.
Qed.

(** C3 at a sample: a run suspended at the price of an alert that another
    run has meanwhile marked as triggered marks it again and notifies. *)
Lemma overlapping_runs_notify_twice_witness :
  alert_at 42 0 (priceAlerts (holding [btc_to_60000])) = Some btc_to_60000
  /\ exists k,
       Timer.advance (Timer.checkAlert 42 0 true Timer.Done)
         (holding [btc_to_60000]) (t0 + 60000)
       = (holding [btc_to_60000],
          Timer.Await (Timer.GetCachedCryptoData (js "BTC") true) k)
       /\ snd (Timer.in_turn delivering (quoting 60000)
                 (k (Return (Some (PriceFeeds.Bare (quote 60000)))))
                 (holding [trigger btc_to_60000 (t0 + 61000) 60000]) (t0 + 62000))
          = [ {| to := 42;
                 notice :=
                   TargetHit (trigger btc_to_60000 (t0 + 62000) 60000) upward;
                 delivered := true |} ].
Proof.
  assert (Hat : alert_at 42 0 (priceAlerts (holding [btc_to_60000]))
                = Some btc_to_60000) by reflexivity.
  split; [exact Hat|].
  destruct (proj1 overlapping_runs_notify_twice Z clock_host delivering
              (quoting 60000) 42 0%nat true (holding [btc_to_60000]) (t0 + 60000)
              btc_to_60000 Hat) as (k & Hk & Hgoes).
  exists k. split; [exact Hk|].
  specialize (Hgoes (holding [trigger btc_to_60000 (t0 + 61000) 60000])
                (t0 + 62000) (trigger btc_to_60000 (t0 + 61000) 60000)
                (PriceFeeds.Bare (quote 60000)) eq_refl eq_refl).
  cbv zeta in Hgoes.
  destruct (Timer.in_turn _ _ _ _ _) as [[st' w'] log].
  exact (proj2 Hgoes).
Defined.

End TimerClaims.

(** ** An alert set at the current price *)

Section EqualTarget.
Import Alerts Commands Samples MoreSamples.

Lemma Qltb_irrefl (x y : Q) : (x == y)%Q -> Qltb x y = false.
Proof.
  intros Heq. destruct (Qltb x y) eqn:Hlt; [|reflexivity].
  apply Qltb_lt in Hlt. lra.
Qed.

(** C4. For a target equal to the price it has just fetched, [/alert]
    stores an active alert, calls the target [below] the current price and
    promises the notification; [generateAlertAnalysis] would call the move
    downward.  The crossing test of [checkAlerts] is strict on both sides,
    so the alert satisfies neither disjunct at any price: a run leaves it as
    it is and sends nothing, whatever the resolver answers.  With CoinGecko
    at 51000, [/alert btc 51000] is answered in that way, and runs that see
    51000, 60000 and 40000 all leave the alert active and say nothing. *)
Theorem equal_target_never_fires :
  (forall (W : Type) (sources : Poller.Sources W) cfg (ui : Ui W) chatId match1
          targetPrice alertId priceAlerts (w w1 w2 : W) body entry,
      let symbol := toUpperCase match1 in
      let ids := getCoinGeckoId symbol (SYMBOL_MAP cfg) in
      say ui chatId Verifying w = (true, w1) ->
      Poller.get_coingecko ids w1 = (PriceFeeds.Resolved (Some body), w2) ->
      body !! ids = Some entry ->
      (PriceFeeds.usd entry == targetPrice)%Q ->
      let '(priceAlerts', _, _, replies) :=
        alertCommand cfg ui chatId match1 (Some targetPrice) alertId priceAlerts w in
      replies = [Verifying; AlertSet symbol (PriceFeeds.usd entry) targetPrice false]
      /\ exists alert,
           alerts_of chatId priceAlerts'
           = Some (default [] (alerts_of chatId priceAlerts) ++ [alert])
           /\ Alert.status alert = active
           /\ Alert.targetPrice alert = targetPrice
           /\ Alert.currentPrice alert = PriceFeeds.usd entry)
  /\ (forall (W : Type) (host : Host W) (bot : Bot W) (resolver : Resolver W)
             chatId (last : bool) alert (w : W),
         (Alert.targetPrice alert == Alert.currentPrice alert)%Q ->
         (forall currentPrice, shouldTrigger alert currentPrice = false)
         /\ (let '(alert', _, log) := checkAlert bot resolver chatId last alert w in
             alert' = alert /\ log = [])
         /\ (if Qltb (Alert.currentPrice alert) (Alert.targetPrice alert)
             then upward else downward) = downward)
  /\ (let '(priceAlerts', _, _, replies) :=
        alertCommand config_example talking 42 (js "btc") (Some 51000%Q)
          (js "BTC_51000_1700000000000") [] gecko_up in
      replies = [Verifying; AlertSet (js "BTC") 51000 51000 false]
      /\ priceAlerts'
         = [(42, [new_alert (js "BTC") (js "BTC_51000_1700000000000")
                    51000 51000 t0])]
      /\ Forall (fun p =>
           let c := checkAlerts delivering (quoting p) []
                      {| priceAlerts := priceAlerts'; autoAlerts := nobody |} t0 in
           priceAlerts (state c) = priceAlerts'
           /\ visits c = [{| chat := 42; slot := 0; sends := [] |}])
           [51000; 60000; 40000]%Q).
Proof.
  split; [|split].
  - intros W sources cfg ui chatId match1 targetPrice alertId priceAlerts w w1 w2
      body entry symbol ids Hsay Hanswer Hentry Heq.
    unfold alertCommand, Poller.awaitCryptoData. fold symbol. fold ids.
    rewrite Hsay, Hanswer.
    unfold PriceFeeds.getCryptoData, PriceFeeds.getCryptoData_try, try_catch, bind.
    fold ids. rewrite Hentry. cbn [PriceFeeds.price].
    rewrite (Qltb_irrefl _ _ Heq). split; [reflexivity|].
    eexists. split.
    { rewrite <- !alerts_of_lookup_prop.
      rewrite alerts_of_lookup_prop, lookup_set_prop_eq.
      destruct (alerts_of chatId priceAlerts); reflexivity. }
    cbn. auto.
  - intros W host bot resolver chatId last alert w Heq.
    assert (Hnever : forall currentPrice, shouldTrigger alert currentPrice = false).
    { intros currentPrice. unfold shouldTrigger.
      rewrite (Qltb_irrefl (Alert.currentPrice alert) (Alert.targetPrice alert))
        by now symmetry.
      now rewrite (Qltb_irrefl (Alert.targetPrice alert) (Alert.currentPrice alert)). }
    split; [exact Hnever|]. split.
    + unfold checkAlert.
      destruct (resolver _ _ _) as [[[currentData|]|e] w1]; auto.
      now rewrite Hnever.
    + now rewrite (Qltb_irrefl (Alert.currentPrice alert) (Alert.targetPrice alert))
        by now symmetry.
  - vm_compute. split; [reflexivity|]. split; [reflexivity|].
    repeat constructor.
Qed.

(** C4 at a sample: the alert for 50000 set at 50000. *)
Lemma equal_target_never_fires_witness :
  (Alert.targetPrice btc_to_50000 == Alert.currentPrice btc_to_50000)%Q
  /\ shouldTrigger btc_to_50000 50000 = false
  /\ (let '(alert', _, log) :=
        checkAlert delivering (quoting 50000) 42 true btc_to_50000 t0 in
      alert' = btc_to_50000 /\ log = []).
Proof.
  assert (Heq : (Alert.targetPrice btc_to_50000
                 == Alert.currentPrice btc_to_50000)%Q) by reflexivity.
  split; [exact Heq|].
  destruct (proj1 (proj2 equal_target_never_fires) Z clock_host delivering
              (quoting 50000) 42 true btc_to_50000 t0 Heq) as (Hnever & Hrun & _).
  split; [apply Hnever|exact Hrun].
Defined.

End EqualTarget.
